(** * mini-agent: network-backed filesystem adapters and the durable step loop

    A shallow embedding of the JavaScript sources:
    - [original-agent.js]: the call-interception adapter ([Intercept]);
    - the virtual-node-tree adapter with automatic fetch ([NodeTree]);
    - the node-tree adapter restricted to [KNOWN_RESOURCES] ([Registry]);
    - [AgentState], [StateCache] and [agenticLoop] ([State], [Heap], [Loop]).

    Effects are explicit: every stateful function takes the state it mutates
    and returns the new state together with either a value or the thrown
    error. *)

From Stdlib Require Import ZArith List String Ascii Lia.
From Stdlib.Strings Require Import Byte.
From stdpp Require Import base gmap strings list fin_maps pretty.

Open Scope string_scope.

Abbreviation bytes := (list byte).

(** ** JavaScript values, errors and string primitives *)

Module Js.

(** What a [throw] carries: Emscripten's [FS.ErrnoError] (its message is
    [None] until the thrower assigns one) or a plain [Error], the only kind
    the fetch bridge raises. *)
Inductive JsError : Type :=
| ErrnoError (errno : Z) (message : option string)
| Error (name message : string).

Inductive result (A : Type) : Type :=
| Return (a : A)
| Throw (e : JsError).
Arguments Return {A} a.
Arguments Throw {A} e.

Definition message_of (e : JsError) : option string :=
  match e with
  | ErrnoError _ m => m
  | Error _ m => Some m
  end.

(** A computation over a mutable state [S] that returns or throws.  State
    changes made before a [throw] stay, as in JavaScript. *)
Definition M (S A : Type) : Type := S -> S * result A.

Definition ret {S A} (a : A) : M S A := fun s => (s, Return a).
Definition throw {S A} (e : JsError) : M S A := fun s => (s, Throw e).
Definition bind {S A B} (m : M S A) (k : A -> M S B) : M S B :=
  fun s =>
    match m s with
    | (s', Return a) => k a s'
    | (s', Throw e) => (s', Throw e)
    end.
Definition get {S} : M S S := fun s => (s, Return s).
Definition modify {S} (f : S -> S) : M S unit := fun s => (f s, Return tt).
(** [try { m } catch (error) { h error }] *)
Definition try_catch {S A} (m : M S A) (h : JsError -> M S A) : M S A :=
  fun s =>
    match m s with
    | (s', Return a) => (s', Return a)
    | (s', Throw e) => h e s'
    end.

(** [s.startsWith(p)] *)
Definition startsWith (s p : string) : bool := String.prefix p s.

(** [s.slice(n)] for [0 <= n] *)
Fixpoint slice (n : nat) (s : string) : string :=
  match n, s with
  | O, _ => s
  | S _, EmptyString => EmptyString
  | S n', String _ s' => slice n' s'
  end.

(** [s.replace(/^\/+/, "")] *)
Fixpoint strip_slashes (s : string) : string :=
  match s with
  | String c s' => if Ascii.eqb c "/" then strip_slashes s' else s
  | EmptyString => EmptyString
  end.

(** [s.includes(c)] for a one-character needle *)
Fixpoint includes (s : string) (c : ascii) : bool :=
  match s with
  | EmptyString => false
  | String d s' => Ascii.eqb d c || includes s' c
  end.

(** [s.lastIndexOf("/")], [None] for -1 *)
Fixpoint lastIndexOf_slash (s : string) : option nat :=
  match s with
  | EmptyString => None
  | String c s' =>
      match lastIndexOf_slash s' with
      | Some i => Some (S i)
      | None => if Ascii.eqb c "/" then Some 0 else None
      end
  end.

(** truthiness of a string *)
Definition truthy (s : string) : bool := negb (String.eqb s "").

End Js.

Import Js.

Declare Scope js_scope.
Notation "'let*' x ':=' m 'in' k" := (Js.bind m (fun x => k))
  (at level 10, x pattern, m at level 100, k at level 200) : js_scope.
Open Scope js_scope.

(** ** [path.join] of Node's [path] module (POSIX) *)

Module Path.

(** [s.split("/")] *)
Fixpoint split (s : string) : list string :=
  match s with
  | EmptyString => [EmptyString]
  | String c s' =>
      if Ascii.eqb c "/" then EmptyString :: split s'
      else match split s' with
           | seg :: rest => String c seg :: rest
           | [] => [String c EmptyString]
           end
  end.

(** [normalizeString] over the segments of a path: empty segments and [.]
    are dropped, [..] removes the segment kept last unless that is [..]
    itself or nothing is kept, in which case it is kept when the path is
    relative.  [res] holds the segments kept so far, last first. *)
Fixpoint normalizeString (allowAboveRoot : bool) (segments res : list string)
  : list string :=
  match segments with
  | [] => rev res
  | seg :: rest =>
      if String.eqb seg ".." then
        match res with
        | top :: below =>
            if String.eqb top ".."
            then normalizeString allowAboveRoot rest
                   (if allowAboveRoot then seg :: res else res)
            else normalizeString allowAboveRoot rest below
        | [] => normalizeString allowAboveRoot rest
                  (if allowAboveRoot then [seg] else [])
        end
      else if String.eqb seg "" || String.eqb seg "."
      then normalizeString allowAboveRoot rest res
      else normalizeString allowAboveRoot rest (seg :: res)
  end.

(** [segments.join("/")] *)
Fixpoint join_segments (l : list string) : string :=
  match l with
  | [] => ""
  | x :: rest =>
      match rest with
      | [] => x
      | _ :: _ => x +:+ "/" +:+ join_segments rest
      end
  end.

(** [path.charCodeAt(path.length - 1) === 47] *)
Fixpoint endsWithSlash (s : string) : bool :=
  match s with
  | EmptyString => false
  | String c s' =>
      match s' with
      | EmptyString => Ascii.eqb c "/"
      | String _ _ => endsWithSlash s'
      end
  end.

(** [path.posix.normalize] *)
Definition normalize (path : string) : string :=
  if String.eqb path "" then "."
  else
    let isAbsolute := startsWith path "/" in
    let trailingSeparator := endsWithSlash path in
    let p := join_segments (normalizeString (negb isAbsolute) (split path) []) in
    if String.eqb p "" then
      if isAbsolute then "/" else if trailingSeparator then "./" else "."
    else
      let p := if trailingSeparator then p +:+ "/" else p in
      if isAbsolute then "/" +:+ p else p.

(** [path.join(a, b)] *)
Definition join (a b : string) : string :=
  if String.eqb a "" then (if String.eqb b "" then "." else normalize b)
  else if String.eqb b "" then normalize a
  else normalize (a +:+ "/" +:+ b).

(** A segment that [normalizeString] keeps. *)
Definition ordinary (seg : string) : Prop := seg <> "" /\ seg <> "." /\ seg <> "..".

End Path.

(** ** The blocking fetch bridge ([SyncFetchWorker]) *)

Module SyncFetch.

(** The [error] object built by [normalizeError] in fetch-worker.js. *)
Record ErrorInfo : Type := { err_message : string; err_name : option string }.

(** The message the worker posts back on the port. *)
Inductive Payload : Type :=
| StatusOk (data : bytes)
| StatusError (error : option ErrorInfo).

(** The worker thread and the network behind it: what comes back for a job
    id and a locator ([None]: a message without payload). *)
Definition Remote : Type := nat -> string -> option Payload.

(** [nextJobId] is the field of the class; [log] records, in order, the
    locators handed to the worker (instrumentation, never read). *)
Record t : Type := { nextJobId : nat; log : list string }.

Definition new : t := {| nextJobId := 1; log := [] |}.

Definition fetch (remote : Remote) (url : string) : M t bytes :=
  fun w =>
    let jobId := nextJobId w in
    let w' := {| nextJobId := S jobId; log := log w ++ [url] |} in
    match remote jobId url with
    | None => (w', Throw (Error "Error" ("Fetch worker returned no payload for " +:+ url)))
    | Some (StatusOk data) => (w', Return data)
    | Some (StatusError error) =>
        let errorMessage :=
          match error with
          | Some e => if truthy (err_message e) then err_message e
                      else "Failed to fetch " +:+ url
          | None => "Failed to fetch " +:+ url
          end in
        let name :=
          match error with
          | Some {| err_name := Some n |} => if truthy n then n else "Error"
          | _ => "Error"
          end in
        (w', Throw (Error name errorMessage))
    end.

(** [fetch] entered with a value that is not a string (a member inherited
    from [Object.prototype]).  The job id is taken; a function cannot be
    cloned by [postMessage], and the prototype object is no locator the
    worker can parse: an [Error] is thrown and no locator is requested. *)
Definition fetch_non_string (is_function : bool) : M t bytes :=
  fun w =>
    ({| nextJobId := S (nextJobId w); log := log w |},
     Throw (if is_function
            then Error "DataCloneError" "value could not be cloned"
            else Error "TypeError" "Failed to parse URL from [object Object]")).

(** How often a locator was handed to the worker. *)
Definition count (url : string) (w : t) : nat :=
  length (filter (fun u => u = url) (log w)).

End SyncFetch.

(** ** The background unit ([fetch-worker.js]) *)

Module FetchWorker.

(** A value caught by [catch (error)]: a falsy value, an instance of
    [Error], another object (of which [normalizeError] reads [message] and
    copies [name]), or a truthy primitive given by its [String(error)]. *)
Inductive Caught : Type :=
| Falsy
| ErrorInstance (name message : string)
| PlainObject (message name : option string)
| Primitive (text : string).

Definition normalizeError (error : Caught) (url : string) : SyncFetch.ErrorInfo :=
  match error with
  | Falsy =>
      {| SyncFetch.err_message := "Unknown error fetching " +:+ url;
         SyncFetch.err_name := None |}
  | ErrorInstance name message =>
      {| SyncFetch.err_message := message; SyncFetch.err_name := Some name |}
  | PlainObject message name =>
      {| SyncFetch.err_message :=
           match message with
           | Some m => if truthy m then m else "Unknown error fetching " +:+ url
           | None => "Unknown error fetching " +:+ url
           end;
         SyncFetch.err_name := name |}
  | Primitive text =>
      {| SyncFetch.err_message := text; SyncFetch.err_name := None |}
  end.

(** What [await response.arrayBuffer()] and [await fetch(url)] come to. *)
Inductive Body : Type :=
| BodyBytes (data : bytes)
| BodyFails (error : Caught).

Inductive Http : Type :=
| Rejects (error : Caught)
| Responds (status : nat) (statusText : string) (body : Body).

(** [response.ok] *)
Definition ok (status : nat) : bool := Nat.leb 200 status && Nat.leb status 299.

(** [handleFetchRequest]: the message posted on the port and the value
    stored in the signal buffer. *)
Definition handleFetchRequest (url : string) (http : Http) : SyncFetch.Payload * Z :=
  let failed error := (SyncFetch.StatusError (Some (normalizeError error url)), (-1)%Z) in
  match http with
  | Rejects error => failed error
  | Responds status statusText body =>
      if negb (ok status)
      then failed (ErrorInstance "Error"
                     ("HTTP " +:+ pretty status +:+ " " +:+ statusText))
      else match body with
           | BodyBytes data => (SyncFetch.StatusOk data, 1%Z)
           | BodyFails error => failed error
           end
  end.

(** The bridge's view of a worker that serves the network [net]. *)
Definition served (net : string -> Http) : SyncFetch.Remote :=
  fun _ url => Some (handleFetchRequest url (net url)).1.

End FetchWorker.

(** ** The host filesystem (Pyodide's Emscripten [FS])

    The library is not part of the repository; the adapters use the entry
    points below.  [FS] is the filesystem's state. *)

Inductive PathArg (Node : Type) : Type :=
| PStr (path : string)          (* a string *)
| PNode (node : Node)           (* an object with a [mount] property *)
| POther.                       (* any other value *)
Arguments PStr {Node} path.
Arguments PNode {Node} node.
Arguments POther {Node}.

Inductive Flags : Type :=
| FStr (s : string)
| FNum (n : Z).

Record Stat : Type := { st_size : Z; st_mtime : Z }.

Class HostFS (FS Node Stream : Type) : Type := {
  ENOENT : Z;                                         (* ERRNO_CODES.ENOENT *)
  host_open : PathArg Node -> Flags -> Z -> M FS Stream;
  host_stat : PathArg Node -> bool -> FS -> result Stat;
  host_lstat : option (PathArg Node -> FS -> result Stat);
  host_mkdirTree : string -> M FS unit;
  host_writeFile : string -> bytes -> M FS unit;
  host_getPath : Node -> string;
}.

(** ** Strategy (b): call interception ([original-agent.js]) *)

Module Intercept.

Definition O_ACCMODE : Z := 3.
Definition O_WRONLY : Z := 1.

(** The value kept in [this.cache] for a materialised file. *)
Record Meta : Type := {
  meta_path : string;
  meta_url : string;
  meta_bytes : nat;
  meta_timestamp : Z;
}.

(** [NetworkFileSystem]: its fields and the state of [this.FS]. *)
Record t (FS : Type) : Type := {
  scheme : string;
  mountPoint : string;
  cache : gmap string Meta;
  fetcher : SyncFetch.t;
  hostfs : FS;
}.
Arguments scheme {FS} _.
Arguments mountPoint {FS} _.
Arguments cache {FS} _.
Arguments fetcher {FS} _.
Arguments hostfs {FS} _.

Section Adapter.
Context {FS Node Stream : Type} `{!HostFS FS Node Stream}.
Variable remote : SyncFetch.Remote.

Definition set_cache (c : gmap string Meta) (a : t FS) : t FS :=
  {| scheme := scheme a; mountPoint := mountPoint a; cache := c;
     fetcher := fetcher a; hostfs := hostfs a |}.
Definition set_fetcher (w : SyncFetch.t) (a : t FS) : t FS :=
  {| scheme := scheme a; mountPoint := mountPoint a; cache := cache a;
     fetcher := w; hostfs := hostfs a |}.
Definition set_hostfs (fs : FS) (a : t FS) : t FS :=
  {| scheme := scheme a; mountPoint := mountPoint a; cache := cache a;
     fetcher := fetcher a; hostfs := fs |}.

(** Run a host-filesystem call, or a bridge call, on the adapter. *)
Definition on_hostfs {A} (m : M FS A) : M (t FS) A :=
  fun a => let (fs', r) := m (hostfs a) in (set_hostfs fs' a, r).
Definition on_fetcher {A} (m : M SyncFetch.t A) : M (t FS) A :=
  fun a => let (w', r) := m (fetcher a) in (set_fetcher w' a, r).
Definition original_stat (p : string) : M (t FS) Stat :=
  fun a => (a, host_stat (PStr p) false (hostfs a)).

Definition isWithinMount (a : t FS) (fsPath : string) : bool :=
  if String.eqb fsPath (mountPoint a) then true
  else startsWith fsPath (mountPoint a +:+ "/").

Definition mount_prefix (a : t FS) : string :=
  if String.eqb (mountPoint a) "/" then "/" else mountPoint a +:+ "/".

Definition extractRemotePath (a : t FS) (fsPath : string) : string :=
  if negb (isWithinMount a fsPath) then ""
  else
    let prefix := mount_prefix a in
    let remote_part :=
      if startsWith fsPath prefix then slice (String.length prefix) fsPath
      else fsPath in
    strip_slashes remote_part.

Definition pathToURL (a : t FS) (fsPath : string) : result string :=
  let remotePath := extractRemotePath a fsPath in
  if negb (truthy remotePath) then
    Throw (Error "Error" ("No remote resource specified for " +:+ fsPath))
  else Return (scheme a +:+ "://" +:+ remotePath).

Definition ensureParentDirectories (fsPath : string) : M (t FS) unit :=
  let* a := get in
  let dirname :=
    let d := match lastIndexOf_slash fsPath with
             | Some i => String.substring 0 i fsPath
             | None => ""
             end in
    if truthy d then d else "/" in
  if negb (truthy dirname) || String.eqb dirname "/"
     || String.eqb dirname (mountPoint a) then ret tt
  else
    try_catch (let* _ := original_stat dirname in ret tt)
      (fun error =>
         match error with
         | ErrnoError errno _ =>
             if (errno =? ENOENT)%Z then on_hostfs (host_mkdirTree dirname)
             else throw error
         | _ => throw error
         end).

Definition normalizeToMount (a : t FS) (path : string) : option string :=
  if negb (truthy path) then None
  else if startsWith path (mountPoint a) then Some path
  else if startsWith path "/" then Some (mountPoint a +:+ path)
  else Some (mountPoint a +:+ "/" +:+ path).

Definition normalizePathArg (a : t FS) (pathArg : PathArg Node) : option string :=
  match pathArg with
  | PStr path => normalizeToMount a path
  | PNode node => Some (host_getPath node)
  | POther => None
  end.

Definition fileExists (fsPath : string) : M (t FS) bool :=
  try_catch (let* _ := original_stat fsPath in ret true)
    (fun error =>
       match error with
       | ErrnoError errno _ =>
           if (errno =? ENOENT)%Z then ret false else throw error
       | _ => throw error
       end).

Definition shouldFetchForOpen (flags : Flags) : bool :=
  match flags with
  | FStr s => negb (includes s "w") && negb (includes s "a")
  | FNum n => negb (Z.land n O_ACCMODE =? O_WRONLY)%Z
  end.

Definition ensureFileSync (path : string) : M (t FS) (option Meta) :=
  let* a := get in
  match normalizeToMount a path with
  | None => ret None
  | Some fsPath =>
      if negb (truthy fsPath) || negb (isWithinMount a fsPath) then ret None
      else
        let remotePath := extractRemotePath a fsPath in
        if negb (truthy remotePath) then ret None
        else
          let* hit := match cache a !! fsPath with
                      | Some _ => fileExists fsPath
                      | None => ret false
                      end in
          if hit then ret (cache a !! fsPath)
          else
            let* url := (fun s => (s, pathToURL a fsPath)) in
            let* data :=
              try_catch (on_fetcher (SyncFetch.fetch remote url))
                (fun error => throw (ErrnoError ENOENT (message_of error))) in
            let* _ := ensureParentDirectories fsPath in
            let* _ := on_hostfs (host_writeFile fsPath data) in
            let* stat := original_stat fsPath in
            let meta := {| meta_path := fsPath; meta_url := url;
                           meta_bytes := length data;
                           meta_timestamp := st_mtime stat |} in
            let* _ := modify (fun s => set_cache (<[fsPath := meta]> (cache s)) s) in
            ret (Some meta)
  end.

(** The three entry points installed by [hookFS]. *)
Definition materialise (normalized : option string) (wanted : bool) : M (t FS) unit :=
  match normalized with
  | Some p => if truthy p && wanted
              then let* _ := ensureFileSync p in ret tt
              else ret tt
  | None => ret tt
  end.

Definition patchedOpen (pathArg : PathArg Node) (flags : Flags) (mode : option Z)
  : M (t FS) Stream :=
  let mode := default 438%Z mode in
  let* a := get in
  let* _ := materialise (normalizePathArg a pathArg) (shouldFetchForOpen flags) in
  on_hostfs (host_open pathArg flags mode).

Definition patchedStat (pathArg : PathArg Node) (dontFollow : bool) : M (t FS) Stat :=
  let* a := get in
  let* _ := materialise (normalizePathArg a pathArg) true in
  fun s => (s, host_stat pathArg dontFollow (hostfs s)).

Definition patchedLstat : option (PathArg Node -> M (t FS) Stat) :=
  match host_lstat with
  | Some lstat =>
      Some (fun pathArg =>
              let* a := get in
              let* _ := materialise (normalizePathArg a pathArg) true in
              fun s => (s, lstat pathArg (hostfs s)))
  | None => None
  end.

End Adapter.

(** [registerPythonModule]: [ensure] is [ensureFileSync]; the two other
    functions given to the sandbox follow. *)
Section PythonModule.
Context {FS Node Stream : Type} `{!HostFS FS Node Stream}.

Record PyStat : Type := { py_path : string; py_size : Z; py_timestamp : Z }.

Definition py_stat (path : string) : M (t FS) (option PyStat) :=
  let* a := get in
  match normalizeToMount a path with
  | None => ret None
  | Some fsPath =>
      if negb (truthy fsPath) then ret None
      else
        let* present := fileExists fsPath in
        if negb present then ret None
        else
          let* stats := original_stat fsPath in
          ret (Some {| py_path := fsPath; py_size := st_size stats;
                       py_timestamp := st_mtime stats |})
  end.

Definition path_to_url (a : t FS) (path : string) : option string :=
  match normalizeToMount a path with
  | None => None
  | Some target =>
      if negb (truthy target) then None
      else match pathToURL a target with
           | Return url => Some url
           | Throw _ => None
           end
  end.

End PythonModule.

End Intercept.

(** ** Strategy (a): the virtual node tree with automatic fetch *)

Module NodeTree.

Definition S_IFREG : Z := 32768.   (* 0o100000 *)
Definition S_IFDIR : Z := 16384.   (* 0o040000 *)
Definition ENOENT : Z := 44.
Definition EINVAL : Z := 22.

(** The fields of an Emscripten node the adapter reads or sets;
    [remote_path] is [None] while the property is undefined. *)
Record Node : Type := {
  node_name : string;
  node_mode : Z;
  remote_path : option string;
}.

Record Stream : Type := { stream_node : Node; stream_position : Z }.

Record Attr : Type := {
  attr_dev : Z; attr_ino : Z; attr_mode : Z; attr_nlink : Z;
  attr_uid : Z; attr_gid : Z; attr_rdev : Z; attr_size : Z;
  attr_atime : Z; attr_mtime : Z; attr_ctime : Z;
  attr_blksize : Z; attr_blocks : Z;
}.

(** [NetworkFileSystem] of the node-tree strategy: the cache holds bytes. *)
Record t : Type := {
  scheme : string;
  mountPoint : string;
  cache : gmap string bytes;
  fetcher : SyncFetch.t;
}.

Definition new (mountPoint scheme : string) : t :=
  {| scheme := scheme; mountPoint := mountPoint; cache := ∅;
     fetcher := SyncFetch.new |}.

Definition set_cache (c : gmap string bytes) (a : t) : t :=
  {| scheme := scheme a; mountPoint := mountPoint a; cache := c;
     fetcher := fetcher a |}.
Definition set_fetcher (w : SyncFetch.t) (a : t) : t :=
  {| scheme := scheme a; mountPoint := mountPoint a; cache := cache a;
     fetcher := w |}.
Definition on_fetcher {A} (m : M SyncFetch.t A) : M t A :=
  fun a => let (w', r) := m (fetcher a) in (set_fetcher w' a, r).

Definition isDir (mode : Z) : bool := (Z.land mode S_IFDIR =? S_IFDIR)%Z.

Definition pathToURL (a : t) (remotePath : string) : string :=
  scheme a +:+ "://" +:+ remotePath.

(** [FS.createNode(parent, name, mode, 0)] followed by the assignment of
    [remote_path]. *)
Definition createNode (name : string) (mode : Z) (remotePath : string) : Node :=
  {| node_name := name; node_mode := mode; remote_path := Some remotePath |}.

(** [node_ops.getattr]; [now] is the reading of the clock. *)
Definition getattr (now : Z) (a : t) (node : Node) : Attr :=
  let size :=
    if isDir (node_mode node) then 4096%Z
    else match remote_path node with
         | Some remotePath =>
             if negb (truthy remotePath) then 0%Z
             else match cache a !! remotePath with
                  | Some data => Z.of_nat (length data)
                  | None => 0%Z
                  end
         | None => 0%Z
         end in
  {| attr_dev := 1; attr_ino := 0; attr_mode := node_mode node; attr_nlink := 1;
     attr_uid := 0; attr_gid := 0; attr_rdev := 0; attr_size := size;
     attr_atime := now; attr_mtime := now; attr_ctime := now;
     attr_blksize := 4096; attr_blocks := (size + 4095) / 4096 |}.

(** The remote path [lookup] builds from the parent's path and the name. *)
Definition child_path (parent : option Node) (name : string) : string :=
  match parent with
  | Some p =>
      match remote_path p with
      | Some rp => if truthy rp then rp +:+ "/" +:+ name else name
      | None => name
      end
  | None => name
  end.

Section Ops.
Variable remote : SyncFetch.Remote.

(** [node_ops.lookup] *)
Definition lookup (parent : option Node) (name : string) : M t Node :=
  let remotePath := child_path parent name in
  let* a := get in
  let* _ :=
    match cache a !! remotePath with
    | Some _ => ret tt
    | None =>
        let url := pathToURL a remotePath in
        try_catch
          (let* data := on_fetcher (SyncFetch.fetch remote url) in
           modify (fun s => set_cache (<[remotePath := data]> (cache s)) s))
          (fun _ => throw (ErrnoError ENOENT (Some ("No such file: " +:+ remotePath))))
    end in
  ret (createNode name (Z.lor S_IFREG 292) remotePath).   (* 0o444 *)

End Ops.


(** [Uint8Array.prototype.slice(start, end)] on integer arguments. *)
Definition js_slice (b : bytes) (start end_ : Z) : bytes :=
  let len := Z.of_nat (length b) in
  let k := if (start <? 0)%Z then Z.max (len + start) 0 else Z.min start len in
  let final := if (end_ <? 0)%Z then Z.max (len + end_) 0 else Z.min end_ len in
  let count := Z.max (final - k) 0 in
  take (Z.to_nat count) (drop (Z.to_nat k) b).

(** [buffer.set(source, offset)] *)
Definition buffer_set (buffer source : bytes) (offset : Z) : result bytes :=
  if ((offset <? 0) || (Z.of_nat (length buffer) <? offset + Z.of_nat (length source)))%Z
  then Throw (Error "RangeError" "offset is out of bounds")
  else Return (take (Z.to_nat offset) buffer ++ source
               ++ drop (Z.to_nat offset + length source) buffer)%list.

(** [stream_ops.read]: the new contents of [buffer] and the returned count. *)
Definition read (a : t) (stream : Stream) (buffer : bytes)
    (offset length_ position : Z) : result (bytes * Z) :=
  match remote_path (stream_node stream) with
  | None => Return (buffer, 0%Z)
  | Some remotePath =>
      match cache a !! remotePath with
      | None => Return (buffer, 0%Z)
      | Some data =>
          let start := position in
          let end_ := Z.min (Z.of_nat (length data)) (position + length_) in
          match buffer_set buffer (js_slice data start end_) offset with
          | Return buffer' => Return (buffer', (end_ - start)%Z)
          | Throw e => Throw e
          end
      end
  end.

(** [stream_ops.llseek]: the repositioned stream and the returned position. *)
Definition llseek (a : t) (stream : Stream) (offset whence : Z) : result (Stream * Z) :=
  let size :=
    match remote_path (stream_node stream) with
    | Some remotePath =>
        match cache a !! remotePath with
        | Some data => Z.of_nat (length data)
        | None => 0%Z
        end
    | None => 0%Z
    end in
  let pos :=
    if (whence =? 0)%Z then offset
    else if (whence =? 1)%Z then (stream_position stream + offset)%Z
    else if (whence =? 2)%Z then (size + offset)%Z
    else stream_position stream in
  if (pos <? 0)%Z then Throw (ErrnoError EINVAL None)
  else Return ({| stream_node := stream_node stream; stream_position := pos |}, pos).

(** [s.split("/")[0]] *)
Fixpoint first_segment (s : string) : string :=
  match s with
  | EmptyString => EmptyString
  | String c s' => if Ascii.eqb c "/" then EmptyString else String c (first_segment s')
  end.

(** What one cached path contributes to the listing of [dirPath]. *)
Definition child_of (dirPath cachedPath : string) : option string :=
  if String.eqb dirPath "" then Some (first_segment cachedPath)
  else if startsWith cachedPath (dirPath +:+ "/")
       then Some (first_segment (slice (String.length dirPath + 1) cachedPath))
       else None.

(** [node_ops.readdir].  The children are listed without repetition; in
    JavaScript their order is the order in which the cache was filled,
    here it is the order of the keys of the map. *)
Definition readdir (a : t) (node : Node) : list string :=
  let dirPath := default "" (remote_path node) in
  "." :: ".." :: remove_dups (omap (child_of dirPath) (map_to_list (cache a)).*1).

(** [preloadFile] *)
Definition preloadFile (remote : SyncFetch.Remote) (remotePath : string) : M t bytes :=
  let* a := get in
  let url := pathToURL a remotePath in
  let* data := on_fetcher (SyncFetch.fetch remote url) in
  let* _ := modify (fun s => set_cache (<[remotePath := data]> (cache s)) s) in
  ret data.

(** [registerPythonModule]: the two functions given to the sandbox. *)
Definition path_to_url (a : t) (remotePath : string) : option string :=
  Some (pathToURL a remotePath).

Definition is_cached (a : t) (remotePath : string) : bool :=
  bool_decide (is_Some (cache a !! remotePath)).

End NodeTree.

(** ** Strategy (a) restricted to a registry of known resources *)

Module Registry.
Import NodeTree.

(** What reading a property of an object literal yields. *)
Inductive PropValue : Type :=
| Undefined
| Str (s : string)
| InheritedFunction (key : string)
| InheritedObject.

(** The properties every object literal inherits from [Object.prototype]:
    methods, and the accessor [__proto__] that yields the prototype. *)
Definition Object_prototype_methods : list string :=
  ["constructor"; "hasOwnProperty"; "isPrototypeOf"; "propertyIsEnumerable";
   "toLocaleString"; "toString"; "valueOf"; "__defineGetter__";
   "__defineSetter__"; "__lookupGetter__"; "__lookupSetter__"].

(** [obj[key]] for an object literal whose own properties are [own]. *)
Definition get_property (own : gmap string string) (key : string) : PropValue :=
  match own !! key with
  | Some v => Str v
  | None =>
      if bool_decide (key ∈ Object_prototype_methods) then InheritedFunction key
      else if String.eqb key "__proto__" then InheritedObject
      else Undefined
  end.

Definition KNOWN_RESOURCES : gmap string string :=
  {[ "current-ip" := "https://icanhazip.com/" ]}.

(** [parent.remote_path + "/" + name] *)
Definition child_path (parent : Node) (name : string) : string :=
  default "undefined" (remote_path parent) +:+ "/" +:+ name.

Section Ops.
Variable remote : SyncFetch.Remote.
(** The registry is a constant of the module; it is a parameter here so
    that the scenario of the specification can name it. *)
Variable known : gmap string string.

Definition fetch_value (url : PropValue) : M SyncFetch.t bytes :=
  match url with
  | Str u => SyncFetch.fetch remote u
  | InheritedFunction _ => SyncFetch.fetch_non_string true
  | InheritedObject => SyncFetch.fetch_non_string false
  | Undefined => SyncFetch.fetch_non_string false
  end.

Definition falsy (v : PropValue) : bool :=
  match v with
  | Undefined => true
  | Str u => negb (truthy u)
  | _ => false
  end.

(** [node_ops.lookup] of the restricted adapter *)
Definition lookup (parent : Node) (name : string) : M t Node :=
  let remotePath := child_path parent name in
  let no_such_file := ErrnoError ENOENT (Some ("No such file: " +:+ remotePath)) in
  let* a := get in
  let* _ :=
    match cache a !! remotePath with
    | Some _ => ret tt
    | None =>
        let url := get_property known name in
        if falsy url then throw no_such_file
        else
          try_catch
            (let* data := on_fetcher (fetch_value url) in
             modify (fun s => set_cache (<[remotePath := data]> (cache s)) s))
            (fun _ => throw no_such_file)
    end in
  ret (createNode name (Z.lor S_IFREG 292) remotePath).

End Ops.

(** The root node made by [createFS().mount]. *)
Definition root : Node :=
  {| node_name := "/"; node_mode := Z.lor S_IFDIR 365; remote_path := Some "" |}.

End Registry.

(** ** [AgentState]: the execution state container, as a value *)

Module State.

(** The result object of [executePythonCode]. *)
Record ExecResult : Type := {
  res_stdout : string;
  res_stderr : string;
  res_success : bool;
}.

(** Content blocks of the conversation.  A tool result carries the JSON text
    of an [ExecResult], kept structured; [None] stands for [undefined]. *)
Inductive Block : Type :=
| Text (text : string)
| ToolUse (id name code : string)
| ToolResult (tool_use_id : string) (content : option ExecResult).

Inductive Content : Type :=
| CText (text : string)
| CBlocks (blocks : list Block).

Record Message : Type := { role : string; content : Content }.

Record OutputCapture : Type := { stdout : string; stderr : string }.

Record Metadata : Type := {
  taskId : option string;      (* [None] is [null] *)
  createdAt : Z;
  lastModified : Z;
}.

Record AgentState : Type := {
  messages : list Message;
  stepCount : nat;
  outputCapture : OutputCapture;
  networkCache : gmap string string;
  outputFiles : gmap string string;
  done : bool;
  metadata : Metadata;
}.

(** A plain record as handed to the constructor or parsed from a snapshot:
    any property may be missing. *)
Record Data : Type := {
  d_messages : option (list Message);
  d_stepCount : option nat;
  d_outputCapture : option OutputCapture;
  d_networkCache : option (gmap string string);
  d_outputFiles : option (gmap string string);
  d_done : option bool;
  d_metadata : option Metadata;
}.

Definition no_data : Data :=
  {| d_messages := None; d_stepCount := None; d_outputCapture := None;
     d_networkCache := None; d_outputFiles := None; d_done := None;
     d_metadata := None |}.

(** [x || d]: arrays and objects are truthy; [0] and [false] are not. *)
Definition or_object {A} (x : option A) (d : A) : A := default d x.
Definition or_number (x : option nat) (d : nat) : nat :=
  match x with
  | Some n => if Nat.eqb n 0 then d else n
  | None => d
  end.
Definition or_boolean (x : option bool) (d : bool) : bool :=
  match x with
  | Some b => if b then b else d
  | None => d
  end.

(** [new AgentState(data)]; [now] is the reading of [Date.now()]. *)
Definition constructor (now : Z) (data : Data) : AgentState :=
  {| messages := or_object (d_messages data) [];
     stepCount := or_number (d_stepCount data) 0;
     outputCapture := or_object (d_outputCapture data) {| stdout := ""; stderr := "" |};
     networkCache := or_object (d_networkCache data) ∅;
     outputFiles := or_object (d_outputFiles data) ∅;
     done := or_boolean (d_done data) false;
     metadata := or_object (d_metadata data)
                   {| taskId := None; createdAt := now; lastModified := now |} |}.

Definition serialize (now : Z) (s : AgentState) : Data :=
  {| d_messages := Some (messages s);
     d_stepCount := Some (stepCount s);
     d_outputCapture := Some (outputCapture s);
     d_networkCache := Some (networkCache s);
     d_outputFiles := Some (outputFiles s);
     d_done := Some (done s);
     d_metadata := Some {| taskId := taskId (metadata s);
                           createdAt := createdAt (metadata s);
                           lastModified := now |} |}.

Definition deserialize (now : Z) (data : Data) : AgentState := constructor now data.

(** [clone()] read as a value: the copies hold what the originals hold. *)
Definition clone (now : Z) (s : AgentState) : AgentState :=
  constructor now
    {| d_messages := Some (messages s);
       d_stepCount := Some (stepCount s);
       d_outputCapture := Some (outputCapture s);
       d_networkCache := Some (networkCache s);
       d_outputFiles := Some (outputFiles s);
       d_done := Some (done s);
       d_metadata := Some (metadata s) |}.

Definition set_messages (m : list Message) (s : AgentState) : AgentState :=
  {| messages := m; stepCount := stepCount s; outputCapture := outputCapture s;
     networkCache := networkCache s; outputFiles := outputFiles s;
     done := done s; metadata := metadata s |}.
Definition set_stepCount (n : nat) (s : AgentState) : AgentState :=
  {| messages := messages s; stepCount := n; outputCapture := outputCapture s;
     networkCache := networkCache s; outputFiles := outputFiles s;
     done := done s; metadata := metadata s |}.
Definition set_outputCapture (c : OutputCapture) (s : AgentState) : AgentState :=
  {| messages := messages s; stepCount := stepCount s; outputCapture := c;
     networkCache := networkCache s; outputFiles := outputFiles s;
     done := done s; metadata := metadata s |}.
Definition set_networkCache (c : gmap string string) (s : AgentState) : AgentState :=
  {| messages := messages s; stepCount := stepCount s; outputCapture := outputCapture s;
     networkCache := c; outputFiles := outputFiles s;
     done := done s; metadata := metadata s |}.
Definition set_outputFiles (f : gmap string string) (s : AgentState) : AgentState :=
  {| messages := messages s; stepCount := stepCount s; outputCapture := outputCapture s;
     networkCache := networkCache s; outputFiles := f;
     done := done s; metadata := metadata s |}.
Definition set_done (b : bool) (s : AgentState) : AgentState :=
  {| messages := messages s; stepCount := stepCount s; outputCapture := outputCapture s;
     networkCache := networkCache s; outputFiles := outputFiles s;
     done := b; metadata := metadata s |}.
Definition set_taskId (t : option string) (s : AgentState) : AgentState :=
  {| messages := messages s; stepCount := stepCount s; outputCapture := outputCapture s;
     networkCache := networkCache s; outputFiles := outputFiles s;
     done := done s;
     metadata := {| taskId := t; createdAt := createdAt (metadata s);
                    lastModified := lastModified (metadata s) |} |}.

End State.

(** ** [AgentState] on the heap: objects, references and [clone()] *)

Module Heap.

Definition loc : Type := positive.

(** The objects an [AgentState] is made of.  Arrays hold references to
    their elements; strings, numbers and booleans are held by value. *)
Inductive obj : Type :=
| OMessage (role : string) (content : State.Content)
| OArray (elems : list loc)
| OCapture (stdout stderr : string)
| ODict (entries : gmap string string)
| OMeta (taskId : option string) (createdAt lastModified : Z)
| OState (messages : loc) (stepCount : nat)
         (outputCapture networkCache outputFiles : loc)
         (done : bool) (metadata : loc).

Definition alloc (h : gmap loc obj) (o : obj) : gmap loc obj * loc :=
  let l := fresh (dom h) in (<[l := o]> h, l).

(** The references an object holds. *)
Definition refs (o : obj) : list loc :=
  match o with
  | OArray elems => elems
  | OState m _ oc nc ofs _ md => [m; oc; nc; ofs; md]
  | _ => []
  end.

(** [reach h l l']: [l'] can be reached from [l] by following references. *)
Inductive reach (h : gmap loc obj) : loc -> loc -> Prop :=
| reach_here l : reach h l l
| reach_step l o l1 l2 :
    h !! l = Some o -> l1 ∈ refs o -> reach h l1 l2 -> reach h l l2.

(** [this.clone()]: a fresh array over the same elements, fresh copies of
    the four plain objects, and a fresh [AgentState] holding them
    ([stepCount || 0] and [done || false] leave the values as they are). *)
Definition clone (h : gmap loc obj) (this : loc) : option (gmap loc obj * loc) :=
  match h !! this with
  | Some (OState m sc oc nc ofs d md) =>
      match h !! m, h !! oc, h !! nc, h !! ofs, h !! md with
      | Some (OArray elems), Some (OCapture so se), Some (ODict nce),
        Some (ODict ofe), Some (OMeta t c lm) =>
          let (h1, m') := alloc h (OArray elems) in
          let (h2, oc') := alloc h1 (OCapture so se) in
          let (h3, nc') := alloc h2 (ODict nce) in
          let (h4, ofs') := alloc h3 (ODict ofe) in
          let (h5, md') := alloc h4 (OMeta t c lm) in
          Some (alloc h5 (OState m' (State.or_number (Some sc) 0) oc' nc' ofs'
                            (State.or_boolean (Some d) false) md'))
      | _, _, _, _, _ => None
      end
  | _ => None
  end.

(** The containers a state object owns directly. *)
Definition containers (h : gmap loc obj) (this : loc) : list loc :=
  match h !! this with
  | Some o => this :: refs o
  | None => []
  end.

(** An assignment through a reference: the object at [l] is replaced. *)
Definition assign (h : gmap loc obj) (l : loc) (o : obj) : gmap loc obj :=
  <[l := o]> h.

(** A heap on which a clone shares a message with its original. *)
Definition heap_one_message : gmap loc obj :=
  {[ 1%positive := OMessage "user" (State.CText "hello");
     2%positive := OArray [1%positive];
     3%positive := OCapture "" "";
     4%positive := ODict ∅;
     5%positive := ODict ∅;
     6%positive := OMeta None 0 0;
     7%positive := OState 2%positive 0 3%positive 4%positive 5%positive false 6%positive ]}.

End Heap.

(** ** [StateCache] and [agenticLoop]: the durable step loop *)

Module Loop.
Import State.

(** A file of the cache directory: the JSON text of a record, or text that
    [JSON.parse] or the constructor rejects. *)
Inductive FileContent : Type :=
| Json (data : Data)
| Garbled.

Record Options : Type := {
  maxSteps : nat;
  useCache : bool;
  clearCacheOnStart : bool;
}.

Definition default_options : Options :=
  {| maxSteps := 10; useCache := true; clearCacheOnStart := false |}.

Inductive StopReason : Type := end_turn | tool_use | other_stop.

Record Response : Type := {
  stop_reason : StopReason;
  response_content : list Block;
}.

(** What one run of sandboxed code does: the text its output handlers
    receive and the message of the exception it ends with, if any. *)
Record PyOutcome : Type := {
  py_stdout : string;
  py_stderr : string;
  py_raised : option string;
}.

(** The live subsystems: [networkFS.cache] and the files of [/output]. *)
Record Live : Type := {
  fs_cache : gmap string bytes;
  output_dir : gmap string bytes;
}.

(** The collaborators outside the repository, over their own state [Env]:
    the clock, the reasoning collaborator, the sandbox, and the base64
    codec of [Buffer]. *)
Class Collaborators (Env : Type) : Type := {
  clock : Env -> Z;
  create_message : list Message -> Env -> Env * result Response;
  run_python : string -> Env -> Live -> Env * Live * PyOutcome;
  base64_encode : bytes -> string;
  base64_decode : string -> bytes;
}.

(** [StateCache].  [cacheDir] is [path.join(__dirname, "agent-cache")];
    paths are written relative to [__dirname]. *)
Definition cacheDir : string := "agent-cache".

Definition getCachePath (taskId : string) (stepCount : nat) : string :=
  Path.join cacheDir (taskId +:+ "-step-" +:+ pretty stepCount +:+ ".json").

(** The disk holds the files by path.  [saveState] runs [ensureCacheDir]
    and writes the file; the write is modelled as succeeding, which
    [writeFileSync] does when the directory of the path exists: always for
    a task id without a slash, whose file lies in the cache directory
    itself. *)
Definition saveState (now : Z) (taskId : string) (stepCount : nat)
    (state : AgentState) (disk : gmap string FileContent) : gmap string FileContent :=
  <[getCachePath taskId stepCount := Json (serialize now state)]> disk.

Definition loadState (now : Z) (taskId : string) (stepCount : nat)
    (disk : gmap string FileContent) : option AgentState :=
  match disk !! getCachePath taskId stepCount with
  | None => None
  | Some Garbled => None
  | Some (Json data) => Some (deserialize now data)
  end.

Definition clearCache (taskId : string) (disk : gmap string FileContent)
  : gmap string FileContent :=
  filter (fun kv => startsWith kv.1 (cacheDir +:+ "/" +:+ taskId +:+ "-") = false) disk.

(** Everything a run of [agenticLoop] reads and writes.  [captureRef] is
    the object [outputCaptureRef] points to once it is no longer the
    [outputCapture] of the current state ([None]: it still is); [invoked]
    lists the step numbers at which the reasoning collaborator was called
    (instrumentation, never read). *)
Record Run (Env : Type) : Type := {
  disk : gmap string FileContent;
  env : Env;
  live : Live;
  state : AgentState;
  captureRef : option OutputCapture;
  invoked : list nat;
}.
Arguments disk {Env} _.
Arguments env {Env} _.
Arguments live {Env} _.
Arguments state {Env} _.
Arguments captureRef {Env} _.
Arguments invoked {Env} _.

Inductive Step : Type :=
| Continue
| Break
| Raised (e : JsError).

Inductive Outcome : Type :=
| Finished
| Thrown (e : JsError)
| OutOfFuel.

Section WithCollaborators.
Context {Env : Type} `{!Collaborators Env}.

Definition set_disk (d : gmap string FileContent) (r : Run Env) : Run Env :=
  {| disk := d; env := env r; live := live r; state := state r;
     captureRef := captureRef r; invoked := invoked r |}.
Definition set_env (e : Env) (r : Run Env) : Run Env :=
  {| disk := disk r; env := e; live := live r; state := state r;
     captureRef := captureRef r; invoked := invoked r |}.
Definition set_live (l : Live) (r : Run Env) : Run Env :=
  {| disk := disk r; env := env r; live := l; state := state r;
     captureRef := captureRef r; invoked := invoked r |}.
Definition set_state (s : AgentState) (r : Run Env) : Run Env :=
  {| disk := disk r; env := env r; live := live r; state := s;
     captureRef := captureRef r; invoked := invoked r |}.
Definition set_captureRef (c : option OutputCapture) (r : Run Env) : Run Env :=
  {| disk := disk r; env := env r; live := live r; state := state r;
     captureRef := c; invoked := invoked r |}.
Definition set_invoked (l : list nat) (r : Run Env) : Run Env :=
  {| disk := disk r; env := env r; live := live r; state := state r;
     captureRef := captureRef r; invoked := l |}.

(** [captureNetworkCache], [restoreNetworkCache], [captureOutputFiles],
    [restoreOutputFiles] *)
Definition captureNetworkCache (r : Run Env) : Run Env :=
  set_state (set_networkCache (base64_encode <$> fs_cache (live r)) (state r)) r.

Definition restoreNetworkCache (r : Run Env) : Run Env :=
  set_live {| fs_cache := base64_decode <$> networkCache (state r);
              output_dir := output_dir (live r) |} r.

Definition captureOutputFiles (r : Run Env) : Run Env :=
  set_state (set_outputFiles (base64_encode <$> output_dir (live r)) (state r)) r.

Definition restoreOutputFiles (r : Run Env) : Run Env :=
  set_live {| fs_cache := fs_cache (live r);
              output_dir := (base64_decode <$> outputFiles (state r))
                              ∪ output_dir (live r) |} r.

(** The handlers given to [loadPyodide] append to [outputCaptureRef]. *)
Definition handlers (out err : string) (r : Run Env) : Run Env :=
  let add c := {| stdout := stdout c +:+ out; stderr := stderr c +:+ err |} in
  match captureRef r with
  | Some c => set_captureRef (Some (add c)) r
  | None => set_state (set_outputCapture (add (outputCapture (state r))) (state r)) r
  end.

Definition executePythonCode (code : string) (r : Run Env) : Run Env * ExecResult :=
  let '(e', l', outcome) := run_python code (env r) (live r) in
  let r1 := handlers (py_stdout outcome) (py_stderr outcome) (set_live l' (set_env e' r)) in
  let c := outputCapture (state r1) in
  let result :=
    match py_raised outcome with
    | None => {| res_stdout := stdout c; res_stderr := stderr c; res_success := true |}
    | Some message =>
        {| res_stdout := stdout c; res_stderr := stderr c +:+ message;
           res_success := false |}
    end in
  (set_state (set_outputCapture {| stdout := ""; stderr := "" |} (state r1)) r1, result).

(** The loop over [response.content] that collects [toolResults]. *)
Fixpoint run_tools (blocks : list Block) (r : Run Env) : Run Env * list Block :=
  match blocks with
  | [] => (r, [])
  | ToolUse id name code :: rest =>
      let '(r1, result) :=
        if String.eqb name "execute_python"
        then let (r', res) := executePythonCode code r in (r', Some res)
        else (r, None) in
      let (r2, results) := run_tools rest r1 in
      (r2, ToolResult id result :: results)
  | _ :: rest => run_tools rest r
  end.

(** [runAgenticStep]: the returned boolean is [result.done]. *)
Definition runAgenticStep (r : Run Env) : Run Env * result bool :=
  let r := set_state (set_stepCount (S (stepCount (state r))) (state r)) r in
  let r := set_invoked (invoked r ++ [stepCount (state r)])%list r in
  match create_message (messages (state r)) (env r) with
  | (e', Throw error) => (set_env e' r, Throw error)
  | (e', Return response) =>
      let r := set_env e' r in
      let push m x := set_state (set_messages (messages (state x) ++ [m])%list (state x)) x in
      let r := push {| role := "assistant";
                       content := CBlocks (response_content response) |} r in
      match stop_reason response with
      | end_turn => (set_state (set_done true (state r)) r, Return true)
      | tool_use =>
          let (r, toolResults) := run_tools (response_content response) r in
          let r := push {| role := "user"; content := CBlocks toolResults |} r in
          (captureOutputFiles (captureNetworkCache r), Return false)
      | other_stop => (captureOutputFiles (captureNetworkCache r), Return false)
      end
  end.

(** The body of the [while] loop, entered with [state.stepCount < maxSteps]. *)
Definition iteration (taskId : string) (options : Options) (r : Run Env)
  : Run Env * Step :=
  let nextStepCount := stepCount (state r) + 1 in
  let cachedState :=
    if useCache options
    then loadState (clock (env r)) taskId nextStepCount (disk r)
    else None in
  match cachedState with
  | Some cached =>
      let r := set_captureRef
                 (Some (default (outputCapture (state r)) (captureRef r))) r in
      let r := restoreOutputFiles (restoreNetworkCache (set_state cached r)) in
      (r, if done (state r) then Break else Continue)
  | None =>
      match runAgenticStep r with
      | (r, Throw error) => (r, Raised error)
      | (r, Return result_done) =>
          let r :=
            if useCache options
            then set_disk (saveState (clock (env r)) taskId (stepCount (state r))
                             (state r) (disk r)) r
            else r in
          (r, if result_done then Break else Continue)
      end
  end.

(** The [while] loop; [fuel] bounds the number of iterations. *)
Fixpoint loop (fuel : nat) (taskId : string) (options : Options) (r : Run Env)
  : Run Env * Outcome :=
  if Nat.ltb (stepCount (state r)) (maxSteps options) then
    match fuel with
    | O => (r, OutOfFuel)
    | S fuel' =>
        match iteration taskId options r with
        | (r', Continue) => loop fuel' taskId options r'
        | (r', Break) => (r', Finished)
        | (r', Raised e) => (r', Thrown e)
        end
    end
  else (r, Finished).

(** The first [n] iterations of the loop: where a run stands when the
    process is killed after them. *)
Fixpoint iterations (n : nat) (taskId : string) (options : Options) (r : Run Env)
  : Run Env :=
  match n with
  | O => r
  | S n' =>
      if Nat.ltb (stepCount (state r)) (maxSteps options) then
        match iteration taskId options r with
        | (r', Continue) => iterations n' taskId options r'
        | (r', _) => r'
        end
      else r
  end.

(** [agenticLoop] up to the loop: the cache is cleared on request, the
    initial state is cloned and given the task id, and the fresh live
    subsystems receive what the state holds. *)
Definition start (taskId : string) (initialState : AgentState) (options : Options)
    (disk0 : gmap string FileContent) (env0 : Env) : Run Env :=
  let d := if clearCacheOnStart options then clearCache taskId disk0 else disk0 in
  let s := set_taskId (Some taskId) (clone (clock env0) initialState) in
  restoreOutputFiles (restoreNetworkCache
    {| disk := d; env := env0; live := {| fs_cache := ∅; output_dir := ∅ |};
       state := s; captureRef := None; invoked := [] |}).

Definition agenticLoop (fuel : nat) (taskId : string) (initialState : AgentState)
    (options : Options) (disk0 : gmap string FileContent) (env0 : Env)
  : Run Env * Outcome :=
  loop fuel taskId options (start taskId initialState options disk0 env0).

End WithCollaborators.

End Loop.

(** ** Concrete collaborators used in the examples *)

Module MemFS.

(** A small host filesystem: files by path and a set of directories.
    Nodes and streams are named by their path. *)
Record t : Type := { files : gmap string bytes; dirs : gset string }.

Definition stat_path (p : string) (fs : t) : result Stat :=
  match files fs !! p with
  | Some data => Return {| st_size := Z.of_nat (length data); st_mtime := 0 |}
  | None =>
      if bool_decide (p ∈ dirs fs) then Return {| st_size := 4096; st_mtime := 0 |}
      else Throw (ErrnoError 44 None)
  end.

Definition path_of (pathArg : PathArg string) : option string :=
  match pathArg with
  | PStr p => Some p
  | PNode n => Some n
  | POther => None
  end.

Definition stat (pathArg : PathArg string) (_ : bool) (fs : t) : result Stat :=
  match path_of pathArg with
  | Some p => stat_path p fs
  | None => Throw (Error "TypeError" "path must be a string")
  end.

Definition open (pathArg : PathArg string) (_ : Flags) (_ : Z) : M t string :=
  fun fs =>
    match path_of pathArg with
    | Some p =>
        match stat_path p fs with
        | Return _ => (fs, Return p)
        | Throw e => (fs, Throw e)
        end
    | None => (fs, Throw (Error "TypeError" "path must be a string"))
    end.

Definition mkdirTree (d : string) : M t unit :=
  fun fs => ({| files := files fs; dirs := {[d]} ∪ dirs fs |}, Return tt).

Definition writeFile (p : string) (data : bytes) : M t unit :=
  fun fs => ({| files := <[p := data]> (files fs); dirs := dirs fs |}, Return tt).

#[global] Instance host : HostFS t string string :=
  {| ENOENT := 44;
     host_open := open;
     host_stat := stat;
     host_lstat := Some (fun pathArg => stat pathArg true);
     host_mkdirTree := mkdirTree;
     host_writeFile := writeFile;
     host_getPath := fun n => n |}.

(** A host with one ordinary file outside the mount. *)
Definition with_tmp_file : t :=
  {| files := {[ "/tmp/data.txt" := ["h"; "i"]%byte ]};
     dirs := {[ "/"; "/tmp"; "/network" ]} |}.

(** A host whose [open] empties the file when the flags ask for it, as
    Emscripten's does for the mode [w] and the flag [O_TRUNC] (0o1000). *)
Definition truncates (flags : Flags) : bool :=
  match flags with
  | FStr s => includes s "w"
  | FNum n => negb (Z.land n 512 =? 0)%Z
  end.

Definition open_truncating (pathArg : PathArg string) (flags : Flags) (_ : Z)
  : M t string :=
  fun fs =>
    match path_of pathArg with
    | Some p =>
        match stat_path p fs with
        | Return _ =>
            (match files fs !! p with
             | Some _ => if truncates flags
                         then {| files := <[p := []]> (files fs); dirs := dirs fs |}
                         else fs
             | None => fs
             end, Return p)
        | Throw e => (fs, Throw e)
        end
    | None => (fs, Throw (Error "TypeError" "path must be a string"))
    end.

Definition host_truncating : HostFS t string string :=
  {| ENOENT := 44;
     host_open := open_truncating;
     host_stat := stat;
     host_lstat := Some (fun pathArg => stat pathArg true);
     host_mkdirTree := mkdirTree;
     host_writeFile := writeFile;
     host_getPath := fun n => n |}.

End MemFS.

Module Examples.

(** A network on which every request fails with a 404. *)
Definition remote_down : SyncFetch.Remote :=
  fun _ _ => Some (SyncFetch.StatusError
                     (Some {| SyncFetch.err_message := "HTTP 404 Not Found";
                              SyncFetch.err_name := Some "Error" |})).

(** A network on which every request is answered with the same bytes. *)
Definition remote_up : SyncFetch.Remote :=
  fun _ _ => Some (SyncFetch.StatusOk ["1"; "."; "2"; "."; "3"; "."; "4"]%byte).

(** The interception adapter as constructed by default, over [MemFS]. *)
Definition intercept0 (fs : MemFS.t) : Intercept.t MemFS.t :=
  {| Intercept.scheme := "https"; Intercept.mountPoint := "/network";
     Intercept.cache := ∅; Intercept.fetcher := SyncFetch.new;
     Intercept.hostfs := fs |}.

(** The node-tree adapter as constructed by default. *)
Definition tree0 : NodeTree.t := NodeTree.new "/network" "https".

(** A node-tree adapter holding three bytes for the path [f]. *)
Definition tree_f : NodeTree.t :=
  NodeTree.set_cache {[ "f" := ["a"; "b"; "c"]%byte ]} tree0.

Definition node_f : NodeTree.Node := NodeTree.createNode "f" 33060 "f".

(** Collaborators for the loop: the environment counts their calls, the
    reasoning collaborator always asks for one tool call and the sandbox
    prints one line. *)
#[global] Instance always_tool_use : Loop.Collaborators nat :=
  {| Loop.clock := Z.of_nat;
     Loop.create_message := fun _ e =>
       (S e, Return {| Loop.stop_reason := Loop.tool_use;
                       Loop.response_content :=
                         [State.ToolUse "toolu_1" "execute_python" "print(1)"] |});
     Loop.run_python := fun _ e l =>
       (S e, l, {| Loop.py_stdout := "1"; Loop.py_stderr := "";
                   Loop.py_raised := None |});
     Loop.base64_encode := string_of_list_byte;
     Loop.base64_decode := list_byte_of_string |}.

(** An interception adapter that has materialised [/network/x]. *)
Definition intercept_cached : Intercept.t MemFS.t :=
  Intercept.set_cache
    {[ "/network/x" := {| Intercept.meta_path := "/network/x";
                          Intercept.meta_url := "https://x";
                          Intercept.meta_bytes := 2;
                          Intercept.meta_timestamp := 0 |} ]}
    (intercept0 {| MemFS.files := {[ "/network/x" := ["h"; "i"]%byte ]};
                   MemFS.dirs := {[ "/"; "/network" ]} |}).

Definition initial_state : State.AgentState :=
  State.constructor 0
    {| State.d_messages :=
         Some [ {| State.role := "user";
                   State.content := State.CText "Figure out the current ip address" |} ];
       State.d_stepCount := Some 0;
       State.d_outputCapture := None; State.d_networkCache := None;
       State.d_outputFiles := None; State.d_done := None;
       State.d_metadata := None |}.

End Examples.

(** ** Notions used to state the properties *)

(** The part of a path that follows [<mountPoint>/]. *)
Definition suffix {FS : Type} (a : Intercept.t FS) (fsPath : string) : string :=
  slice (String.length (Intercept.mountPoint a +:+ "/")) fsPath.

(** The request the bridge would make next for [url] does not succeed:
    the worker answers with an error, or with no payload. *)
Definition fetch_fails (remote : SyncFetch.Remote) (w : SyncFetch.t) (url : string) : Prop :=
  forall data, remote (SyncFetch.nextJobId w) url <> Some (SyncFetch.StatusOk data).

(** [n] successive lookups of the same name in the node tree; a lookup
    that throws does not keep the caller from looking again. *)
Fixpoint lookups (remote : SyncFetch.Remote) (n : nat)
    (parent : option NodeTree.Node) (name : string) (a : NodeTree.t) : NodeTree.t :=
  match n with
  | O => a
  | S n' => lookups remote n' parent name (NodeTree.lookup remote parent name a).1
  end.

(** The accesses the sandbox makes through the patched entry points. *)
Inductive Access : Type :=
| ByOpen (flags : Flags) (mode : option Z)
| ByStat (dontFollow : bool)
| ByLstat.

Section Accesses.
Context {FS Node Stream : Type} `{!HostFS FS Node Stream}.
Variable remote : SyncFetch.Remote.

Definition access (pathArg : PathArg Node) (k : Access) (a : Intercept.t FS)
  : Intercept.t FS :=
  match k with
  | ByOpen flags mode => (Intercept.patchedOpen remote pathArg flags mode a).1
  | ByStat dontFollow => (Intercept.patchedStat remote pathArg dontFollow a).1
  | ByLstat =>
      match Intercept.patchedLstat remote with
      | Some lstat => (lstat pathArg a).1
      | None => a
      end
  end.

Definition accesses (pathArg : PathArg Node) (ks : list Access) (a : Intercept.t FS)
  : Intercept.t FS :=
  fold_left (fun s k => access pathArg k s) ks a.

(** The file at [p] exists for the host. *)
Definition exists_at (p : string) (fs : FS) : Prop :=
  exists st, host_stat (PStr p) false fs = Return st.

(** What holds of the adapter as long as the entry for [p] stands. *)
Definition hit_state (p : string) (a0 a : Intercept.t FS) : Prop :=
  Intercept.mountPoint a = Intercept.mountPoint a0 /\
  Intercept.cache a = Intercept.cache a0 /\
  Intercept.fetcher a = Intercept.fetcher a0 /\
  exists_at p (Intercept.hostfs a).

(** Two adapter states that differ at most in the host filesystem. *)
Definition only_hostfs (a a' : Intercept.t FS) : Prop :=
  Intercept.mountPoint a' = Intercept.mountPoint a /\
  Intercept.scheme a' = Intercept.scheme a /\
  Intercept.cache a' = Intercept.cache a /\
  Intercept.fetcher a' = Intercept.fetcher a.

End Accesses.

(** An access that leaves the content of files alone: [stat], [lstat], and
    an [open] with flags for which the host's [open] does ([keeps]). *)
Definition reading (keeps : Flags -> bool) (k : Access) : bool :=
  match k with
  | ByOpen flags _ => keeps flags
  | ByStat _ => true
  | ByLstat => true
  end.

(** The snapshots of a task on disk cover the steps after [c0] up to [k]:
    each of them loads as a state with that step count, only the last may
    be done, and no later step has a snapshot that loads. *)
Definition snapshots_upto (disk : gmap string Loop.FileContent) (taskId : string)
    (c0 k : nat) : Prop :=
  c0 <= k /\
  (forall now j, c0 < j <= k ->
     exists s, Loop.loadState now taskId j disk = Some s /\
               State.stepCount s = j /\
               (State.done s = true -> j = k)) /\
  (forall now j, k < j -> Loop.loadState now taskId j disk = None).

(** None of the snapshots after step [c0] that load is done. *)
Definition none_done (disk : gmap string Loop.FileContent) (taskId : string)
    (c0 : nat) : Prop :=
  forall now j s, c0 < j -> Loop.loadState now taskId j disk = Some s ->
                  State.done s = false.

(** Between two points of a run nothing was executed or persisted. *)
Definition same_progress {Env : Type} (r r' : Loop.Run Env) : Prop :=
  State.stepCount (Loop.state r') = State.stepCount (Loop.state r) /\
  State.done (Loop.state r') = State.done (Loop.state r) /\
  Loop.disk r' = Loop.disk r /\
  Loop.invoked r' = Loop.invoked r.

(** A sequence of bridge calls; a call that throws does not keep the
    caller from calling again. *)
Definition fetch_all (remote : SyncFetch.Remote) (urls : list string) (w : SyncFetch.t)
  : SyncFetch.t :=
  fold_left (fun s url => (SyncFetch.fetch remote url s).1) urls w.

(** Reading a file from [position] on in chunks of [chunk] bytes, the way a
    caller of [read] does: each call gets an empty buffer of [chunk] bytes,
    the bytes it returns are collected, and the position advances by the
    returned count until a call returns no byte. *)
Fixpoint read_chunks (fuel : nat) (a : NodeTree.t) (stream : NodeTree.Stream)
    (chunk : nat) (position : Z) : option bytes :=
  match fuel with
  | O => None
  | S fuel' =>
      match NodeTree.read a stream (repeat Byte.x00 chunk) 0 (Z.of_nat chunk) position with
      | Return (buffer, n) =>
          if (n <=? 0)%Z then Some []
          else option_map (app (take (Z.to_nat n) buffer))
                 (read_chunks fuel' a stream chunk (position + n))
      | Throw _ => None
      end
  end.

(** Every cached path is the path of a registered name under the root. *)
Definition registered_only (known : gmap string string) (a : NodeTree.t) : Prop :=
  forall key, is_Some (NodeTree.cache a !! key) ->
    exists name, key = "/" +:+ name /\ is_Some (known !! name).

(** Successive lookups of names under the root of the restricted adapter;
    a lookup that throws does not keep the caller from looking again. *)
Definition registry_lookups (remote : SyncFetch.Remote) (known : gmap string string)
    (names : list string) (a : NodeTree.t) : NodeTree.t :=
  fold_left (fun s name => (Registry.lookup remote known Registry.root name s).1) names a.

(** The tool calls of a response: identifier and tool name, in order. *)
Definition tool_uses (blocks : list State.Block) : list (string * string) :=
  omap (fun b => match b with
                 | State.ToolUse id name _ => Some (id, name)
                 | _ => None
                 end) blocks.

(** The cache directory holds files only, no directories. *)
Definition flat_cache_dir (disk : gmap string Loop.FileContent) : Prop :=
  forall path, is_Some (disk !! path) ->
    startsWith path (Loop.cacheDir +:+ "/") = true ->
    includes (slice (String.length (Loop.cacheDir +:+ "/")) path) "/" = false.




Section Execution.
Context {Env : Type} `{!Loop.Collaborators Env}.

(** What the claim calls executing steps: from a run, [n] steps at most are
    executed one after the other, without a look at the snapshots; a step
    that returns is persisted under its number; the execution ends when a
    step reports the task done, or throws. *)
Fixpoint executes (n : nat) (taskId : string) (r : Loop.Run Env)
  : Loop.Run Env * Loop.Outcome :=
  match n with
  | O => (r, Loop.Finished)
  | S n' =>
      match Loop.runAgenticStep r with
      | (r1, Throw e) => (r1, Loop.Thrown e)
      | (r1, Return result_done) =>
          let r2 := Loop.set_disk
                      (Loop.saveState (Loop.clock (Loop.env r1)) taskId
                         (State.stepCount (Loop.state r1)) (Loop.state r1) (Loop.disk r1))
                      r1 in
          if result_done then (r2, Loop.Finished) else executes n' taskId r2
      end
  end.

(** The reasoning collaborator always answers and never ends the turn. *)
Definition never_stops : Prop :=
  forall messages e, exists e' response,
    Loop.create_message messages e = (e', Return response) /\
    Loop.stop_reason response <> Loop.end_turn.

End Execution.

(** * Properties *)

(** ** Strings *)

Section StringFacts.

Lemma append_cons (x : ascii) (a b : string) :
  String x a +:+ b = String x (a +:+ b).
Proof. reflexivity. Qed.

Lemma append_nil (b : string) : "" +:+ b = b.
Proof. reflexivity. Qed.

Lemma append_assoc (a b c : string) : (a +:+ b) +:+ c = a +:+ (b +:+ c).
Proof.
  induction a as [|x a IH]; [reflexivity|].
  rewrite !append_cons. f_equal. exact IH.
Qed.

Lemma append_inj_r (p a b : string) : p +:+ a = p +:+ b -> a = b.
Proof.
  induction p as [|x p IH]; [trivial|].
  rewrite !append_cons. intros E. injection E as E. auto.
Qed.

Lemma startsWith_append (p s : string) : startsWith (p +:+ s) p = true.
Proof.
  unfold startsWith. induction p as [|x p IH].
  - rewrite append_nil. now destruct s.
  - rewrite append_cons. simpl. destruct (ascii_dec x x); [exact IH | congruence].
Qed.

Lemma startsWith_split (s p : string) :
  startsWith s p = true -> s = p +:+ slice (String.length p) s.
Proof.
  unfold startsWith. revert s. induction p as [|x p IH]; intros s.
  - reflexivity.
  - destruct s as [|y s]; simpl; [discriminate|].
    destruct (ascii_dec x y) as [->|]; [|discriminate].
    intros E. rewrite append_cons. f_equal. auto.
Qed.

Lemma slice_append (p s : string) : slice (String.length p) (p +:+ s) = s.
Proof.
  induction p as [|x p IH]; [now destruct s|].
  rewrite append_cons. exact IH.
Qed.

Lemma startsWith_trans (s p q : string) :
  startsWith s (p +:+ q) = true -> startsWith s p = true.
Proof.
  intros E. apply startsWith_split in E. rewrite E, append_assoc.
  apply startsWith_append.
Qed.

Lemma truthy_true (s : string) : truthy s = true <-> s <> "".
Proof.
  unfold truthy. destruct (String.eqb_spec s ""); simpl; split; congruence.
Qed.

Lemma truthy_false (s : string) : truthy s = false <-> s = "".
Proof.
  unfold truthy. destruct (String.eqb_spec s ""); simpl; split; congruence.
Qed.

End StringFacts.

(** ** Read-only enforcement of the node tree *)


(** ** Reading a cached file *)

Section Read.
Import NodeTree.

Variables (a : NodeTree.t) (stream : Stream) (remotePath : string) (data : bytes).
Hypothesis Hnode : remote_path (stream_node stream) = Some remotePath.
Hypothesis Hcached : cache a !! remotePath = Some data.

(** A read that starts inside the file or at its end copies the slice
    [position, min(position + length, L)) into the buffer and returns its
    length. *)
Lemma read_within_file (buffer : bytes) (offset length_ position : Z) :
  (0 <= position <= Z.of_nat (length data))%Z ->
  (0 <= length_)%Z -> (0 <= offset)%Z ->
  (offset + length_ <= Z.of_nat (length buffer))%Z ->
  let end_ := Z.min (Z.of_nat (length data)) (position + length_) in
  let chunk := take (Z.to_nat (end_ - position)) (drop (Z.to_nat position) data) in
  read a stream buffer offset length_ position
  = Return ((take (Z.to_nat offset) buffer ++ chunk
             ++ drop (Z.to_nat offset + length chunk) buffer)%list,
            (end_ - position)%Z)
  /\ Z.of_nat (length chunk) = (end_ - position)%Z.
Proof.
  intros Hpos Hlen Hoff Hroom end_ chunk.
  assert (Hchunk : Z.of_nat (length chunk) = (end_ - position)%Z).
  { unfold chunk. rewrite length_take, length_drop. unfold end_. lia. }
  split; [|exact Hchunk].
  unfold read. rewrite Hnode, Hcached. fold end_.
  assert (Hslice : js_slice data position end_ = chunk).
  { unfold js_slice, chunk.
    destruct (Z.ltb_spec position 0); [lia|].
    destruct (Z.ltb_spec end_ 0); [unfold end_ in *; lia|].
    replace (Z.min position (Z.of_nat (length data))) with position by lia.
    replace (Z.min end_ (Z.of_nat (length data))) with end_ by (unfold end_; lia).
    replace (Z.max (end_ - position) 0) with (end_ - position)%Z
      by (unfold end_; lia).
    reflexivity. }
  rewrite Hslice. unfold buffer_set.
  destruct (Z.ltb_spec offset 0); [lia|].
  destruct (Z.ltb_spec (Z.of_nat (length buffer)) (offset + Z.of_nat (length chunk)));
    [unfold end_ in *; lia|].
  reflexivity.
Qed.

End Read.

(** C9 (where the code departs from it): with three cached bytes, a read
    of four bytes at position 5, a position that [llseek] hands out, copies
    nothing into the buffer and returns the count -2 rather than 0. *)
Theorem read_beyond_end_returns_negative_count :
  NodeTree.llseek Examples.tree_f
    {| NodeTree.stream_node := Examples.node_f; NodeTree.stream_position := 0 |} 5 0
  = Return ({| NodeTree.stream_node := Examples.node_f;
               NodeTree.stream_position := 5 |}, 5%Z)
  /\ NodeTree.read Examples.tree_f
       {| NodeTree.stream_node := Examples.node_f; NodeTree.stream_position := 5 |}
       ["0"; "0"; "0"; "0"]%byte 0 4 5
     = Return (["0"; "0"; "0"; "0"]%byte, (-2)%Z).
Proof. split; vm_compute; reflexivity. Qed.

(** ** From virtual paths to locators *)

Section PathToURL.
Context {FS : Type}.
Implicit Types (a : Intercept.t FS).

Lemma isWithinMount_under a (r : string) :
  Intercept.isWithinMount a (Intercept.mountPoint a +:+ "/" +:+ r) = true.
Proof.
  unfold Intercept.isWithinMount.
  destruct (String.eqb _ _); [reflexivity|].
  rewrite <- append_assoc. apply startsWith_append.
Qed.

Lemma extractRemotePath_under a (r : string) :
  Intercept.extractRemotePath a (Intercept.mountPoint a +:+ "/" +:+ r)
  = strip_slashes r.
Proof.
  unfold Intercept.extractRemotePath. rewrite isWithinMount_under. simpl.
  unfold Intercept.mount_prefix.
  destruct (String.eqb_spec (Intercept.mountPoint a) "/") as [E|_].
  - rewrite E. reflexivity.
  - rewrite <- append_assoc, startsWith_append, slice_append. reflexivity.
Qed.

Lemma pathToURL_under a (r : string) :
  Intercept.pathToURL a (Intercept.mountPoint a +:+ "/" +:+ r)
  = if truthy (strip_slashes r)
    then Return (Intercept.scheme a +:+ "://" +:+ strip_slashes r)
    else Throw (Error "Error" ("No remote resource specified for "
                               +:+ Intercept.mountPoint a +:+ "/" +:+ r)).
Proof.
  unfold Intercept.pathToURL. rewrite extractRemotePath_under.
  now destruct (truthy (strip_slashes r)).
Qed.

End PathToURL.

(** C4, as stated, fails on the interception adapter: two paths under the
    mount whose suffixes differ by a leading slash have the same locator. *)
Lemma pathToURL_merges_leading_slashes :
  Intercept.isWithinMount (Examples.intercept0 MemFS.with_tmp_file) "/network/a" = true /\
  Intercept.isWithinMount (Examples.intercept0 MemFS.with_tmp_file) "/network//a" = true /\
  Intercept.pathToURL (Examples.intercept0 MemFS.with_tmp_file) "/network/a"
  = Intercept.pathToURL (Examples.intercept0 MemFS.with_tmp_file) "/network//a" /\
  suffix (Examples.intercept0 MemFS.with_tmp_file) "/network/a"
  <> suffix (Examples.intercept0 MemFS.with_tmp_file) "/network//a".
Proof. repeat split; vm_compute; congruence. Qed.

(** C4, amended: [pathToURL] is a function of its argument alone; on
    [<mountPoint>/<remainder>] it removes the prefix once and the leading
    slashes of the remainder, and yields [<scheme>://] followed by what is
    left (it throws when nothing is left).  Two such paths with the same
    locator have remainders that agree once their leading slashes are
    removed.  The [pathToURL] of the node tree, which receives the remote
    path itself, is injective. *)
Theorem pathToURL_injective_up_to_leading_slashes :
  forall (FS : Type) (a : Intercept.t FS),
    (forall r u,
        Intercept.pathToURL a (Intercept.mountPoint a +:+ "/" +:+ r) = Return u ->
        u = Intercept.scheme a +:+ "://" +:+ strip_slashes r /\ strip_slashes r <> "") /\
    (forall r1 r2 u,
        Intercept.pathToURL a (Intercept.mountPoint a +:+ "/" +:+ r1) = Return u ->
        Intercept.pathToURL a (Intercept.mountPoint a +:+ "/" +:+ r2) = Return u ->
        strip_slashes r1 = strip_slashes r2) /\
    (forall (t : NodeTree.t) r1 r2,
        NodeTree.pathToURL t r1 = NodeTree.pathToURL t r2 -> r1 = r2).
Proof.
  intros FS a.
  assert (Hform : forall r u,
    Intercept.pathToURL a (Intercept.mountPoint a +:+ "/" +:+ r) = Return u ->
    u = Intercept.scheme a +:+ "://" +:+ strip_slashes r /\ strip_slashes r <> "").
  { intros r u. rewrite pathToURL_under.
    destruct (truthy (strip_slashes r)) eqn:T; [|discriminate].
    intros E. injection E as <-. split; [reflexivity|].
    now apply truthy_true. }
  split; [exact Hform|]. split.
  - intros r1 r2 u H1 H2.
    destruct (Hform _ _ H1) as [E1 _]. destruct (Hform _ _ H2) as [E2 _].
    rewrite E1 in E2. now apply append_inj_r, append_inj_r in E2.
  - intros t r1 r2. unfold NodeTree.pathToURL. intros E.
    now apply append_inj_r, append_inj_r in E.
Qed.

Lemma pathToURL_injective_up_to_leading_slashes_witness :
  Intercept.pathToURL (Examples.intercept0 MemFS.with_tmp_file) "/network/a"
  = Return "https://a" /\
  Intercept.pathToURL (Examples.intercept0 MemFS.with_tmp_file) "/network//a"
  = Return "https://a" /\
  strip_slashes "a" = strip_slashes "/a".
Proof.
  split; [reflexivity|]. split; [reflexivity|].
  apply (proj1 (proj2 (pathToURL_injective_up_to_leading_slashes
                         MemFS.t (Examples.intercept0 MemFS.with_tmp_file)))
           "a" "/a" "https://a"); reflexivity.
Defined.

(** ** Serialising and deserialising the state *)

Section RoundTrip.
Import State.

Lemma or_number_zero (n : nat) : or_number (Some n) 0 = n.
Proof. now destruct n. Qed.

Lemma or_boolean_false (b : bool) : or_boolean (Some b) false = b.
Proof. now destruct b. Qed.

Lemma constructor_serialize (now now' : Z) (s : AgentState) :
  constructor now' (serialize now s)
  = {| messages := messages s;
       stepCount := stepCount s;
       outputCapture := outputCapture s;
       networkCache := networkCache s;
       outputFiles := outputFiles s;
       done := done s;
       metadata := {| taskId := taskId (metadata s);
                      createdAt := createdAt (metadata s);
                      lastModified := now |} |}.
Proof.
  unfold constructor, serialize; cbn [d_messages d_stepCount
    d_outputCapture d_networkCache d_outputFiles d_done d_metadata or_object
    default].
  now rewrite or_number_zero, or_boolean_false.
Qed.

(** C6: [deserialize(serialize(s))] has the fields of [s], except that
    [metadata.lastModified] is the reading of the clock taken by
    [serialize]; and [deserialize] gives a field that the record lacks its
    empty default: no messages, step 0, empty capture buffers, empty cache
    and output files, not done, and metadata without task id stamped with
    the current time. *)
Theorem deserialize_serialize :
  forall (now now' : Z) (s : AgentState),
    deserialize now' (serialize now s)
    = {| messages := messages s;
         stepCount := stepCount s;
         outputCapture := outputCapture s;
         networkCache := networkCache s;
         outputFiles := outputFiles s;
         done := done s;
         metadata := {| taskId := taskId (metadata s);
                        createdAt := createdAt (metadata s);
                        lastModified := now |} |}
    /\ (forall d : Data,
          (d_messages d = None -> messages (deserialize now d) = []) /\
          (d_stepCount d = None -> stepCount (deserialize now d) = 0) /\
          (d_outputCapture d = None ->
           outputCapture (deserialize now d) = {| stdout := ""; stderr := "" |}) /\
          (d_networkCache d = None -> networkCache (deserialize now d) = ∅) /\
          (d_outputFiles d = None -> outputFiles (deserialize now d) = ∅) /\
          (d_done d = None -> done (deserialize now d) = false) /\
          (d_metadata d = None ->
           metadata (deserialize now d)
           = {| taskId := None; createdAt := now; lastModified := now |})).
Proof.
  intros now now' s. split.
  - apply constructor_serialize.
  - intros d. unfold deserialize, constructor. simpl.
    repeat split; intros ->; reflexivity.
Qed.

Lemma deserialize_serialize_witness :
  d_messages no_data = None /\ messages (deserialize 7 no_data) = [].
Proof.
  split; [reflexivity|].
  apply (proj2 (deserialize_serialize 7 0 Examples.initial_state) no_data).
  reflexivity.
Defined.

End RoundTrip.

(** ** The restricted registry *)

Section RegistryFacts.
Import NodeTree.
Variable remote : SyncFetch.Remote.

(** The known name is materialised by one request for its locator. *)
Lemma lookup_known_resource (data : bytes) :
  remote 1 "https://icanhazip.com/" = Some (SyncFetch.StatusOk data) ->
  Registry.lookup remote Registry.KNOWN_RESOURCES Registry.root "current-ip"
    Examples.tree0
  = (set_cache {[ "/current-ip" := data ]}
       (set_fetcher {| SyncFetch.nextJobId := 2;
                       SyncFetch.log := ["https://icanhazip.com/"] |}
          Examples.tree0),
     Return (createNode "current-ip" 33060 "/current-ip")).
Proof.
  intros Hok. unfold Registry.lookup, bind, get, Registry.child_path; simpl.
  rewrite lookup_empty.
  change (Registry.get_property Registry.KNOWN_RESOURCES "current-ip")
    with (Registry.Str "https://icanhazip.com/").
  simpl. unfold try_catch, bind, on_fetcher, Registry.fetch_value, SyncFetch.fetch.
  simpl. rewrite Hok. simpl. reflexivity.
Qed.

(** A name that the registry neither owns nor inherits is refused before
    the bridge is reached. *)
Lemma lookup_unknown_name (known : gmap string string) (a : t) (name : string) :
  cache a !! Registry.child_path Registry.root name = None ->
  Registry.get_property known name = Registry.Undefined ->
  Registry.lookup remote known Registry.root name a
  = (a, Throw (ErrnoError 44 (Some ("No such file: /" +:+ name)))).
Proof.
  intros Hmiss Hundef. unfold Registry.lookup, bind, get.
  rewrite Hmiss, Hundef. reflexivity.
Qed.

End RegistryFacts.

(** C8 (where the code departs from it): the name [constructor] is not in
    the allow-list, yet [KNOWN_RESOURCES["constructor"]] is the function
    inherited from [Object.prototype]; the lookup therefore calls the fetch
    bridge, which takes a job id before it fails, and only then reports
    ENOENT.  A name that is not inherited, such as [anything-else], leaves
    the bridge alone. *)
Theorem lookup_inherited_name_calls_fetch :
  forall remote : SyncFetch.Remote,
    Registry.lookup remote Registry.KNOWN_RESOURCES Registry.root "constructor"
      Examples.tree0
    = (NodeTree.set_fetcher {| SyncFetch.nextJobId := 2; SyncFetch.log := [] |}
         Examples.tree0,
       Throw (ErrnoError 44 (Some "No such file: /constructor")))
    /\ Registry.lookup remote Registry.KNOWN_RESOURCES Registry.root "anything-else"
         Examples.tree0
       = (Examples.tree0, Throw (ErrnoError 44 (Some "No such file: /anything-else"))).
Proof. intros remote. split; reflexivity. Qed.

(** ** The interception adapter: hits and failed fetches *)

Section InterceptFacts.
Context {FS Node Stream : Type} `{!HostFS FS Node Stream}.
Variable remote : SyncFetch.Remote.
Implicit Types (a : Intercept.t FS) (p : string).

Lemma startsWith_refl p : startsWith p p = true.
Proof.
  unfold startsWith. induction p as [|x p IH]; simpl; [reflexivity|].
  destruct (ascii_dec x x); [exact IH | congruence].
Qed.

Lemma normalizeToMount_prefixed a p :
  p <> "" -> startsWith p (Intercept.mountPoint a) = true ->
  Intercept.normalizeToMount a p = Some p.
Proof.
  intros Hp Hs. unfold Intercept.normalizeToMount.
  apply truthy_true in Hp. now rewrite Hp, Hs.
Qed.

Lemma isWithinMount_prefixed a p :
  Intercept.isWithinMount a p = true -> startsWith p (Intercept.mountPoint a) = true.
Proof.
  unfold Intercept.isWithinMount.
  destruct (String.eqb_spec p (Intercept.mountPoint a)) as [->|_].
  - intros _. apply startsWith_refl.
  - apply startsWith_trans.
Qed.

Lemma extractRemotePath_empty a : Intercept.extractRemotePath a "" = "".
Proof.
  unfold Intercept.extractRemotePath.
  destruct (Intercept.isWithinMount a ""); [simpl|reflexivity].
  unfold Intercept.mount_prefix.
  destruct (String.eqb (Intercept.mountPoint a) "/"); [reflexivity|].
  now destruct (Intercept.mountPoint a).
Qed.

Lemma fetch_throws (w : SyncFetch.t) (url : string) :
  fetch_fails remote w url ->
  exists name message,
    SyncFetch.fetch remote url w
    = ({| SyncFetch.nextJobId := S (SyncFetch.nextJobId w);
          SyncFetch.log := (SyncFetch.log w ++ [url])%list |},
       Throw (Error name message)).
Proof.
  intros Hfail. unfold SyncFetch.fetch.
  destruct (remote (SyncFetch.nextJobId w) url) as [[data|error]|] eqn:E.
  - now destruct (Hfail data).
  - eauto.
  - eauto.
Qed.

(** A cached path whose file exists is served without touching anything. *)
Lemma ensureFileSync_hit a p (meta : Intercept.Meta) :
  startsWith p (Intercept.mountPoint a) = true ->
  Intercept.cache a !! p = Some meta ->
  exists_at p (Intercept.hostfs a) ->
  exists r, Intercept.ensureFileSync remote p a = (a, Return r).
Proof.
  intros Hs Hc [st Hst].
  unfold Intercept.ensureFileSync, bind, get.
  unfold Intercept.normalizeToMount. rewrite Hs.
  destruct (negb (truthy p)); [now eexists|].
  destruct (negb (truthy p) || negb (Intercept.isWithinMount a p)); [now eexists|].
  destruct (negb (truthy (Intercept.extractRemotePath a p))); [now eexists|].
  rewrite Hc.
  unfold Intercept.fileExists, try_catch, bind, Intercept.original_stat.
  rewrite Hst. now eexists.
Qed.

Lemma ensureFileSync_hit_value a p (meta : Intercept.Meta) :
  Intercept.isWithinMount a p = true ->
  Intercept.extractRemotePath a p <> "" ->
  Intercept.cache a !! p = Some meta ->
  exists_at p (Intercept.hostfs a) ->
  Intercept.ensureFileSync remote p a = (a, Return (Some meta)).
Proof.
  intros Hin Hremote Hc [st Hst].
  assert (Hp : p <> "").
  { intros ->. now rewrite extractRemotePath_empty in Hremote. }
  unfold Intercept.ensureFileSync, bind, get.
  rewrite (normalizeToMount_prefixed a p Hp (isWithinMount_prefixed a p Hin)).
  apply truthy_true in Hp, Hremote. rewrite Hp, Hin, Hremote, Hc. simpl.
  unfold Intercept.fileExists, try_catch, bind, Intercept.original_stat.
  now rewrite Hst.
Qed.

Lemma isWithinMount_same_mount a a' p :
  Intercept.mountPoint a' = Intercept.mountPoint a ->
  Intercept.isWithinMount a' p = Intercept.isWithinMount a p /\
  Intercept.extractRemotePath a' p = Intercept.extractRemotePath a p.
Proof.
  intros E. unfold Intercept.extractRemotePath, Intercept.mount_prefix,
    Intercept.isWithinMount. now rewrite E.
Qed.

Lemma materialise_hit a p (meta : Intercept.Meta) (wanted : bool) :
  startsWith p (Intercept.mountPoint a) = true ->
  Intercept.cache a !! p = Some meta ->
  exists_at p (Intercept.hostfs a) ->
  Intercept.materialise remote (Some p) wanted a = (a, Return tt).
Proof.
  intros Hs Hc Hx. unfold Intercept.materialise.
  destruct (truthy p && wanted); [|reflexivity].
  destruct (ensureFileSync_hit a p meta Hs Hc Hx) as [r Hr].
  unfold bind. now rewrite Hr.
Qed.

(** A path under the mount that is not served from the cache is fetched,
    and a fetch that fails surfaces as [ErrnoError(ENOENT)]. *)
Lemma ensureFileSync_fetch_fails a p (url : string) :
  Intercept.isWithinMount a p = true ->
  Intercept.pathToURL a p = Return url ->
  (Intercept.cache a !! p = None
   \/ exists m, host_stat (PStr p) false (Intercept.hostfs a)
                = Throw (ErrnoError ENOENT m)) ->
  fetch_fails remote (Intercept.fetcher a) url ->
  exists message,
    Intercept.ensureFileSync remote p a
    = (Intercept.set_fetcher
         {| SyncFetch.nextJobId := S (SyncFetch.nextJobId (Intercept.fetcher a));
            SyncFetch.log := (SyncFetch.log (Intercept.fetcher a) ++ [url])%list |} a,
       Throw (ErrnoError ENOENT (Some message))).
Proof.
  intros Hin Hurl Hmiss Hfail.
  assert (Hremote : truthy (Intercept.extractRemotePath a p) = true).
  { unfold Intercept.pathToURL in Hurl.
    destruct (truthy (Intercept.extractRemotePath a p)); [reflexivity|discriminate]. }
  assert (Hp : p <> "").
  { intros ->. rewrite extractRemotePath_empty in Hremote. discriminate. }
  unfold Intercept.ensureFileSync, bind, get.
  rewrite (normalizeToMount_prefixed a p Hp (isWithinMount_prefixed a p Hin)).
  apply truthy_true in Hp. rewrite Hp, Hin, Hremote. simpl.
  destruct (fetch_throws (Intercept.fetcher a) url Hfail) as (name & message & Hf).
  assert (Hhit : (match Intercept.cache a !! p with
                  | Some _ => Intercept.fileExists p
                  | None => ret false
                  end) a = (a, Return false)).
  { destruct Hmiss as [-> | [m Hm]]; [reflexivity|].
    destruct (Intercept.cache a !! p); [|reflexivity].
    unfold Intercept.fileExists, try_catch, bind, Intercept.original_stat.
    rewrite Hm. now rewrite Z.eqb_refl. }
  rewrite Hhit, Hurl.
  unfold try_catch, Intercept.on_fetcher. rewrite Hf. simpl.
  now eexists.
Qed.

End InterceptFacts.

(** ** Cached paths are not fetched again *)

Section NodeTreeHits.
Import NodeTree.
Variable remote : SyncFetch.Remote.

Lemma lookup_hit (parent : option Node) (name : string) (a : t) (data : bytes) :
  cache a !! child_path parent name = Some data ->
  lookup remote parent name a
  = (a, Return (createNode name (Z.lor S_IFREG 292) (child_path parent name))).
Proof. intros Hc. unfold lookup, bind, get. now rewrite Hc. Qed.

Lemma lookups_hit (n : nat) (parent : option Node) (name : string) (a : t)
    (data : bytes) :
  cache a !! child_path parent name = Some data ->
  lookups remote n parent name a = a.
Proof.
  intros Hc. induction n as [|n IH]; [reflexivity|].
  simpl. now rewrite (lookup_hit _ _ _ _ Hc).
Qed.

Lemma lookup_miss_ok (parent : option Node) (name : string) (a : t) (data : bytes) :
  cache a !! child_path parent name = None ->
  remote (SyncFetch.nextJobId (fetcher a)) (pathToURL a (child_path parent name))
  = Some (SyncFetch.StatusOk data) ->
  lookup remote parent name a
  = (set_cache (<[child_path parent name := data]> (cache a))
       (set_fetcher
          {| SyncFetch.nextJobId := S (SyncFetch.nextJobId (fetcher a));
             SyncFetch.log := (SyncFetch.log (fetcher a)
                               ++ [pathToURL a (child_path parent name)])%list |} a),
     Return (createNode name (Z.lor S_IFREG 292) (child_path parent name))).
Proof.
  intros Hc Hok. unfold lookup, bind, get. rewrite Hc.
  unfold try_catch, bind, on_fetcher, SyncFetch.fetch. now rewrite Hok.
Qed.

Lemma lookup_miss_fails (parent : option Node) (name : string) (a : t) :
  cache a !! child_path parent name = None ->
  fetch_fails remote (fetcher a) (pathToURL a (child_path parent name)) ->
  lookup remote parent name a
  = (set_fetcher
       {| SyncFetch.nextJobId := S (SyncFetch.nextJobId (fetcher a));
          SyncFetch.log := (SyncFetch.log (fetcher a)
                            ++ [pathToURL a (child_path parent name)])%list |} a,
     Throw (ErrnoError 44 (Some ("No such file: " +:+ child_path parent name)))).
Proof.
  intros Hc Hfail. unfold lookup, bind, get. rewrite Hc.
  destruct (fetch_throws remote _ _ Hfail) as (nm & msg & Hf).
  unfold try_catch, bind, on_fetcher. now rewrite Hf.
Qed.

Lemma count_snoc (url : string) (w : SyncFetch.t) (n : nat) :
  SyncFetch.count url
    {| SyncFetch.nextJobId := n; SyncFetch.log := (SyncFetch.log w ++ [url])%list |}
  = S (SyncFetch.count url w).
Proof.
  unfold SyncFetch.count. simpl. rewrite filter_app, length_app.
  rewrite filter_cons_True by reflexivity. simpl. lia.
Qed.

End NodeTreeHits.

(** ** Mutating operations on the node tree *)




Section InterceptHits.
Context {FS Node Stream : Type} `{!HostFS FS Node Stream}.
Variable remote : SyncFetch.Remote.
Variables (p : string) (meta : Intercept.Meta).
Hypothesis Hkeep : forall (pathArg : PathArg Node) flags mode (fs : FS),
  exists_at (Node := Node) p fs ->
  exists_at (Node := Node) p (host_open pathArg flags mode fs).1.

Lemma materialise_normalized (a : Intercept.t FS) (wanted : bool) :
  startsWith p (Intercept.mountPoint a) = true ->
  Intercept.cache a !! p = Some meta ->
  exists_at (Node := Node) p (Intercept.hostfs a) ->
  Intercept.materialise remote (Intercept.normalizePathArg a (PStr p)) wanted a
  = (a, Return tt).
Proof.
  intros Hs Hc Hx. unfold Intercept.normalizePathArg, Intercept.normalizeToMount.
  destruct (negb (truthy p)); [reflexivity|].
  rewrite Hs. now apply materialise_hit with meta.
Qed.

Lemma access_hit (a0 a : Intercept.t FS) (k : Access) :
  startsWith p (Intercept.mountPoint a0) = true ->
  Intercept.cache a0 !! p = Some meta ->
  hit_state (Node := Node) p a0 a -> hit_state (Node := Node) p a0 (access remote (PStr p) k a).
Proof.
  intros Hs Hc (Hm & Hca & Hf & Hx).
  assert (Hmat : forall wanted,
    Intercept.materialise remote (Intercept.normalizePathArg a (PStr p)) wanted a
    = (a, Return tt)).
  { intros wanted. apply materialise_normalized; [now rewrite Hm|now rewrite Hca|exact Hx]. }
  destruct k as [flags mode|dontFollow|]; unfold access.
  - unfold Intercept.patchedOpen, bind, get. rewrite Hmat.
    unfold Intercept.on_hostfs.
    pose proof (Hkeep (PStr p) flags (default 438%Z mode) _ Hx) as Hx'.
    destruct (host_open (PStr p) flags (default 438%Z mode) (Intercept.hostfs a))
      as [fs' r]. simpl in *. now repeat split.
  - unfold Intercept.patchedStat, bind, get. rewrite Hmat. simpl. now repeat split.
  - unfold Intercept.patchedLstat. destruct host_lstat as [lstat|].
    + unfold bind, get. rewrite Hmat. simpl. now repeat split.
    + now repeat split.
Qed.

Lemma accesses_hit (ks : list Access) (a0 a : Intercept.t FS) :
  startsWith p (Intercept.mountPoint a0) = true ->
  Intercept.cache a0 !! p = Some meta ->
  hit_state (Node := Node) p a0 a -> hit_state (Node := Node) p a0 (accesses remote (PStr p) ks a).
Proof.
  intros Hs Hc. revert a. induction ks as [|k ks IH]; intros a Ha; [exact Ha|].
  simpl. apply IH. now apply access_hit.
Qed.

End InterceptHits.

Section InterceptFirstAccess.
Context {FS Node Stream : Type} `{!HostFS FS Node Stream}.
Variable remote : SyncFetch.Remote.
Variables (a : Intercept.t FS) (p url : string) (data : bytes).
Hypothesis Hin : Intercept.isWithinMount a p = true.
Hypothesis Hurl : Intercept.pathToURL a p = Return url.
Hypothesis Hmiss : Intercept.cache a !! p = None.
Hypothesis Hok :
  remote (SyncFetch.nextJobId (Intercept.fetcher a)) url = Some (SyncFetch.StatusOk data).

Lemma ensureParentDirectories_only_hostfs (a0 : Intercept.t FS) (q : string) :
  only_hostfs a0 (Intercept.ensureParentDirectories q a0).1.
Proof.
  unfold Intercept.ensureParentDirectories, bind, get.
  match goal with |- context [if ?c then ret tt else _] => destruct c end;
    [now repeat split|].
  unfold try_catch, bind, Intercept.original_stat.
  destruct (host_stat _ _ _) as [st|[errno m|nm m]]; try now repeat split.
  destruct (errno =? ENOENT)%Z; [|now repeat split].
  unfold Intercept.on_hostfs. destruct (host_mkdirTree _ _) as [fs' r].
  now repeat split.
Qed.

(** The first access of a path under the mount whose fetch succeeds: if
    the access returns, the bridge was called once, for the path's
    locator, and the path is cached with the length of the fetched bytes
    while its file exists for the host. *)
Lemma ensureFileSync_miss_ok (a1 : Intercept.t FS) (res : option Intercept.Meta) :
  Intercept.ensureFileSync remote p a = (a1, Return res) ->
  Intercept.mountPoint a1 = Intercept.mountPoint a /\
  Intercept.fetcher a1
  = {| SyncFetch.nextJobId := S (SyncFetch.nextJobId (Intercept.fetcher a));
       SyncFetch.log := (SyncFetch.log (Intercept.fetcher a) ++ [url])%list |} /\
  (exists meta, Intercept.cache a1 = <[p := meta]> (Intercept.cache a) /\
                Intercept.meta_url meta = url /\
                Intercept.meta_bytes meta = length data) /\
  exists_at (Node := Node) p (Intercept.hostfs a1).
Proof.
  assert (Hremote : truthy (Intercept.extractRemotePath a p) = true).
  { unfold Intercept.pathToURL in Hurl.
    destruct (truthy (Intercept.extractRemotePath a p)); [reflexivity|discriminate]. }
  assert (Hp : p <> "").
  { intros ->. rewrite extractRemotePath_empty in Hremote. discriminate. }
  unfold Intercept.ensureFileSync, bind, get.
  rewrite (normalizeToMount_prefixed a p Hp (isWithinMount_prefixed a p Hin)).
  apply truthy_true in Hp. rewrite Hp, Hin, Hremote, Hmiss. simpl.
  rewrite Hurl. unfold try_catch, Intercept.on_fetcher, SyncFetch.fetch.
  rewrite Hok. simpl.
  match goal with |- context [Intercept.ensureParentDirectories p ?x] =>
    pose proof (ensureParentDirectories_only_hostfs x p) as (E1 & E2 & E3 & E4);
    destruct (Intercept.ensureParentDirectories p x) as [a2 [[]|e2]] end;
    [|discriminate].
  simpl in E1, E2, E3, E4.
  unfold Intercept.on_hostfs.
  destruct (host_writeFile p data (Intercept.hostfs a2)) as [fs3 [[]|e3]];
    [|discriminate].
  unfold Intercept.original_stat. simpl.
  destruct (host_stat (PStr p) false fs3) as [st|e4] eqn:Hst; [|discriminate].
  unfold modify, ret. simpl. intros E. injection E as <- <-. simpl.
  repeat split; try congruence.
  - eexists. split; [now rewrite E3|]. now split.
  - now exists st.
Qed.

Lemma patchedStat_miss_ok (dontFollow : bool) (a1 : Intercept.t FS) (st : Stat) :
  Intercept.patchedStat remote (PStr p) dontFollow a = (a1, Return st) ->
  Intercept.mountPoint a1 = Intercept.mountPoint a /\
  Intercept.fetcher a1
  = {| SyncFetch.nextJobId := S (SyncFetch.nextJobId (Intercept.fetcher a));
       SyncFetch.log := (SyncFetch.log (Intercept.fetcher a) ++ [url])%list |} /\
  (exists meta, Intercept.cache a1 = <[p := meta]> (Intercept.cache a) /\
                Intercept.meta_url meta = url /\
                Intercept.meta_bytes meta = length data) /\
  exists_at (Node := Node) p (Intercept.hostfs a1).
Proof.
  assert (Hp : p <> "").
  { intros ->. unfold Intercept.pathToURL in Hurl.
    rewrite extractRemotePath_empty in Hurl. discriminate. }
  unfold Intercept.patchedStat, bind, get, Intercept.normalizePathArg.
  rewrite (normalizeToMount_prefixed a p Hp (isWithinMount_prefixed a p Hin)).
  unfold Intercept.materialise. apply truthy_true in Hp. rewrite Hp. simpl.
  unfold bind.
  destruct (Intercept.ensureFileSync remote p a) as [a2 [res|e]] eqn:He;
    [|discriminate].
  unfold ret. intros E.
  assert (a2 = a1) as <-.
  { destruct (host_stat (PStr p) dontFollow (Intercept.hostfs a2)); congruence. }
  now apply ensureFileSync_miss_ok with res.
Qed.

End InterceptFirstAccess.

(** What a read of the materialised file returns, [readFile], is an
    observation of the host filesystem: [writeFile] sets it and an [open]
    that does not write leaves it alone. *)
Section InterceptBytes.
Context {FS Node Stream : Type} `{!HostFS FS Node Stream}.
Variable remote : SyncFetch.Remote.
Variables (p : string) (readFile : string -> FS -> option bytes).
Variable keeps : Flags -> bool.
Hypothesis Hkeep : forall (pathArg : PathArg Node) flags mode (fs : FS),
  exists_at (Node := Node) p fs ->
  exists_at (Node := Node) p (host_open pathArg flags mode fs).1.
Hypothesis Hread : forall (pathArg : PathArg Node) flags mode (fs : FS),
  keeps flags = true ->
  readFile p (host_open pathArg flags mode fs).1 = readFile p fs.

Lemma access_hit_bytes (meta : Intercept.Meta) (a0 a : Intercept.t FS) (k : Access) :
  startsWith p (Intercept.mountPoint a0) = true ->
  Intercept.cache a0 !! p = Some meta ->
  hit_state (Node := Node) p a0 a ->
  reading keeps k = true ->
  readFile p (Intercept.hostfs (access remote (PStr p) k a))
  = readFile p (Intercept.hostfs a).
Proof.
  intros Hs Hc (Hm & Hca & Hf & Hx) Hk.
  assert (Hmat : forall wanted,
    Intercept.materialise remote (Intercept.normalizePathArg a (PStr p)) wanted a
    = (a, Return tt)).
  { intros wanted. apply materialise_normalized with meta;
      [now rewrite Hm | now rewrite Hca | exact Hx]. }
  destruct k as [flags mode|dontFollow|]; unfold access.
  - unfold Intercept.patchedOpen, bind, get. rewrite Hmat.
    unfold Intercept.on_hostfs.
    pose proof (Hread (PStr p) flags (default 438%Z mode) (Intercept.hostfs a) Hk) as R.
    destruct (host_open (PStr p) flags (default 438%Z mode) (Intercept.hostfs a))
      as [fs' r]. exact R.
  - unfold Intercept.patchedStat, bind, get. now rewrite Hmat.
  - unfold Intercept.patchedLstat. destruct host_lstat as [lstat|]; [|reflexivity].
    unfold bind, get. now rewrite Hmat.
Qed.

Lemma accesses_hit_bytes (meta : Intercept.Meta) (ks : list Access)
    (a0 a : Intercept.t FS) :
  startsWith p (Intercept.mountPoint a0) = true ->
  Intercept.cache a0 !! p = Some meta ->
  hit_state (Node := Node) p a0 a ->
  forallb (reading keeps) ks = true ->
  readFile p (Intercept.hostfs (accesses remote (PStr p) ks a))
  = readFile p (Intercept.hostfs a).
Proof.
  intros Hs Hc. revert a. induction ks as [|k ks IH]; intros a Ha Hks; [reflexivity|].
  simpl in Hks. apply andb_true_iff in Hks as [Hk Hks].
  simpl. rewrite IH.
  - now apply access_hit_bytes with meta a0.
  - now apply access_hit with meta.
  - exact Hks.
Qed.

Section FirstAccess.
Variables (a : Intercept.t FS) (url : string) (data : bytes).
Hypothesis Hwrite : forall (q : string) (d : bytes) (fs fs' : FS),
  host_writeFile q d fs = (fs', Return tt) -> readFile q fs' = Some d.
Hypothesis Hin : Intercept.isWithinMount a p = true.
Hypothesis Hurl : Intercept.pathToURL a p = Return url.
Hypothesis Hmiss : Intercept.cache a !! p = None.
Hypothesis Hok :
  remote (SyncFetch.nextJobId (Intercept.fetcher a)) url = Some (SyncFetch.StatusOk data).

Lemma ensureFileSync_miss_bytes (a1 : Intercept.t FS) (res : option Intercept.Meta) :
  Intercept.ensureFileSync remote p a = (a1, Return res) ->
  readFile p (Intercept.hostfs a1) = Some data.
Proof.
  assert (Hremote : truthy (Intercept.extractRemotePath a p) = true).
  { unfold Intercept.pathToURL in Hurl.
    destruct (truthy (Intercept.extractRemotePath a p)); [reflexivity|discriminate]. }
  assert (Hp : p <> "").
  { intros E. rewrite E, extractRemotePath_empty in Hremote. discriminate. }
  unfold Intercept.ensureFileSync, bind, get.
  rewrite (normalizeToMount_prefixed a p Hp (isWithinMount_prefixed a p Hin)).
  apply truthy_true in Hp. rewrite Hp, Hin, Hremote, Hmiss. simpl.
  rewrite Hurl. unfold try_catch, Intercept.on_fetcher, SyncFetch.fetch.
  rewrite Hok. simpl.
  match goal with |- context [Intercept.ensureParentDirectories p ?x] =>
    destruct (Intercept.ensureParentDirectories p x) as [a2 [[]|e2]] end;
    [|discriminate].
  unfold Intercept.on_hostfs.
  destruct (host_writeFile p data (Intercept.hostfs a2)) as [fs3 [[]|e3]] eqn:W;
    [|discriminate].
  unfold Intercept.original_stat. simpl.
  destruct (host_stat (PStr p) false fs3) as [st|e4] eqn:Hst; [|discriminate].
  unfold modify, ret. simpl. intros E. injection E as <- <-. simpl.
  now apply Hwrite with (Intercept.hostfs a2).
Qed.

Lemma patchedStat_miss_bytes (dontFollow : bool) (a1 : Intercept.t FS) (st : Stat) :
  Intercept.patchedStat remote (PStr p) dontFollow a = (a1, Return st) ->
  readFile p (Intercept.hostfs a1) = Some data.
Proof.
  assert (Hp : p <> "").
  { intros E. unfold Intercept.pathToURL in Hurl.
    rewrite E, extractRemotePath_empty in Hurl. discriminate. }
  unfold Intercept.patchedStat, bind, get, Intercept.normalizePathArg.
  rewrite (normalizeToMount_prefixed a p Hp (isWithinMount_prefixed a p Hin)).
  unfold Intercept.materialise. apply truthy_true in Hp. rewrite Hp. simpl.
  unfold bind.
  destruct (Intercept.ensureFileSync remote p a) as [a2 [res|e]] eqn:He;
    [|discriminate].
  unfold ret. intros E.
  assert (a2 = a1) as <-.
  { destruct (host_stat (PStr p) dontFollow (Intercept.hostfs a2)); congruence. }
  now apply ensureFileSync_miss_bytes with res.
Qed.

End FirstAccess.
End InterceptBytes.

(** C3, as stated, fails on the interception adapter for an [open] with
    writing flags: the path [/network/x] is cached and stays cached (the
    adapter still serves its entry and does not call the bridge), but the
    patched [open] hands the flags to the host, which empties the
    materialised file: its bytes are [hi] before the access and none
    after. *)
Lemma writing_open_changes_cached_bytes :
  let a := Examples.intercept_cached in
  let a' := @access MemFS.t string string MemFS.host_truncating Examples.remote_up
              (PStr "/network/x") (ByOpen (FStr "w") None) a in
  (exists meta, Intercept.cache a !! "/network/x" = Some meta /\
                @Intercept.ensureFileSync MemFS.t string string MemFS.host_truncating
                  Examples.remote_up "/network/x" a'
                = (a', Return (Some meta))) /\
  Intercept.fetcher a' = Intercept.fetcher a /\
  Intercept.cache a' = Intercept.cache a /\
  MemFS.files (Intercept.hostfs a) !! "/network/x" = Some ["h"; "i"]%byte /\
  MemFS.files (Intercept.hostfs a') !! "/network/x" = Some [].
Proof.
  cbn zeta. split.
  - eexists. split; [reflexivity|]. vm_compute. reflexivity.
  - repeat split; vm_compute; reflexivity.
Qed.

(** C3, amended: a path whose key is in the cache is not fetched again, and
    its bytes are the same across the accesses that do not make the host
    write the file.  In the node tree a lookup of a cached path leaves the adapter
    as it is, so that over any [n >= 1] lookups of a path that is first
    materialised by a successful fetch the bridge is called once, for that
    path's locator, and the cache keeps the bytes of that fetch.  In the
    interception adapter, as long as the materialised file exists for the
    host, no sequence of [open], [stat] and [lstat] calls on a cached path
    calls the bridge or changes the cache; so when the first [stat] of an
    uncached path under the mount returns, that access and any further ones
    have called the bridge once in total, for that path's locator.  The
    bytes a read of the materialised file returns are those of that fetch
    after the first access (the host's [writeFile] stores what it is
    given), and the adapter does not write a cached file again: no
    sequence of [stat], [lstat] and [open] calls changes them, as long as
    the [open]s are made with flags for which the host's [open] leaves the
    content of a file alone. *)
Theorem cached_path_is_not_fetched_again :
  forall remote : SyncFetch.Remote,
    (forall parent name (a : NodeTree.t) data (n : nat),
        NodeTree.cache a !! NodeTree.child_path parent name = Some data ->
        lookups remote n parent name a = a) /\
    (forall parent name (a : NodeTree.t) data (n : nat),
        1 <= n ->
        NodeTree.cache a !! NodeTree.child_path parent name = None ->
        remote (SyncFetch.nextJobId (NodeTree.fetcher a))
          (NodeTree.pathToURL a (NodeTree.child_path parent name))
        = Some (SyncFetch.StatusOk data) ->
        let a' := lookups remote n parent name a in
        let url := NodeTree.pathToURL a (NodeTree.child_path parent name) in
        SyncFetch.nextJobId (NodeTree.fetcher a')
        = S (SyncFetch.nextJobId (NodeTree.fetcher a)) /\
        SyncFetch.count url (NodeTree.fetcher a')
        = S (SyncFetch.count url (NodeTree.fetcher a)) /\
        NodeTree.cache a' !! NodeTree.child_path parent name = Some data) /\
    (forall (FS Node Stream : Type) (H : HostFS FS Node Stream)
            (a : Intercept.t FS) (p : string) (meta : Intercept.Meta)
            (ks : list Access),
        (forall (pathArg : PathArg Node) flags mode (fs : FS),
            exists_at (Node := Node) p fs ->
            exists_at (Node := Node) p (host_open pathArg flags mode fs).1) ->
        startsWith p (Intercept.mountPoint a) = true ->
        Intercept.cache a !! p = Some meta ->
        exists_at (Node := Node) p (Intercept.hostfs a) ->
        let a' := accesses remote (PStr p) ks a in
        Intercept.fetcher a' = Intercept.fetcher a /\
        Intercept.cache a' = Intercept.cache a) /\
    (forall (FS Node Stream : Type) (H : HostFS FS Node Stream)
            (a a1 : Intercept.t FS) (p url : string) (data : bytes)
            (dontFollow : bool) (st : Stat) (ks : list Access),
        (forall (pathArg : PathArg Node) flags mode (fs : FS),
            exists_at (Node := Node) p fs ->
            exists_at (Node := Node) p (host_open pathArg flags mode fs).1) ->
        Intercept.isWithinMount a p = true ->
        Intercept.pathToURL a p = Return url ->
        Intercept.cache a !! p = None ->
        remote (SyncFetch.nextJobId (Intercept.fetcher a)) url
        = Some (SyncFetch.StatusOk data) ->
        Intercept.patchedStat remote (PStr p) dontFollow a = (a1, Return st) ->
        let a' := accesses remote (PStr p) ks a1 in
        SyncFetch.nextJobId (Intercept.fetcher a')
        = S (SyncFetch.nextJobId (Intercept.fetcher a)) /\
        SyncFetch.count url (Intercept.fetcher a')
        = S (SyncFetch.count url (Intercept.fetcher a)) /\
        exists meta, Intercept.cache a' !! p = Some meta /\
                     Intercept.meta_bytes meta = length data /\
                     Intercept.ensureFileSync remote p a' = (a', Return (Some meta))) /\
    (forall (FS Node Stream : Type) (H : HostFS FS Node Stream)
            (readFile : string -> FS -> option bytes) (keeps : Flags -> bool)
            (a : Intercept.t FS) (p : string) (meta : Intercept.Meta)
            (ks : list Access),
        (forall (pathArg : PathArg Node) flags mode (fs : FS),
            exists_at (Node := Node) p fs ->
            exists_at (Node := Node) p (host_open pathArg flags mode fs).1) ->
        (forall (pathArg : PathArg Node) flags mode (fs : FS),
            keeps flags = true ->
            readFile p (host_open pathArg flags mode fs).1 = readFile p fs) ->
        startsWith p (Intercept.mountPoint a) = true ->
        Intercept.cache a !! p = Some meta ->
        exists_at (Node := Node) p (Intercept.hostfs a) ->
        forallb (reading keeps) ks = true ->
        readFile p (Intercept.hostfs (accesses remote (PStr p) ks a))
        = readFile p (Intercept.hostfs a)) /\
    (forall (FS Node Stream : Type) (H : HostFS FS Node Stream)
            (readFile : string -> FS -> option bytes) (keeps : Flags -> bool)
            (a a1 : Intercept.t FS) (p url : string) (data : bytes)
            (dontFollow : bool) (st : Stat) (ks : list Access),
        (forall (pathArg : PathArg Node) flags mode (fs : FS),
            exists_at (Node := Node) p fs ->
            exists_at (Node := Node) p (host_open pathArg flags mode fs).1) ->
        (forall (pathArg : PathArg Node) flags mode (fs : FS),
            keeps flags = true ->
            readFile p (host_open pathArg flags mode fs).1 = readFile p fs) ->
        (forall (q : string) (d : bytes) (fs fs' : FS),
            host_writeFile q d fs = (fs', Return tt) -> readFile q fs' = Some d) ->
        Intercept.isWithinMount a p = true ->
        Intercept.pathToURL a p = Return url ->
        Intercept.cache a !! p = None ->
        remote (SyncFetch.nextJobId (Intercept.fetcher a)) url
        = Some (SyncFetch.StatusOk data) ->
        Intercept.patchedStat remote (PStr p) dontFollow a = (a1, Return st) ->
        forallb (reading keeps) ks = true ->
        readFile p (Intercept.hostfs a1) = Some data /\
        readFile p (Intercept.hostfs (accesses remote (PStr p) ks a1)) = Some data).
Proof.
  intros remote. split; [|split; [|split; [|split; [|split]]]].
  - intros parent name a data n Hc. now apply lookups_hit with data.
  - intros parent name a data n Hn Hc Hok a' url.
    destruct n as [|n]; [lia|]. unfold a'. simpl.
    rewrite (lookup_miss_ok remote _ _ _ _ Hc Hok). simpl.
    rewrite (lookups_hit remote n parent name _ data)
      by (simpl; apply lookup_insert_eq).
    simpl. split; [reflexivity|]. split.
    + apply count_snoc.
    + apply lookup_insert_eq.
  - intros FS Node Stream H a p meta ks Hkeep Hs Hc Hx a'.
    destruct (accesses_hit remote p meta Hkeep ks a a Hs Hc) as (_ & Hca & Hf & _).
    + now repeat split.
    + now split.
  - intros FS Node Stream H a a1 p url data dontFollow st ks Hkeep Hin Hurl Hmiss
      Hok Hstat a'.
    destruct (patchedStat_miss_ok remote a p url data Hin Hurl Hmiss Hok
                dontFollow a1 st Hstat) as (Hm & Hf & (meta & Hc & _ & Hb) & Hx).
    assert (Hs : startsWith p (Intercept.mountPoint a1) = true)
      by (rewrite Hm; now apply isWithinMount_prefixed).
    assert (Hc1 : Intercept.cache a1 !! p = Some meta)
      by (rewrite Hc; apply lookup_insert_eq).
    destruct (accesses_hit remote p meta Hkeep ks a1 a1 Hs Hc1)
      as (Hm' & Hca' & Hf' & Hx'); [now repeat split|].
    fold a' in Hm', Hca', Hf', Hx'.
    rewrite Hf', Hf, Hca'. split; [reflexivity|]. split.
    + apply count_snoc.
    + exists meta. split; [exact Hc1|]. split; [exact Hb|].
      destruct (isWithinMount_same_mount a a' p) as [Ein Eremote];
        [congruence|].
      apply ensureFileSync_hit_value.
      * now rewrite Ein.
      * rewrite Eremote. unfold Intercept.pathToURL in Hurl.
        intros E. rewrite E in Hurl. discriminate.
      * now rewrite Hca'.
      * exact Hx'.
  - intros FS Node Stream H readFile keeps a p meta ks Hkeep Hread Hs Hc Hx Hks.
    apply accesses_hit_bytes with keeps meta a; try assumption. now repeat split.
  - intros FS Node Stream H readFile keeps a a1 p url data dontFollow st ks Hkeep Hread
      Hwrite Hin Hurl Hmiss Hok Hstat Hks.
    destruct (patchedStat_miss_ok remote a p url data Hin Hurl Hmiss Hok
                dontFollow a1 st Hstat) as (Hm & Hf & (meta & Hc & _ & Hb) & Hx).
    assert (Hbytes : readFile p (Intercept.hostfs a1) = Some data).
    { now apply (patchedStat_miss_bytes remote p readFile a url data Hwrite Hin Hurl
                   Hmiss Hok dontFollow a1 st). }
    split; [exact Hbytes|]. rewrite <- Hbytes.
    apply accesses_hit_bytes with keeps meta a1; try assumption.
    + rewrite Hm. now apply isWithinMount_prefixed.
    + rewrite Hc. apply lookup_insert_eq.
    + now repeat split.
Qed.

Lemma memfs_open_keeps (p : string) (pathArg : PathArg string) (flags : Flags)
    (mode : Z) (fs : MemFS.t) :
  exists_at (Node := string) p fs ->
  exists_at (Node := string) p (host_open pathArg flags mode fs).1.
Proof.
  intros Hx. simpl. unfold MemFS.open.
  destruct (MemFS.path_of pathArg); [|exact Hx].
  now destruct (MemFS.stat_path _ fs).
Qed.

Lemma memfs_truncating_open_keeps (p : string) (pathArg : PathArg string)
    (flags : Flags) (mode : Z) (fs : MemFS.t) :
  @exists_at MemFS.t string string MemFS.host_truncating p fs ->
  @exists_at MemFS.t string string MemFS.host_truncating p
    (MemFS.open_truncating pathArg flags mode fs).1.
Proof.
  unfold exists_at.
  change (@host_stat MemFS.t string string MemFS.host_truncating) with MemFS.stat.
  unfold MemFS.stat, MemFS.path_of, MemFS.open_truncating, MemFS.stat_path.
  intros Hx. destruct (MemFS.path_of pathArg) as [q|]; [|exact Hx].
  destruct (MemFS.files fs !! q) as [d|] eqn:Q.
  - destruct (MemFS.truncates flags); [|exact Hx].
    cbn [fst MemFS.files MemFS.dirs].
    destruct (decide (p = q)) as [->|Hne].
    + rewrite lookup_insert_eq. eauto.
    + rewrite lookup_insert_ne by congruence. exact Hx.
  - now destruct (bool_decide (q ∈ MemFS.dirs fs)).
Qed.

Lemma memfs_truncating_open_reads (p : string) (pathArg : PathArg string)
    (flags : Flags) (mode : Z) (fs : MemFS.t) :
  MemFS.truncates flags = false ->
  MemFS.files (MemFS.open_truncating pathArg flags mode fs).1 !! p
  = MemFS.files fs !! p.
Proof.
  intros Hflags. unfold MemFS.open_truncating. rewrite Hflags.
  destruct (MemFS.path_of pathArg) as [q|]; [|reflexivity].
  destruct (MemFS.stat_path q fs); [|reflexivity].
  now destruct (MemFS.files fs !! q).
Qed.

Lemma cached_path_is_not_fetched_again_witness :
  ((1 <= 3 /\
    NodeTree.cache Examples.tree0 !! NodeTree.child_path None "icanhazip.com" = None /\
    Examples.remote_up (SyncFetch.nextJobId (NodeTree.fetcher Examples.tree0))
      (NodeTree.pathToURL Examples.tree0 (NodeTree.child_path None "icanhazip.com"))
    = Some (SyncFetch.StatusOk ["1"; "."; "2"; "."; "3"; "."; "4"]%byte)) /\
   SyncFetch.count "https://icanhazip.com"
     (NodeTree.fetcher (lookups Examples.remote_up 3 None "icanhazip.com" Examples.tree0))
   = 1) /\
  ((startsWith "/network/x" (Intercept.mountPoint Examples.intercept_cached) = true /\
    exists_at (Node := string) "/network/x" (Intercept.hostfs Examples.intercept_cached)) /\
   Intercept.fetcher
     (accesses Examples.remote_up (PStr "/network/x")
        [ByStat false; ByOpen (FStr "r") None; ByLstat; ByStat true]
        Examples.intercept_cached)
   = Intercept.fetcher Examples.intercept_cached) /\
  ((Intercept.isWithinMount (Examples.intercept0 MemFS.with_tmp_file) "/network/y" = true /\
    Intercept.cache (Examples.intercept0 MemFS.with_tmp_file) !! "/network/y" = None) /\
   SyncFetch.count "https://y"
     (Intercept.fetcher
        (accesses Examples.remote_up (PStr "/network/y")
           [ByOpen (FStr "r") None; ByStat false; ByLstat]
           (Intercept.patchedStat Examples.remote_up (PStr "/network/y") false
              (Examples.intercept0 MemFS.with_tmp_file)).1))
   = 1) /\
  (forallb (reading (fun flags => negb (MemFS.truncates flags)))
     [ByOpen (FStr "r") None; ByOpen (FNum 2) None; ByStat false; ByLstat] = true /\
   MemFS.files
     (Intercept.hostfs
        (@accesses MemFS.t string string MemFS.host_truncating
           Examples.remote_up (PStr "/network/y")
           [ByOpen (FStr "r") None; ByOpen (FNum 2) None; ByStat false; ByLstat]
           (@Intercept.patchedStat MemFS.t string string MemFS.host_truncating
              Examples.remote_up (PStr "/network/y") false
              (Examples.intercept0 MemFS.with_tmp_file)).1))
     !! "/network/y"
   = Some ["1"; "."; "2"; "."; "3"; "."; "4"]%byte).
Proof.
  split; [|split; [|split]].
  - split; [repeat split; lia|].
    apply (proj1 (proj2 (cached_path_is_not_fetched_again Examples.remote_up))
             None "icanhazip.com" Examples.tree0
             ["1"; "."; "2"; "."; "3"; "."; "4"]%byte 3);
      [lia | reflexivity | reflexivity].
  - assert (Hx : exists_at (Node := string) "/network/x"
                   (Intercept.hostfs Examples.intercept_cached)).
    { exists {| st_size := 2; st_mtime := 0 |}. reflexivity. }
    split; [split; [reflexivity | exact Hx]|].
    apply (proj1 (proj2 (proj2 (cached_path_is_not_fetched_again Examples.remote_up)))
             MemFS.t string string MemFS.host Examples.intercept_cached "/network/x"
             {| Intercept.meta_path := "/network/x"; Intercept.meta_url := "https://x";
                Intercept.meta_bytes := 2; Intercept.meta_timestamp := 0 |}
             [ByStat false; ByOpen (FStr "r") None; ByLstat; ByStat true]
             (memfs_open_keeps "/network/x")
             eq_refl eq_refl Hx).
  - split; [split; reflexivity|].
    apply (proj1 (proj2 (proj2 (proj2
                   (cached_path_is_not_fetched_again Examples.remote_up))))
             MemFS.t string string MemFS.host
             (Examples.intercept0 MemFS.with_tmp_file)
             (Intercept.patchedStat Examples.remote_up (PStr "/network/y") false
                (Examples.intercept0 MemFS.with_tmp_file)).1
             "/network/y" "https://y" ["1"; "."; "2"; "."; "3"; "."; "4"]%byte
             false {| st_size := 7; st_mtime := 0 |}
             [ByOpen (FStr "r") None; ByStat false; ByLstat]
             (memfs_open_keeps "/network/y")
             eq_refl eq_refl eq_refl eq_refl).
    vm_compute. reflexivity.
  - split; [reflexivity|].
    apply (proj2 (proj2 (proj2 (proj2 (proj2
                   (cached_path_is_not_fetched_again Examples.remote_up)))))
             MemFS.t string string MemFS.host_truncating
             (fun q fs => MemFS.files fs !! q)
             (fun flags => negb (MemFS.truncates flags))
             (Examples.intercept0 MemFS.with_tmp_file)
             (@Intercept.patchedStat MemFS.t string string MemFS.host_truncating
                Examples.remote_up (PStr "/network/y") false
                (Examples.intercept0 MemFS.with_tmp_file)).1
             "/network/y" "https://y" ["1"; "."; "2"; "."; "3"; "."; "4"]%byte
             false {| st_size := 7; st_mtime := 0 |}
             [ByOpen (FStr "r") None; ByOpen (FNum 2) None; ByStat false; ByLstat]
             (memfs_truncating_open_keeps "/network/y")).
    + intros pathArg flags mode fs Hflags.
      apply memfs_truncating_open_reads. now destruct (MemFS.truncates flags).
    + intros q d fs fs' E. injection E as <-. simpl. apply lookup_insert_eq.
    + reflexivity.
    + reflexivity.
    + reflexivity.
    + reflexivity.
    + vm_compute. reflexivity.
    + reflexivity.
Defined.


(** ** A failed fetch is a missing file *)

Section PatchedFailures.
Context {FS Node Stream : Type} `{!HostFS FS Node Stream}.
Variable remote : SyncFetch.Remote.
Variables (a : Intercept.t FS) (p url : string).
Hypothesis Hin : Intercept.isWithinMount a p = true.
Hypothesis Hurl : Intercept.pathToURL a p = Return url.
Hypothesis Hmiss :
  Intercept.cache a !! p = None
  \/ exists m, host_stat (PStr p) false (Intercept.hostfs a) = Throw (ErrnoError ENOENT m).
Hypothesis Hfail : fetch_fails remote (Intercept.fetcher a) url.

Lemma materialise_fetch_fails :
  exists a' message,
    Intercept.materialise remote (Intercept.normalizePathArg a (PStr p)) true a
    = (a', Throw (ErrnoError ENOENT (Some message))).
Proof.
  destruct (ensureFileSync_fetch_fails remote a p url Hin Hurl Hmiss Hfail)
    as [message He].
  assert (Hp : p <> "").
  { intros ->. unfold Intercept.pathToURL in Hurl.
    rewrite extractRemotePath_empty in Hurl. discriminate. }
  unfold Intercept.normalizePathArg.
  rewrite (normalizeToMount_prefixed a p Hp (isWithinMount_prefixed a p Hin)).
  unfold Intercept.materialise. apply truthy_true in Hp. rewrite Hp. simpl.
  unfold bind. rewrite He. eauto.
Qed.

Lemma patched_entry_points_fail :
  exists message,
    (forall dontFollow, exists a',
        Intercept.patchedStat remote (PStr p) dontFollow a
        = (a', Throw (ErrnoError ENOENT (Some message)))) /\
    (forall flags mode, Intercept.shouldFetchForOpen flags = true -> exists a',
        Intercept.patchedOpen remote (PStr p) flags mode a
        = (a', Throw (ErrnoError ENOENT (Some message)))) /\
    (forall lstat, Intercept.patchedLstat remote = Some lstat -> exists a',
        lstat (PStr p) a = (a', Throw (ErrnoError ENOENT (Some message)))).
Proof.
  destruct materialise_fetch_fails as (a' & message & Hm).
  exists message. split; [|split].
  - intros dontFollow. exists a'.
    unfold Intercept.patchedStat, bind, get. now rewrite Hm.
  - intros flags mode Hwant. exists a'.
    unfold Intercept.patchedOpen, bind, get. now rewrite Hwant, Hm.
  - intros lstat. unfold Intercept.patchedLstat.
    destruct host_lstat as [l|]; [|discriminate].
    intros E. injection E as <-. exists a'.
    unfold bind, get. now rewrite Hm.
Qed.

End PatchedFailures.

(** C5: when the fetch made for a virtual path fails, the caller gets the
    filesystem's missing-entry error and never the bridge's own error: the
    node tree's [lookup] throws [ErrnoError(44)], the restricted [lookup]
    does the same for a registered name, and the patched [stat], [open]
    (for reading) and [lstat] throw [ErrnoError(ENOENT)]. *)
Theorem failed_fetch_is_ENOENT :
  forall remote : SyncFetch.Remote,
    (forall parent name (a : NodeTree.t),
        NodeTree.cache a !! NodeTree.child_path parent name = None ->
        fetch_fails remote (NodeTree.fetcher a)
          (NodeTree.pathToURL a (NodeTree.child_path parent name)) ->
        exists a',
          NodeTree.lookup remote parent name a
          = (a', Throw (ErrnoError 44
                          (Some ("No such file: " +:+ NodeTree.child_path parent name))))) /\
    (forall (known : gmap string string) parent name url (a : NodeTree.t),
        NodeTree.cache a !! Registry.child_path parent name = None ->
        known !! name = Some url -> url <> "" ->
        fetch_fails remote (NodeTree.fetcher a) url ->
        exists a',
          Registry.lookup remote known parent name a
          = (a', Throw (ErrnoError 44
                          (Some ("No such file: " +:+ Registry.child_path parent name))))) /\
    (forall (FS Node Stream : Type) (H : HostFS FS Node Stream)
            (a : Intercept.t FS) (p url : string),
        Intercept.isWithinMount a p = true ->
        Intercept.pathToURL a p = Return url ->
        (Intercept.cache a !! p = None
         \/ exists m, host_stat (PStr p) false (Intercept.hostfs a)
                      = Throw (ErrnoError ENOENT m)) ->
        fetch_fails remote (Intercept.fetcher a) url ->
        exists message,
          (forall dontFollow, exists a',
              Intercept.patchedStat remote (PStr p) dontFollow a
              = (a', Throw (ErrnoError ENOENT (Some message)))) /\
          (forall flags mode, Intercept.shouldFetchForOpen flags = true -> exists a',
              Intercept.patchedOpen remote (PStr p) flags mode a
              = (a', Throw (ErrnoError ENOENT (Some message)))) /\
          (forall lstat, Intercept.patchedLstat remote = Some lstat -> exists a',
              lstat (PStr p) a = (a', Throw (ErrnoError ENOENT (Some message))))).
Proof.
  intros remote. split; [|split].
  - intros parent name a Hc Hfail. eexists.
    now apply lookup_miss_fails.
  - intros known parent name url a Hc Hk Hu Hfail.
    destruct (fetch_throws remote _ _ Hfail) as (nm & msg & Hf).
    eexists. unfold Registry.lookup, bind, get. rewrite Hc.
    unfold Registry.get_property. rewrite Hk. simpl.
    apply truthy_true in Hu. rewrite Hu. simpl.
    unfold try_catch, bind, NodeTree.on_fetcher. rewrite Hf. reflexivity.
  - intros FS Node Stream H a p url Hin Hurl Hmiss Hfail.
    now apply patched_entry_points_fail with url.
Qed.

Lemma failed_fetch_is_ENOENT_witness :
  ((NodeTree.cache Examples.tree0 !! NodeTree.child_path None "icanhazip.com" = None /\
    fetch_fails Examples.remote_down (NodeTree.fetcher Examples.tree0)
      (NodeTree.pathToURL Examples.tree0 (NodeTree.child_path None "icanhazip.com"))) /\
   exists a',
     NodeTree.lookup Examples.remote_down None "icanhazip.com" Examples.tree0
     = (a', Throw (ErrnoError 44 (Some "No such file: icanhazip.com")))) /\
  ((Intercept.isWithinMount (Examples.intercept0 MemFS.with_tmp_file)
      "/network/icanhazip.com" = true /\
    Intercept.pathToURL (Examples.intercept0 MemFS.with_tmp_file)
      "/network/icanhazip.com" = Return "https://icanhazip.com" /\
    Intercept.cache (Examples.intercept0 MemFS.with_tmp_file)
      !! "/network/icanhazip.com" = None /\
    fetch_fails Examples.remote_down
      (Intercept.fetcher (Examples.intercept0 MemFS.with_tmp_file))
      "https://icanhazip.com") /\
   exists message a',
     Intercept.patchedStat Examples.remote_down (PStr "/network/icanhazip.com") false
       (Examples.intercept0 MemFS.with_tmp_file)
     = (a', Throw (ErrnoError 44 (Some message)))).
Proof.
  split.
  - assert (Hfail : fetch_fails Examples.remote_down (NodeTree.fetcher Examples.tree0)
              (NodeTree.pathToURL Examples.tree0
                 (NodeTree.child_path None "icanhazip.com"))).
    { intros data. discriminate. }
    split; [split; [reflexivity | exact Hfail]|].
    apply (proj1 (failed_fetch_is_ENOENT Examples.remote_down)
             None "icanhazip.com" Examples.tree0); [reflexivity | exact Hfail].
  - assert (Hfail : fetch_fails Examples.remote_down
              (Intercept.fetcher (Examples.intercept0 MemFS.with_tmp_file))
              "https://icanhazip.com").
    { intros data. discriminate. }
    split; [repeat split; [exact Hfail]|].
    destruct (proj2 (proj2 (failed_fetch_is_ENOENT Examples.remote_down))
                MemFS.t string string MemFS.host
                (Examples.intercept0 MemFS.with_tmp_file)
                "/network/icanhazip.com" "https://icanhazip.com"
                eq_refl eq_refl (or_introl eq_refl) Hfail)
      as (message & Hstat & _).
    exists message. exact (Hstat false).
Defined.

(** ** Paths outside the mount *)

(** C2 (where the code departs from it): [/tmp/data.txt] is not under the
    mount [/network] and the host's own [stat] finds it.  The patched
    [stat] first rewrites the path to [/network/tmp/data.txt] and asks the
    bridge for [https://tmp/data.txt]; when that request fails it throws
    [ErrnoError(ENOENT)] without calling the original, and when it
    succeeds the bytes are written under the mount before the original is
    called. *)
Theorem patched_stat_outside_mount_fetches :
  Intercept.isWithinMount (Examples.intercept0 MemFS.with_tmp_file) "/tmp/data.txt"
  = false /\
  host_stat (PStr "/tmp/data.txt") false MemFS.with_tmp_file
  = Return {| st_size := 2; st_mtime := 0 |} /\
  Intercept.patchedStat Examples.remote_down (PStr "/tmp/data.txt") false
    (Examples.intercept0 MemFS.with_tmp_file)
  = (Intercept.set_fetcher
       {| SyncFetch.nextJobId := 2; SyncFetch.log := ["https://tmp/data.txt"] |}
       (Examples.intercept0 MemFS.with_tmp_file),
     Throw (ErrnoError 44 (Some "HTTP 404 Not Found"))) /\
  SyncFetch.log (Intercept.fetcher
    (Intercept.patchedStat Examples.remote_up (PStr "/tmp/data.txt") false
       (Examples.intercept0 MemFS.with_tmp_file)).1)
  = ["https://tmp/data.txt"] /\
  MemFS.files (Intercept.hostfs
    (Intercept.patchedStat Examples.remote_up (PStr "/tmp/data.txt") false
       (Examples.intercept0 MemFS.with_tmp_file)).1) !! "/network/tmp/data.txt"
  = Some ["1"; "."; "2"; "."; "3"; "."; "4"]%byte.
Proof. repeat split; vm_compute; reflexivity. Qed.

(** ** Cloning the state *)

Section Clone.
Import Heap.
Implicit Types (h : gmap loc obj) (l : loc) (o : obj).

Lemma alloc_fresh h o h' l :
  alloc h o = (h', l) -> h !! l = None /\ h' = <[l := o]> h.
Proof.
  unfold alloc. intros E. injection E as <- <-. split; [|reflexivity].
  apply not_elem_of_dom, is_fresh.
Qed.

Lemma alloc_extends h o h' l : alloc h o = (h', l) -> h ⊆ h'.
Proof.
  intros E. destruct (alloc_fresh _ _ _ _ E) as [Hl ->].
  now apply insert_subseteq.
Qed.

Lemma alloc_lookup h o h' l : alloc h o = (h', l) -> h' !! l = Some o.
Proof.
  intros E. destruct (alloc_fresh _ _ _ _ E) as [_ ->]. apply lookup_insert_eq.
Qed.

Lemma alloc_new h0 h o h' l : h0 ⊆ h -> alloc h o = (h', l) -> l ∉ dom h0.
Proof.
  intros Hsub E. destruct (alloc_fresh _ _ _ _ E) as [Hl _].
  apply not_elem_of_dom. eapply lookup_weaken_None; eauto.
Qed.

(** C7, as stated, fails: on a state with one message, the message object
    is reachable from the clone and from the original, and an assignment to
    it through the clone changes what the original sees. *)
Lemma clone_shares_message_objects :
  match clone heap_one_message 7%positive with
  | Some (h', c) =>
      reach h' c 1%positive /\
      reach heap_one_message 7%positive 1%positive /\
      assign h' 1%positive (OMessage "user" (State.CText "changed")) !! 1%positive
      <> heap_one_message !! 1%positive
  | None => False
  end.
Proof.
  destruct (clone heap_one_message 7%positive) as [[h' c]|] eqn:E;
    vm_compute in E; [|discriminate].
  injection E as <- <-. split; [|split].
  - eapply reach_step with (l1 := 8%positive);
      [vm_compute; reflexivity | set_solver |].
    eapply reach_step with (l1 := 1%positive);
      [vm_compute; reflexivity | set_solver | apply reach_here].
  - eapply reach_step with (l1 := 2%positive);
      [vm_compute; reflexivity | set_solver |].
    eapply reach_step with (l1 := 1%positive);
      [vm_compute; reflexivity | set_solver | apply reach_here].
  - vm_compute. discriminate.
Qed.

(** C7, amended: [clone()] makes new objects for the state itself and for
    its messages array, [outputCapture], [networkCache], [outputFiles] and
    [metadata], each holding what the original's holds; every object that
    existed before is left as it was, and stays so under any assignment to
    one of these new containers.  (The elements of the messages array are
    the same objects in both.) *)
Theorem clone_makes_fresh_containers :
  forall h this h' c,
    clone h this = Some (h', c) ->
    (forall l, l ∈ dom h -> h' !! l = h !! l) /\
    (forall l, l ∈ containers h' c -> l ∉ dom h) /\
    (forall l o l0, l ∈ containers h' c -> l0 ∈ dom h -> assign h' l o !! l0 = h !! l0) /\
    (exists m sc oc nc ofs d md m' oc' nc' ofs' md',
        h !! this = Some (OState m sc oc nc ofs d md) /\
        h' !! c = Some (OState m' sc oc' nc' ofs' d md') /\
        h' !! m' = h !! m /\ h' !! oc' = h !! oc /\ h' !! nc' = h !! nc /\
        h' !! ofs' = h !! ofs /\ h' !! md' = h !! md).
Proof.
  intros h this h' c. unfold clone.
  destruct (h !! this) as [[| | | | |m sc oc nc ofs d md]|] eqn:Hthis; try discriminate.
  destruct (h !! m) as [[|elems| | | |]|] eqn:Hm; try discriminate.
  destruct (h !! oc) as [[| |so se| | |]|] eqn:Hoc; try discriminate.
  destruct (h !! nc) as [[| | |nce| |]|] eqn:Hnc; try discriminate.
  destruct (h !! ofs) as [[| | |ofe| |]|] eqn:Hofs; try discriminate.
  destruct (h !! md) as [[| | | |t cr lm|]|] eqn:Hmd; try discriminate.
  destruct (alloc h (OArray elems)) as [h1 m'] eqn:A1.
  destruct (alloc h1 (OCapture so se)) as [h2 oc'] eqn:A2.
  destruct (alloc h2 (ODict nce)) as [h3 nc'] eqn:A3.
  destruct (alloc h3 (ODict ofe)) as [h4 ofs'] eqn:A4.
  destruct (alloc h4 (OMeta t cr lm)) as [h5 md'] eqn:A5.
  rewrite or_number_zero, or_boolean_false.
  intros A6. apply (inj Some) in A6.
  assert (S0 : h ⊆ h) by reflexivity.
  assert (S1 : h ⊆ h1) by eauto using alloc_extends.
  assert (S2 : h ⊆ h2) by (etrans; eauto using alloc_extends).
  assert (S3 : h ⊆ h3) by (etrans; eauto using alloc_extends).
  assert (S4 : h ⊆ h4) by (etrans; eauto using alloc_extends).
  assert (S5 : h ⊆ h5) by (etrans; eauto using alloc_extends).
  assert (S6 : h ⊆ h') by (etrans; eauto using alloc_extends).
  assert (Hc : h' !! c = Some (OState m' sc oc' nc' ofs' d md'))
    by eauto using alloc_lookup.
  assert (Hold : forall l, l ∈ dom h -> h' !! l = h !! l).
  { intros l [o Ho]%elem_of_dom. rewrite Ho. eapply lookup_weaken; eauto. }
  assert (Hnew : forall l, l ∈ containers h' c -> l ∉ dom h).
  { intros l. unfold containers. rewrite Hc. simpl.
    rewrite !elem_of_cons, elem_of_nil.
    intros [->|[->|[->|[->|[->|[->|[]]]]]]];
      eauto using alloc_new. }
  split; [exact Hold|]. split; [exact Hnew|]. split.
  - intros l o l0 Hl Hl0. unfold assign.
    rewrite lookup_insert_ne; [now apply Hold|].
    intros ->. now apply (Hnew l0).
  - exists m, sc, oc, nc, ofs, d, md, m', oc', nc', ofs', md'.
    assert (L1 : h1 !! m' = Some (OArray elems)) by eauto using alloc_lookup.
    assert (L2 : h2 !! oc' = Some (OCapture so se)) by eauto using alloc_lookup.
    assert (L3 : h3 !! nc' = Some (ODict nce)) by eauto using alloc_lookup.
    assert (L4 : h4 !! ofs' = Some (ODict ofe)) by eauto using alloc_lookup.
    assert (L5 : h5 !! md' = Some (OMeta t cr lm)) by eauto using alloc_lookup.
    assert (E12 : h1 ⊆ h') by (repeat (etrans; [eapply alloc_extends; eassumption|]); done).
    assert (E22 : h2 ⊆ h') by (repeat (etrans; [eapply alloc_extends; eassumption|]); done).
    assert (E32 : h3 ⊆ h') by (repeat (etrans; [eapply alloc_extends; eassumption|]); done).
    assert (E42 : h4 ⊆ h') by (repeat (etrans; [eapply alloc_extends; eassumption|]); done).
    assert (E52 : h5 ⊆ h') by (eapply alloc_extends; eassumption).
    repeat split; try done.
    + rewrite Hm; eapply lookup_weaken; eauto.
    + rewrite Hoc; eapply lookup_weaken; eauto.
    + rewrite Hnc; eapply lookup_weaken; eauto.
    + rewrite Hofs; eapply lookup_weaken; eauto.
    + rewrite Hmd; eapply lookup_weaken; eauto.
Qed.

Lemma clone_makes_fresh_containers_witness :
  exists h' c,
    clone heap_one_message 7%positive = Some (h', c) /\
    forall l, l ∈ dom heap_one_message -> h' !! l = heap_one_message !! l.
Proof.
  destruct (clone heap_one_message 7%positive) as [[h' c]|] eqn:E;
    [|vm_compute in E; discriminate].
  exists h', c. split; [reflexivity|].
  exact (proj1 (clone_makes_fresh_containers _ _ _ _ E)).
Defined.

End Clone.

(** ** The durable step loop *)

Section CachePaths.

Lemma length_append (a s : string) :
  String.length (a +:+ s) = String.length a + String.length s.
Proof.
  induction a as [|x a IH]; [reflexivity|].
  rewrite append_cons. simpl. now rewrite IH.
Qed.

Lemma append_inj_l (a b s : string) : a +:+ s = b +:+ s -> a = b.
Proof.
  revert b. induction a as [|x a IH]; intros [|y b] E.
  - reflexivity.
  - apply (f_equal String.length) in E.
    rewrite append_nil, append_cons in E. simpl in E.
    rewrite length_append in E. lia.
  - apply (f_equal String.length) in E.
    rewrite append_nil, append_cons in E. simpl in E.
    rewrite length_append in E. lia.
  - rewrite !append_cons in E. injection E as -> E. f_equal. auto.
Qed.

Lemma includes_append (a b : string) (c : ascii) :
  includes (a +:+ b) c = includes a c || includes b c.
Proof.
  induction a as [|d a IH]; [now rewrite append_nil|].
  rewrite append_cons. simpl. now rewrite IH, orb_assoc.
Qed.

Lemma split_nonempty (s : string) : Path.split s <> [].
Proof.
  destruct s as [|c s]; simpl; [discriminate|].
  destruct (Ascii.eqb c "/"); [discriminate|].
  destruct (Path.split s); discriminate.
Qed.

Lemma split_slash_free (s : string) : includes s "/" = false -> Path.split s = [s].
Proof.
  induction s as [|c s IH]; simpl; [reflexivity|].
  intros H. apply orb_false_iff in H as [Hc Hs]. rewrite Hc, (IH Hs). reflexivity.
Qed.

Lemma split_append_slash (a b : string) :
  Path.split (a +:+ "/" +:+ b) = (Path.split a ++ Path.split b)%list.
Proof.
  induction a as [|c a IH].
  - rewrite append_nil, append_cons, append_nil. reflexivity.
  - rewrite append_cons. simpl. rewrite IH.
    destruct (Ascii.eqb c "/"); [reflexivity|].
    pose proof (split_nonempty a) as N.
    destruct (Path.split a); [contradiction|reflexivity].
Qed.

(** A path is its last segment, which holds no slash, after a prefix that
    is empty or ends with a slash. *)
Lemma last_segment (t : string) :
  includes t "/" = false \/
  exists t1 t2, t = t1 +:+ "/" +:+ t2 /\ includes t2 "/" = false.
Proof.
  induction t as [|c t IH]; [now left|].
  destruct IH as [IH|(t1 & t2 & -> & H2)].
  - simpl. destruct (Ascii.eqb_spec c "/") as [->|N].
    + right. exists "", t. rewrite append_nil, append_cons, append_nil. now split.
    + left. exact IH.
  - right. exists (String c t1), t2. rewrite append_cons. now split.
Qed.

Lemma normalizeString_snoc (allowAboveRoot : bool) (segments res : list string)
    (seg : string) :
  Path.ordinary seg ->
  Path.normalizeString allowAboveRoot (segments ++ [seg]) res
  = (Path.normalizeString allowAboveRoot segments res ++ [seg])%list.
Proof.
  intros (H1 & H2 & H3). revert res.
  induction segments as [|x segments IH]; intros res.
  - simpl. destruct (String.eqb_spec seg ".."); [contradiction|].
    destruct (String.eqb_spec seg ""); [contradiction|].
    destruct (String.eqb_spec seg "."); [contradiction|]. reflexivity.
  - simpl. destruct (String.eqb x "..").
    + destruct res as [|top below]; [apply IH|].
      destruct (String.eqb top ".."); apply IH.
    + destruct (String.eqb x "" || String.eqb x "."); apply IH.
Qed.

Lemma join_segments_snoc (l : list string) (seg : string) :
  Path.join_segments (l ++ [seg])
  = match l with
    | [] => seg
    | _ :: _ => Path.join_segments l +:+ "/" +:+ seg
    end.
Proof.
  induction l as [|x l IH]; [reflexivity|].
  simpl. destruct l as [|y l]; [reflexivity|].
  simpl in *. rewrite IH. now rewrite !append_assoc.
Qed.

Lemma endsWithSlash_append (a b : string) :
  b <> "" -> Path.endsWithSlash (a +:+ b) = Path.endsWithSlash b.
Proof.
  intros Hb. induction a as [|c a IH]; [now rewrite append_nil|].
  rewrite append_cons. simpl.
  destruct (a +:+ b) as [|d r] eqn:E; [|exact IH].
  destruct a; [rewrite append_nil in E; contradiction|].
  rewrite append_cons in E. discriminate.
Qed.

Lemma pretty_N_go_no_slash (x : N) (s : string) :
  includes s "/" = false -> includes (pretty_N_go x s) "/" = false.
Proof.
  revert s. induction (N.lt_wf_0 x) as [x _ IH]; intros s Hs.
  assert (x = 0 \/ 0 < x)%N as [->|Hx] by lia.
  - now rewrite pretty_N_go_0.
  - rewrite pretty_N_go_step by exact Hx. apply IH.
    + now apply N.div_lt.
    + simpl. rewrite Hs. unfold pretty_N_char.
      repeat case_match; reflexivity.
Qed.

Lemma pretty_nat_no_slash (n : nat) : includes (pretty n) "/" = false.
Proof.
  unfold pretty, pretty_nat, pretty, pretty_N.
  case_decide; [reflexivity|]. now apply pretty_N_go_no_slash.
Qed.

(** The name of a snapshot file: it holds no slash after the last slash of
    the task id, and it is none of the segments that [normalize] drops. *)
Lemma snapshot_name (last : string) (i : nat) :
  includes last "/" = false ->
  includes (last +:+ "-step-" +:+ pretty i +:+ ".json") "/" = false /\
  Path.ordinary (last +:+ "-step-" +:+ pretty i +:+ ".json").
Proof.
  intros Hl. split.
  - rewrite !includes_append, Hl, pretty_nat_no_slash. reflexivity.
  - assert (L : 2 < String.length (last +:+ "-step-" +:+ pretty i +:+ ".json")).
    { rewrite !length_append. simpl. lia. }
    repeat split; intros E; rewrite E in L; simpl in L; lia.
Qed.

(** [Loop.getCachePath] is a prefix fixed by the task id followed by the file
    name of the step. *)
Lemma getCachePath_shape (taskId : string) :
  exists pre last,
    (includes taskId "/" = false -> pre = Loop.cacheDir +:+ "/" /\ last = taskId) /\
    forall i, Loop.getCachePath taskId i
              = pre +:+ last +:+ "-step-" +:+ pretty i +:+ ".json".
Proof.
  assert (Hdir : forall x, startsWith (Loop.cacheDir +:+ "/" +:+ x) "/" = false).
  { intros x. unfold Loop.cacheDir. now rewrite append_cons. }
  assert (Hne : forall x, String.eqb (Loop.cacheDir +:+ "/" +:+ x) "" = false).
  { intros x. unfold Loop.cacheDir. now rewrite append_cons. }
  assert (Hfile : forall t (i : nat),
             String.eqb (t +:+ "-step-" +:+ pretty i +:+ ".json") "" = false).
  { intros t i. apply String.eqb_neq. intros E.
    apply (f_equal String.length) in E. rewrite !length_append in E. simpl in E. lia. }
  assert (Hend : forall x (i : nat),
             Path.endsWithSlash (x +:+ "-step-" +:+ pretty i +:+ ".json") = false).
  { intros x i.
    repeat rewrite endsWithSlash_append
      by (intros E; apply (f_equal String.length) in E;
          rewrite ?length_append in E; simpl in E; lia).
    reflexivity. }
  assert (Hjoin : forall (pre_segments : list string) (t name : string),
             Path.ordinary name ->
             Path.split (Loop.cacheDir +:+ "/" +:+ t) = (pre_segments ++ [name])%list ->
             Path.endsWithSlash (Loop.cacheDir +:+ "/" +:+ t) = false ->
             Path.normalize (Loop.cacheDir +:+ "/" +:+ t)
             = match Path.normalizeString true pre_segments [] with
               | [] => name
               | (_ :: _) as l => Path.join_segments l +:+ "/" +:+ name
               end).
  { intros pre_segments t name Ho Hs He. unfold Path.normalize.
    rewrite Hne, Hdir, He, Hs. cbn [negb].
    rewrite (normalizeString_snoc _ _ _ _ Ho), join_segments_snoc.
    destruct Ho as (Ho & _).
    destruct (Path.normalizeString true pre_segments []) as [|y l].
    - now rewrite (proj2 (String.eqb_neq _ _) Ho).
    - match goal with |- (if String.eqb ?p "" then _ else _) = _ =>
        assert (P : String.eqb p "" = false) end.
      { apply String.eqb_neq. intros E. apply (f_equal String.length) in E.
        rewrite !length_append in E. simpl in E. lia. }
      now rewrite P. }
  unfold Loop.getCachePath, Path.join.
  change (String.eqb Loop.cacheDir "") with false. cbv iota.
  destruct (last_segment taskId) as [Hfree|(t1 & t2 & -> & Hfree)].
  - exists (Loop.cacheDir +:+ "/"), taskId. split; [now split|]. intros i.
    rewrite Hfile.
    destruct (snapshot_name taskId i Hfree) as [Hs Ho].
    rewrite (Hjoin [Loop.cacheDir] _ _ Ho).
    + simpl. now rewrite !append_assoc.
    + rewrite split_append_slash, (split_slash_free _ Hs). reflexivity.
    + rewrite 2!endsWithSlash_append
        by (intros E; apply (f_equal String.length) in E;
            rewrite ?length_append in E; simpl in E; lia).
      apply Hend.
  - set (pre_segments := (Path.split Loop.cacheDir ++ Path.split t1)%list).
    exists (match Path.normalizeString true pre_segments [] with
            | [] => ""
            | (_ :: _) as l => Path.join_segments l +:+ "/"
            end), t2.
    split.
    { intros H. rewrite !includes_append in H. simpl in H.
      rewrite orb_true_r in H. discriminate. }
    intros i. rewrite Hfile.
    destruct (snapshot_name t2 i Hfree) as [Hs Ho].
    replace (Loop.cacheDir +:+ "/" +:+ (t1 +:+ "/" +:+ t2) +:+ "-step-"
             +:+ pretty i +:+ ".json")
      with (Loop.cacheDir +:+ "/" +:+ (t1 +:+ "/" +:+ t2 +:+ "-step-"
                                       +:+ pretty i +:+ ".json"))
      by (now rewrite !append_assoc).
    rewrite (Hjoin pre_segments _ _ Ho).
    + destruct (Path.normalizeString true pre_segments []);
        [now rewrite append_nil | now rewrite !append_assoc].
    + rewrite !split_append_slash, (split_slash_free _ Hs).
      unfold pre_segments. now rewrite app_assoc.
    + rewrite 4!endsWithSlash_append
        by (intros E; apply (f_equal String.length) in E;
            rewrite ?length_append in E; simpl in E; lia).
      apply Hend.
Qed.

Lemma getCachePath_inj (taskId : string) (i j : nat) :
  Loop.getCachePath taskId i = Loop.getCachePath taskId j -> i = j.
Proof.
  destruct (getCachePath_shape taskId) as (pre & last & _ & Hshape).
  rewrite !Hshape. intros E.
  do 3 apply append_inj_r in E. apply append_inj_l in E.
  now apply (inj pretty) in E.
Qed.

(** For a task id without a slash the file lies in the cache directory
    itself and [path.join] only puts the separator in. *)
Lemma getCachePath_plain (taskId : string) (i : nat) :
  includes taskId "/" = false ->
  Loop.getCachePath taskId i
  = Loop.cacheDir +:+ "/" +:+ taskId +:+ "-step-" +:+ pretty i +:+ ".json".
Proof.
  intros Hfree.
  destruct (getCachePath_shape taskId) as (pre & last & Hplain & Hshape).
  destruct (Hplain Hfree) as [-> ->]. rewrite Hshape. now rewrite !append_assoc.
Qed.

Lemma loadState_saveState (now now' : Z) (taskId : string) (j : nat)
    (s : State.AgentState) (disk : gmap string Loop.FileContent) :
  Loop.loadState now taskId j (Loop.saveState now' taskId j s disk)
  = Some (State.deserialize now (State.serialize now' s)).
Proof. unfold Loop.loadState, Loop.saveState. now rewrite lookup_insert_eq. Qed.

Lemma loadState_insert_ne (now : Z) (taskId : string) (i j : nat)
    (file : Loop.FileContent) (disk : gmap string Loop.FileContent) :
  i <> j ->
  Loop.loadState now taskId i (<[Loop.getCachePath taskId j := file]> disk)
  = Loop.loadState now taskId i disk.
Proof.
  intros Hne. unfold Loop.loadState.
  rewrite lookup_insert_ne; [reflexivity|].
  intros E. apply getCachePath_inj in E. congruence.
Qed.

Lemma loadState_saveState_ne (now now' : Z) (taskId : string) (i j : nat)
    (s : State.AgentState) (disk : gmap string Loop.FileContent) :
  i <> j ->
  Loop.loadState now taskId i (Loop.saveState now' taskId j s disk)
  = Loop.loadState now taskId i disk.
Proof. apply loadState_insert_ne. Qed.

Lemma stepCount_round_trip (now now' : Z) (s : State.AgentState) :
  State.stepCount (State.deserialize now (State.serialize now' s)) = State.stepCount s.
Proof. unfold State.deserialize. now rewrite constructor_serialize. Qed.

Lemma done_round_trip (now now' : Z) (s : State.AgentState) :
  State.done (State.deserialize now (State.serialize now' s)) = State.done s.
Proof. unfold State.deserialize. now rewrite constructor_serialize. Qed.

End CachePaths.

Section StepFacts.
Import State Loop.
Context {Env : Type} `{!Collaborators Env}.
Implicit Types (r : Run Env).

Lemma same_progress_refl r : same_progress r r.
Proof. now repeat split. Qed.

Lemma same_progress_trans r1 r2 r3 :
  same_progress r1 r2 -> same_progress r2 r3 -> same_progress r1 r3.
Proof.
  intros (A1 & A2 & A3 & A4) (B1 & B2 & B3 & B4).
  repeat split; congruence.
Qed.

Lemma handlers_progress (out err : string) r : same_progress r (handlers out err r).
Proof. unfold handlers. destruct (captureRef r); now repeat split. Qed.

Lemma executePythonCode_progress (code : string) r :
  same_progress r (executePythonCode code r).1.
Proof.
  unfold executePythonCode.
  destruct (run_python code (env r) (live r)) as [[e' l'] outcome].
  pose proof (handlers_progress (py_stdout outcome) (py_stderr outcome)
                (set_live l' (set_env e' r))) as (A1 & A2 & A3 & A4).
  simpl in *. repeat split; simpl; congruence.
Qed.

Lemma run_tools_progress (blocks : list Block) r :
  same_progress r (run_tools blocks r).1.
Proof.
  revert r. induction blocks as [|b blocks IH]; intros r; [apply same_progress_refl|].
  destruct b as [text|id name code|id res]; simpl; try apply IH.
  destruct (String.eqb name "execute_python").
  - pose proof (executePythonCode_progress code r) as Hp.
    destruct (executePythonCode code r) as [r' res]. simpl in Hp.
    pose proof (IH r') as Hq. destruct (run_tools blocks r') as [r2 results].
    simpl in *. now apply same_progress_trans with r'.
  - pose proof (IH r) as Hq. destruct (run_tools blocks r) as [r2 results].
    exact Hq.
Qed.

(** One executed step: the counter advances by one, the collaborator is
    invoked once, the disk is not written, and [done] is set exactly when
    the step reports it. *)
Lemma runAgenticStep_spec r r' (res : result bool) :
  runAgenticStep r = (r', res) ->
  stepCount (state r') = S (stepCount (state r)) /\
  disk r' = disk r /\
  invoked r' = (invoked r ++ [S (stepCount (state r))])%list /\
  (res = Return true -> done (state r') = true) /\
  (res = Return false -> done (state r') = done (state r)).
Proof.
  unfold runAgenticStep. simpl.
  destruct (create_message _ _) as [e' [response|error]].
  - destruct (stop_reason response).
    + intros E. injection E as <- <-. simpl. repeat split; congruence.
    + match goal with |- context [run_tools ?b ?x] =>
        pose proof (run_tools_progress b x) as (A1 & A2 & A3 & A4);
        destruct (run_tools b x) as [r2 toolResults] end.
      simpl in *. intros E. injection E as <- <-. simpl.
      repeat split; try congruence.
    + intros E. injection E as <- <-. simpl. repeat split; congruence.
  - intros E. injection E as <- <-. simpl. repeat split; congruence.
Qed.

Lemma loop_unfold (fuel : nat) (taskId : string) (options : Options) r :
  loop fuel taskId options r
  = if Nat.ltb (stepCount (state r)) (maxSteps options) then
      match fuel with
      | O => (r, OutOfFuel)
      | S fuel' =>
          match iteration taskId options r with
          | (r', Continue) => loop fuel' taskId options r'
          | (r', Break) => (r', Finished)
          | (r', Raised e) => (r', Thrown e)
          end
      end
    else (r, Finished).
Proof. now destruct fuel. Qed.

Section Iteration.
Variables (taskId : string) (options : Options).
Hypothesis Hcache : useCache options = true.

(** A snapshot for the next step is adopted, and nothing is executed. *)
Lemma iteration_hit r (cached : AgentState) :
  loadState (clock (env r)) taskId (stepCount (state r) + 1) (disk r) = Some cached ->
  exists r',
    iteration taskId options r = (r', if done cached then Break else Continue) /\
    state r' = cached /\ invoked r' = invoked r /\ disk r' = disk r /\ env r' = env r.
Proof.
  intros Hload. unfold iteration. cbv zeta.
  eexists. split; [rewrite Hcache, Hload; reflexivity|]. now repeat split.
Qed.

(** Without a snapshot the step is executed and its state persisted under
    the next step number. *)
Lemma iteration_miss r :
  loadState (clock (env r)) taskId (stepCount (state r) + 1) (disk r) = None ->
  exists r1 res,
    runAgenticStep r = (r1, res) /\
    match res with
    | Throw e => iteration taskId options r = (r1, Raised e)
    | Return result_done =>
        iteration taskId options r
        = (set_disk (saveState (clock (env r1)) taskId (stepCount (state r) + 1)
                       (state r1) (disk r)) r1,
           if result_done then Break else Continue)
    end.
Proof.
  intros Hload. unfold iteration. cbv zeta.
  destruct (runAgenticStep r) as [r1 res] eqn:E.
  destruct (runAgenticStep_spec _ _ _ E) as (Hs & Hd & _).
  exists r1, res. split; [reflexivity|].
  rewrite Hcache, Hload.
  destruct res as [b|e]; [|reflexivity].
  rewrite Hs, Hd.
  now replace (stepCount (state r) + 1) with (S (stepCount (state r))) by lia.
Qed.

End Iteration.

End StepFacts.

Section Resume.
Import State Loop.
Context {Env : Type} `{!Collaborators Env}.
Variables (taskId : string) (options : Options).
Hypothesis Hcache : useCache options = true.
Implicit Types (r : Run Env).

Lemma snapshots_extend (now' : Z) (disk : gmap string FileContent) (c0 c : nat)
    (s : AgentState) :
  snapshots_upto disk taskId c0 c -> none_done disk taskId c0 ->
  stepCount s = S c ->
  snapshots_upto (saveState now' taskId (S c) s disk) taskId c0 (S c).
Proof.
  intros (Hle & Hin & Hout) Hnd Hs. split; [lia|]. split.
  - intros now j Hj. destruct (decide (j = S c)) as [->|Hne].
    + rewrite loadState_saveState. eexists. split; [reflexivity|].
      now rewrite stepCount_round_trip.
    + rewrite loadState_saveState_ne by exact Hne.
      destruct (Hin now j ltac:(lia)) as (s' & Hl & Hc & _).
      exists s'. repeat split; try assumption.
      intros Hd. rewrite (Hnd now j s' ltac:(lia) Hl) in Hd. discriminate.
  - intros now j Hj. rewrite loadState_saveState_ne by lia. apply Hout. lia.
Qed.

Lemma none_done_extend (now' : Z) (disk : gmap string FileContent) (c0 j : nat)
    (s : AgentState) :
  none_done disk taskId c0 -> done s = false ->
  none_done (saveState now' taskId j s disk) taskId c0.
Proof.
  intros Hnd Hs now i s' Hi. destruct (decide (i = j)) as [->|Hne].
  - rewrite loadState_saveState. intros E. injection E as <-.
    now rewrite done_round_trip.
  - rewrite loadState_saveState_ne by exact Hne. now apply Hnd.
Qed.

Section Restart.
Variables (initialState : AgentState).
Hypothesis Hkeep : clearCacheOnStart options = false.
Hypothesis Hopen : done initialState = false.

Lemma start_spec (disk0 : gmap string FileContent) (env0 : Env) :
  let r := start taskId initialState options disk0 env0 in
  stepCount (state r) = stepCount initialState /\
  done (state r) = false /\ disk r = disk0 /\ invoked r = [].
Proof.
  unfold start. rewrite Hkeep.
  destruct initialState as [m c oc nc ofs d md]. simpl in *. subst d.
  repeat split. now destruct c.
Qed.

(** A snapshot file torn by the kill does not load and changes nothing. *)
Lemma torn_write_is_no_snapshot (disk0 : gmap string FileContent) (c0 k : nat) :
  snapshots_upto disk0 taskId c0 k ->
  snapshots_upto (<[getCachePath taskId (S k) := Garbled]> disk0) taskId c0 k.
Proof.
  intros (Hle & Hin & Hout). split; [exact Hle|]. split.
  - intros now j Hj. rewrite loadState_insert_ne by lia. now apply Hin.
  - intros now j Hj. destruct (decide (j = S k)) as [->|Hne].
    + unfold loadState. now rewrite lookup_insert_eq.
    + rewrite loadState_insert_ne by exact Hne. now apply Hout.
Qed.

End Restart.

End Resume.

Section ResumeExecution.
Import State Loop.
Context {Env : Type} `{!Collaborators Env}.
Variables (taskId : string) (options : Options).
Hypothesis Hcache : useCache options = true.
Implicit Types (r : Run Env).

Lemma iteration_miss_run r :
  loadState (clock (env r)) taskId (stepCount (state r) + 1) (disk r) = None ->
  iteration taskId options r
  = match runAgenticStep r with
    | (r1, Throw e) => (r1, Raised e)
    | (r1, Return result_done) =>
        (set_disk (saveState (clock (env r1)) taskId (stepCount (state r1))
                     (state r1) (disk r1)) r1,
         if result_done then Break else Continue)
    end.
Proof.
  intros Hload. unfold iteration. cbv zeta. rewrite Hcache, Hload.
  destruct (runAgenticStep r) as [r1 [b|e]]; reflexivity.
Qed.

(** Past the last snapshot the loop is the execution of the remaining
    steps. *)
Lemma loop_is_executes (fuel : nat) r :
  (forall now j, stepCount (state r) < j -> loadState now taskId j (disk r) = None) ->
  maxSteps options - stepCount (state r) <= fuel ->
  loop fuel taskId options r
  = executes (maxSteps options - stepCount (state r)) taskId r.
Proof.
  revert r. induction fuel as [|fuel IH]; intros r Hnone Hfuel; rewrite loop_unfold;
    destruct (Nat.ltb_spec (stepCount (state r)) (maxSteps options)) as [Hlt|Hge];
    try lia.
  - now replace (maxSteps options - stepCount (state r)) with 0 by lia.
  - rewrite iteration_miss_run by (apply Hnone; lia).
    replace (maxSteps options - stepCount (state r))
      with (S (maxSteps options - S (stepCount (state r)))) by lia.
    cbn [executes].
    destruct (runAgenticStep r) as [r1 [d|e]] eqn:E; [|reflexivity].
    destruct (runAgenticStep_spec _ _ _ E) as (Hs & Hd & _).
    destruct d; [reflexivity|].
    rewrite IH.
    + cbn [state set_disk]. now rewrite Hs.
    + cbn [state disk set_disk]. intros now j Hj.
      rewrite loadState_saveState_ne by lia. rewrite Hd. apply Hnone. lia.
    + cbn [state set_disk]. lia.
  - now replace (maxSteps options - stepCount (state r)) with 0 by lia.
Qed.

(** On a disk without snapshots ahead, the first iterations of the loop
    are the execution of as many steps. *)
Lemma iterations_is_executes (n : nat) r :
  (forall now j, stepCount (state r) < j -> loadState now taskId j (disk r) = None) ->
  iterations n taskId options r
  = (executes (Nat.min n (maxSteps options - stepCount (state r))) taskId r).1.
Proof.
  revert r. induction n as [|n IH]; intros r Hnone; [reflexivity|].
  cbn [iterations].
  destruct (Nat.ltb_spec (stepCount (state r)) (maxSteps options)) as [Hlt|Hge].
  - rewrite iteration_miss_run by (apply Hnone; lia).
    replace (Nat.min (S n) (maxSteps options - stepCount (state r)))
      with (S (Nat.min n (maxSteps options - S (stepCount (state r))))) by lia.
    cbn [executes].
    destruct (runAgenticStep r) as [r1 [d|e]] eqn:E; [|reflexivity].
    destruct (runAgenticStep_spec _ _ _ E) as (Hs & Hd & _).
    destruct d; [reflexivity|].
    rewrite IH.
    + cbn [state set_disk]. now rewrite Hs.
    + cbn [state disk set_disk]. intros now j Hj.
      rewrite loadState_saveState_ne by lia. rewrite Hd. apply Hnone. lia.
  - now replace (Nat.min (S n) (maxSteps options - stepCount (state r))) with 0 by lia.
Qed.

(** What an execution of [n] steps does: the collaborator is invoked for
    consecutive steps, at least once, and for all [n] unless the task
    finishes or a step throws. *)
Lemma executes_invoked (n : nat) r :
  let end_ := executes n taskId r in
  invoked end_.1
  = (invoked r ++ seq (S (stepCount (state r)))
                    (stepCount (state end_.1) - stepCount (state r)))%list /\
  stepCount (state r) <= stepCount (state end_.1) <= stepCount (state r) + n /\
  (1 <= n -> S (stepCount (state r)) <= stepCount (state end_.1)) /\
  end_.2 <> OutOfFuel /\
  (end_.2 = Finished -> done (state end_.1) = false ->
   stepCount (state end_.1) = stepCount (state r) + n).
Proof.
  revert r. induction n as [|n IH]; intros r; cbn zeta.
  - cbn. rewrite Nat.sub_diag. cbn. rewrite app_nil_r.
    repeat split; try lia; discriminate.
  - cbn [executes].
    destruct (runAgenticStep r) as [r1 [d|e]] eqn:E;
      destruct (runAgenticStep_spec _ _ _ E) as (Hs & Hd & Hi & Ht & Hf).
    + destruct d.
      * cbn. rewrite Hs, Hi.
        replace (S (stepCount (state r)) - stepCount (state r)) with 1 by lia.
        repeat split; try lia; try discriminate.
        intros _ Hdone. rewrite Ht in Hdone by reflexivity. discriminate.
      * match goal with |- context [executes n taskId ?x] =>
          specialize (IH x); cbn zeta in IH; cbn [state set_disk invoked] in IH;
          destruct IH as (I1 & I2 & I3 & I4 & I5); set (e := executes n taskId x) in * end.
        rewrite Hs in *. rewrite I1, Hi, <- app_assoc.
        repeat split; try lia; try assumption.
        -- f_equal.
           replace (stepCount (state e.1) - stepCount (state r))
             with (S (stepCount (state e.1) - S (stepCount (state r)))) by lia.
           reflexivity.
        -- intros F D. specialize (I5 F D). lia.
    + cbn. rewrite Hs, Hi.
      replace (S (stepCount (state r)) - stepCount (state r)) with 1 by lia.
      repeat split; try lia; discriminate.
Qed.

(** The snapshots an execution leaves: those of the steps that returned. *)
Lemma executes_snapshots (c0 n : nat) r :
  c0 <= stepCount (state r) -> done (state r) = false ->
  snapshots_upto (disk r) taskId c0 (stepCount (state r)) ->
  none_done (disk r) taskId c0 ->
  let end_ := executes n taskId r in
  exists k,
    snapshots_upto (disk end_.1) taskId c0 k /\
    k <= stepCount (state end_.1) <= S k /\
    ((forall e, end_.2 <> Thrown e) -> k = stepCount (state end_.1)).
Proof.
  revert r. induction n as [|n IH]; intros r Hc Hdone Hsnap Hnd; cbn zeta.
  - exists (stepCount (state r)). cbn.
    split; [exact Hsnap|]. split; [lia|]. reflexivity.
  - cbn [executes].
    destruct (runAgenticStep r) as [r1 [d|e]] eqn:E;
      destruct (runAgenticStep_spec _ _ _ E) as (Hs & Hd & Hi & Ht & Hf).
    + assert (Hsnap1 : snapshots_upto
                (saveState (clock (env r1)) taskId (stepCount (state r1)) (state r1)
                   (disk r1)) taskId c0 (stepCount (state r1))).
      { rewrite Hs, Hd. apply snapshots_extend; assumption. }
      destruct d.
      * exists (stepCount (state r1)). cbn.
        split; [exact Hsnap1|]. split; [lia|]. reflexivity.
      * apply IH; cbn [state disk set_disk].
        -- lia.
        -- rewrite Hf; [assumption|reflexivity].
        -- exact Hsnap1.
        -- rewrite Hd. apply none_done_extend; [assumption|].
           rewrite Hf; [assumption|reflexivity].
    + exists (stepCount (state r)). cbn. rewrite Hd, Hs.
      split; [exact Hsnap|]. split; [lia|].
      intros Hno. now destruct (Hno e).
Qed.

Lemma runAgenticStep_never_stops r :
  never_stops -> exists r1, runAgenticStep r = (r1, Return false).
Proof.
  intros Hn. unfold runAgenticStep. cbv zeta.
  match goal with |- context [create_message ?m ?e] =>
    destruct (Hn m e) as (e' & response & Hc & Hs); rewrite Hc end.
  destruct (stop_reason response); [contradiction| |]; eauto.
  match goal with |- context [run_tools ?b ?x] => destruct (run_tools b x) end.
  eauto.
Qed.

Lemma executes_never_stops (n : nat) r :
  never_stops -> done (state r) = false ->
  let end_ := executes n taskId r in
  end_.2 = Finished /\ done (state end_.1) = false /\
  stepCount (state end_.1) = stepCount (state r) + n.
Proof.
  intros Hn. revert r. induction n as [|n IH]; intros r Hdone; cbn zeta.
  - cbn. repeat split; [assumption | lia].
  - cbn [executes].
    destruct (runAgenticStep_never_stops r Hn) as [r1 E]. rewrite E.
    destruct (runAgenticStep_spec _ _ _ E) as (Hs & Hd & Hi & Ht & Hf).
    match goal with |- context [executes n taskId ?x] =>
      destruct (IH x) as (I1 & I2 & I3) end.
    { cbn. rewrite Hf; [assumption|reflexivity]. }
    cbn [state set_disk] in I3. repeat split; try assumption. lia.
Qed.

(** Up to the last snapshot the iterations adopt the snapshots and execute
    nothing. *)
Lemma replay (c0 k : nat) :
  k <= maxSteps options ->
  forall d r,
    d = k - stepCount (state r) ->
    c0 <= stepCount (state r) <= k ->
    done (state r) = false ->
    invoked r = [] ->
    snapshots_upto (disk r) taskId c0 k ->
    let r' := iterations d taskId options r in
    invoked r' = [] /\ disk r' = disk r /\ env r' = env r /\
    stepCount (state r') = k /\
    (stepCount (state r) < k ->
     loadState (clock (env r)) taskId k (disk r) = Some (state r')) /\
    (stepCount (state r) = k -> r' = r) /\
    forall fuel, d <= fuel ->
      loop fuel taskId options r
      = if done (state r') then (r', Finished) else loop (fuel - d) taskId options r'.
Proof.
  intros Hk. induction d as [|d IH]; intros r Hd Hc Hdone Hinv Hsnap; cbn zeta.
  - cbn [iterations].
    split; [exact Hinv|]. split; [reflexivity|]. split; [reflexivity|].
    split; [lia|]. split; [lia|]. split; [reflexivity|].
    intros fuel _. rewrite Hdone. now rewrite Nat.sub_0_r.
  - cbn [iterations].
    destruct (Nat.ltb_spec (stepCount (state r)) (maxSteps options)) as [Hlt|Hge];
      [|lia].
    destruct Hsnap as (Hle & Hin & Hout).
    destruct (Hin (clock (env r)) (stepCount (state r) + 1) ltac:(lia))
      as (s & Hload & Hs & Hlast).
    destruct (iteration_hit taskId options Hcache r s Hload)
      as (r1 & Hit & Hst & Hi & Hdk & He).
    rewrite Hit. destruct (done s) eqn:Hds.
    + assert (Ek : stepCount (state r) + 1 = k) by (now apply Hlast).
      split; [congruence|]. split; [exact Hdk|]. split; [exact He|].
      split; [rewrite Hst; lia|]. split; [|split; [lia|]].
      * intros _. rewrite <- Ek, Hst. exact Hload.
      * intros [|fuel] Hfuel; [lia|]. rewrite loop_unfold.
        rewrite (proj2 (Nat.ltb_lt _ _) Hlt), Hit, Hst, Hds. reflexivity.
    + destruct (IH r1) as (I1 & I2 & I3 & I4 & I5 & I6 & I7).
      * rewrite Hst, Hs. lia.
      * rewrite Hst, Hs. lia.
      * now rewrite Hst.
      * congruence.
      * rewrite Hdk. now repeat split.
      * split; [exact I1|]. split; [congruence|]. split; [congruence|].
        split; [exact I4|]. split; [|split; [lia|]].
        -- intros _. destruct (decide (stepCount (state r1) = k)) as [E|N].
           ++ rewrite (I6 E), Hst. rewrite Hst, Hs in E. now rewrite <- E.
           ++ rewrite <- He, <- Hdk. apply I5. rewrite Hst, Hs in *. lia.
        -- intros [|fuel] Hfuel; [lia|]. rewrite loop_unfold.
           rewrite (proj2 (Nat.ltb_lt _ _) Hlt), Hit.
           rewrite I7 by lia. reflexivity.
Qed.

End ResumeExecution.

(** C1: with the state cache in use and a task id without a slash (its
    snapshot files lie in the cache directory that [ensureCacheDir]
    creates), one iteration of the loop at step count [n] first looks up
    the snapshot of step [n+1].  If one loads, it becomes the current state
    and nothing is executed: the reasoning collaborator is not invoked and
    the disk is not written.  If none loads, the step is executed: the
    collaborator is invoked for step [n+1] and the step count becomes
    [n+1]; when the step returns, the resulting state is persisted under
    [(taskId, n+1)], and when it throws, the error leaves the loop and
    nothing is written.  Hence a run of an unfinished task that started
    without snapshots and is killed after [n] iterations is the execution
    of these steps, and leaves on disk the snapshots of the steps [1..k]
    that returned and no other (a snapshot file torn by the kill counts as
    none).  A restart with the same task id on such a disk adopts the
    snapshots up to [k] without invoking the collaborator and then is the
    execution of the [maxSteps - k] remaining steps from the adopted
    state: the collaborator is invoked for the steps [k+1], [k+2], ... in
    order, for step [k+1] at least, and for none of [1..k]; the run ends,
    at [maxSteps] unless the task finished or a step threw; with a
    collaborator that always answers and never ends the turn it is invoked
    exactly [maxSteps - k] times. *)
Theorem resume_reexecutes_from_next_step :
  forall (Env : Type) (C : Loop.Collaborators Env)
         (taskId : string) (options : Loop.Options),
    Loop.useCache options = true ->
    includes taskId "/" = false ->
    (forall (r : Loop.Run Env) cached,
        Loop.loadState (Loop.clock (Loop.env r)) taskId
          (State.stepCount (Loop.state r) + 1) (Loop.disk r) = Some cached ->
        exists r' step,
          Loop.iteration taskId options r = (r', step) /\
          Loop.state r' = cached /\
          Loop.invoked r' = Loop.invoked r /\
          Loop.disk r' = Loop.disk r /\
          Loop.env r' = Loop.env r) /\
    (forall (r : Loop.Run Env),
        Loop.loadState (Loop.clock (Loop.env r)) taskId
          (State.stepCount (Loop.state r) + 1) (Loop.disk r) = None ->
        exists r1 res,
          Loop.runAgenticStep r = (r1, res) /\
          State.stepCount (Loop.state r1) = State.stepCount (Loop.state r) + 1 /\
          Loop.invoked r1
          = (Loop.invoked r ++ [State.stepCount (Loop.state r) + 1])%list /\
          match res with
          | Return result_done =>
              let saved :=
                Loop.saveState (Loop.clock (Loop.env r1)) taskId
                  (State.stepCount (Loop.state r) + 1) (Loop.state r1) (Loop.disk r) in
              Loop.iteration taskId options r
              = (Loop.set_disk saved r1,
                 if result_done then Loop.Break else Loop.Continue) /\
              forall now,
                Loop.loadState now taskId (State.stepCount (Loop.state r) + 1) saved
                = Some (State.deserialize now
                          (State.serialize (Loop.clock (Loop.env r1)) (Loop.state r1)))
          | Throw e =>
              Loop.iteration taskId options r = (r1, Loop.Raised e) /\
              Loop.disk r1 = Loop.disk r
          end) /\
    (forall (initialState : State.AgentState),
        Loop.clearCacheOnStart options = false ->
        State.done initialState = false ->
        let c0 := State.stepCount initialState in
        (forall (disk0 : gmap string Loop.FileContent) (env0 : Env) (n : nat),
            (forall now j, c0 < j -> Loop.loadState now taskId j disk0 = None) ->
            let r0 := Loop.start taskId initialState options disk0 env0 in
            let killed := Loop.iterations n taskId options r0 in
            let run := executes (Nat.min n (Loop.maxSteps options - c0)) taskId r0 in
            killed = run.1 /\
            Loop.invoked killed
            = seq (S c0) (State.stepCount (Loop.state killed) - c0) /\
            exists k,
              snapshots_upto (Loop.disk killed) taskId c0 k /\
              k <= State.stepCount (Loop.state killed) <= S k /\
              ((forall e, run.2 <> Loop.Thrown e) ->
               k = State.stepCount (Loop.state killed))) /\
        (forall (disk0 : gmap string Loop.FileContent) (k : nat),
            snapshots_upto disk0 taskId c0 k ->
            snapshots_upto (<[Loop.getCachePath taskId (S k) := Loop.Garbled]> disk0)
              taskId c0 k) /\
        (forall (disk0 : gmap string Loop.FileContent) (env1 : Env) (k fuel : nat),
            snapshots_upto disk0 taskId c0 k ->
            k <= Loop.maxSteps options ->
            Loop.maxSteps options - c0 <= fuel ->
            let adopted :=
              Loop.iterations (k - c0) taskId options
                (Loop.start taskId initialState options disk0 env1) in
            let end_ := Loop.agenticLoop fuel taskId initialState options disk0 env1 in
            (Loop.invoked adopted = [] /\
             Loop.disk adopted = disk0 /\
             Loop.env adopted = env1 /\
             State.stepCount (Loop.state adopted) = k /\
             (c0 < k -> Loop.loadState (Loop.clock env1) taskId k disk0
                        = Some (Loop.state adopted))) /\
            end_ = (if State.done (Loop.state adopted) then (adopted, Loop.Finished)
                    else executes (Loop.maxSteps options - k) taskId adopted) /\
            (State.done (Loop.state adopted) = false ->
             Loop.invoked end_.1
             = seq (S k) (State.stepCount (Loop.state end_.1) - k) /\
             k <= State.stepCount (Loop.state end_.1) <= Loop.maxSteps options /\
             (k < Loop.maxSteps options -> S k <= State.stepCount (Loop.state end_.1)) /\
             end_.2 <> Loop.OutOfFuel /\
             (end_.2 = Loop.Finished -> State.done (Loop.state end_.1) = false ->
              State.stepCount (Loop.state end_.1) = Loop.maxSteps options) /\
             (never_stops ->
              end_.2 = Loop.Finished /\
              Loop.invoked end_.1 = seq (S k) (Loop.maxSteps options - k))))).
Proof.
  intros Env C taskId options Hcache _. split; [|split].
  - intros r cached Hload.
    destruct (iteration_hit taskId options Hcache r cached Hload) as (r' & Hit & H').
    now exists r', (if State.done cached then Loop.Break else Loop.Continue).
  - intros r Hload.
    pose proof (iteration_miss_run taskId options Hcache r Hload) as Hit.
    destruct (Loop.runAgenticStep r) as [r1 res] eqn:Hrun.
    destruct (runAgenticStep_spec _ _ _ Hrun) as (Hs & Hd & Hi & _).
    exists r1, res. split; [reflexivity|].
    replace (State.stepCount (Loop.state r) + 1)
      with (S (State.stepCount (Loop.state r))) by lia.
    split; [exact Hs|]. split; [exact Hi|].
    destruct res as [d|e].
    + cbn zeta. rewrite Hit, Hs, Hd. split; [reflexivity|].
      intros now. apply loadState_saveState.
    + now split.
  - intros initialState Hkeep Hopen c0. subst c0. split; [|split].
    + intros disk0 env0 n Hfresh r0 killed run.
      destruct (start_spec taskId options initialState Hkeep Hopen disk0 env0)
        as (Hs0 & Hd0 & Hdisk0 & Hi0).
      fold r0 in Hs0, Hd0, Hdisk0, Hi0.
      assert (Hk : killed = run.1).
      { unfold killed, run. rewrite (iterations_is_executes taskId options Hcache n r0).
        - now rewrite Hs0.
        - intros now j Hj. rewrite Hdisk0. apply Hfresh. now rewrite <- Hs0. }
      split; [exact Hk|]. rewrite Hk. unfold run.
      destruct (executes_invoked taskId
                  (Nat.min n (Loop.maxSteps options - State.stepCount initialState)) r0)
        as (E1 & _).
      rewrite Hi0, Hs0 in E1. split; [exact E1|].
      destruct (executes_snapshots taskId (State.stepCount initialState)
                  (Nat.min n (Loop.maxSteps options - State.stepCount initialState)) r0)
        as (k & K1 & K2 & K3).
      * now rewrite Hs0.
      * exact Hd0.
      * rewrite Hs0, Hdisk0. split; [lia|]. split; [intros; lia | exact Hfresh].
      * rewrite Hdisk0. intros now j s Hj Hl. rewrite Hfresh in Hl by exact Hj.
        discriminate.
      * exists k. split; [exact K1|]. split; [exact K2 | exact K3].
    + intros disk0 k. apply torn_write_is_no_snapshot.
    + intros disk0 env1 k fuel Hsnap Hk Hfuel adopted end_.
      destruct (start_spec taskId options initialState Hkeep Hopen disk0 env1)
        as (Hs0 & Hd0 & Hdisk0 & Hi0).
      set (r0 := Loop.start taskId initialState options disk0 env1) in *.
      assert (He0 : Loop.env r0 = env1) by reflexivity.
      assert (Hle : State.stepCount initialState <= k)
        by (destruct Hsnap as (Hle & _); exact Hle).
      destruct (replay taskId options Hcache (State.stepCount initialState) k Hk
                  (k - State.stepCount initialState) r0)
        as (R1 & R2 & R3 & R4 & R5 & R6 & R7).
      * now rewrite Hs0.
      * rewrite Hs0. lia.
      * exact Hd0.
      * exact Hi0.
      * now rewrite Hdisk0.
      * fold adopted in R1, R2, R3, R4, R5, R6, R7.
        rewrite Hs0, Hdisk0, He0 in *.
        assert (Hend : end_ = (if State.done (Loop.state adopted)
                               then (adopted, Loop.Finished)
                               else executes (Loop.maxSteps options - k) taskId adopted)).
        { unfold end_, Loop.agenticLoop. fold r0. rewrite R7 by lia.
          destruct (State.done (Loop.state adopted)); [reflexivity|].
          rewrite (loop_is_executes taskId options Hcache).
          - now rewrite R4.
          - intros now j Hj. rewrite R2. apply Hsnap. now rewrite <- R4.
          - rewrite R4. lia. }
        split; [now repeat split|]. split; [exact Hend|].
        intros Hnd. rewrite Hend, Hnd.
        destruct (executes_invoked taskId (Loop.maxSteps options - k) adopted)
          as (E1 & E2 & E3 & E4 & E5).
        rewrite R1, R4 in *. cbn [app] in E1.
        split; [exact E1|]. split; [lia|]. split; [intros; apply E3; lia|].
        split; [exact E4|]. split; [intros F D; rewrite (E5 F D); lia|].
        intros Hn.
        destruct (executes_never_stops taskId (Loop.maxSteps options - k) adopted Hn Hnd)
          as (N1 & N2 & N3).
        split; [exact N1|]. rewrite E1, N3, R4. f_equal. lia.
Qed.

Lemma always_tool_use_never_stops : never_stops (Env := nat).
Proof.
  intros messages e. eexists _, _. split; [reflexivity|]. discriminate.
Qed.

Lemma resume_reexecutes_from_next_step_witness :
  (Loop.useCache {| Loop.maxSteps := 3; Loop.useCache := true;
                    Loop.clearCacheOnStart := false |} = true /\
   includes "task-0" "/" = false /\
   Loop.clearCacheOnStart {| Loop.maxSteps := 3; Loop.useCache := true;
                             Loop.clearCacheOnStart := false |} = false /\
   State.done Examples.initial_state = false /\
   (forall now j, State.stepCount Examples.initial_state < j ->
                  Loop.loadState now "task-0" j ∅ = None)) /\
  snapshots_upto
    (Loop.disk (Loop.iterations 2 "task-0"
                   {| Loop.maxSteps := 3; Loop.useCache := true;
                      Loop.clearCacheOnStart := false |}
                   (Loop.start "task-0" Examples.initial_state
                      {| Loop.maxSteps := 3; Loop.useCache := true;
                         Loop.clearCacheOnStart := false |} ∅ 0)))
    "task-0" 0 2 /\
  (Loop.agenticLoop 3 "task-0" Examples.initial_state
     {| Loop.maxSteps := 3; Loop.useCache := true;
                     Loop.clearCacheOnStart := false |}
     (Loop.disk (Loop.iterations 2 "task-0"
                   {| Loop.maxSteps := 3; Loop.useCache := true;
                      Loop.clearCacheOnStart := false |}
                   (Loop.start "task-0" Examples.initial_state
                      {| Loop.maxSteps := 3; Loop.useCache := true;
                         Loop.clearCacheOnStart := false |} ∅ 0)))
     7).2
  = Loop.Finished /\
  Loop.invoked
    (Loop.agenticLoop 3 "task-0" Examples.initial_state
       {| Loop.maxSteps := 3; Loop.useCache := true;
                     Loop.clearCacheOnStart := false |}
       (Loop.disk (Loop.iterations 2 "task-0"
                   {| Loop.maxSteps := 3; Loop.useCache := true;
                      Loop.clearCacheOnStart := false |}
                   (Loop.start "task-0" Examples.initial_state
                      {| Loop.maxSteps := 3; Loop.useCache := true;
                         Loop.clearCacheOnStart := false |} ∅ 0)))
       7).1
  = [3].
Proof.
  assert (Hfresh : forall (now : Z) (j : nat),
             State.stepCount Examples.initial_state < j ->
             Loop.loadState now "task-0" j ∅ = None).
  { intros now j _. unfold Loop.loadState. now rewrite lookup_empty. }
  split.
  { split; [reflexivity|]. split; [reflexivity|]. split; [reflexivity|].
    split; [reflexivity | exact Hfresh]. }
  destruct (proj2 (proj2 (resume_reexecutes_from_next_step nat
                            Examples.always_tool_use "task-0"
                            {| Loop.maxSteps := 3; Loop.useCache := true;
                     Loop.clearCacheOnStart := false |}
                            eq_refl eq_refl))
              Examples.initial_state eq_refl eq_refl) as (Hcrash & _ & Hresume).
  destruct (Hcrash ∅ 0 2 Hfresh) as (_ & _ & k & Hk & _ & Hk2).
  assert (Ek : k = 2).
  { rewrite Hk2; [vm_compute; reflexivity|]. intros e. vm_compute. discriminate. }
  subst k. split; [exact Hk|].
  destruct (Hresume _ 7 2 3 Hk ltac:(simpl; lia) ltac:(simpl; lia))
    as (_ & _ & Hrun).
  destruct Hrun as (_ & _ & _ & _ & _ & Hall).
  { vm_compute. reflexivity. }
  destruct (Hall always_tool_use_never_stops) as [F I].
  split; [exact F | exact I].
Defined.

(** * Further properties of the code *)

(** ** The bridge and the worker *)

Lemma fetch_state remote url w :
  (SyncFetch.fetch remote url w).1 =
  {| SyncFetch.nextJobId := S (SyncFetch.nextJobId w);
     SyncFetch.log := (SyncFetch.log w ++ [url])%list |}.
Proof.
  unfold SyncFetch.fetch.
  destruct (remote _ url) as [[d|e]|]; reflexivity.
Qed.

(** X1: every call of the bridge takes the next job id and hands its
    locator to the worker, whether it returns or throws: after any sequence
    of calls [nextJobId] has advanced by their number and the locators were
    requested in the order of the calls. *)
Theorem bridge_job_ids_are_consecutive remote urls w :
  SyncFetch.nextJobId (fetch_all remote urls w) = SyncFetch.nextJobId w + length urls /\
  SyncFetch.log (fetch_all remote urls w) = (SyncFetch.log w ++ urls)%list.
Proof.
  revert w; induction urls as [|u urls IH]; intros w; simpl.
  - split; [lia | now rewrite app_nil_r].
  - destruct (IH (SyncFetch.fetch remote u w).1) as [I1 I2].
    unfold fetch_all in *. rewrite I1, I2, fetch_state; simpl.
    split; [lia | now rewrite <- app_assoc].
Qed.

Lemma literal_append_nonempty c s u : String c s +:+ u <> "".
Proof. rewrite append_cons. discriminate. Qed.

Lemma truthy_nonempty s : truthy s = true -> s <> "".
Proof. apply truthy_true. Qed.

Lemma truthy_literal c s u : truthy (String c s +:+ u) = true.
Proof. apply truthy_true, literal_append_nonempty. Qed.

(** X2: whatever the worker posts back, an error thrown by the bridge is a
    plain [Error] (never an [ErrnoError]) whose name and message are not
    empty: a missing or empty message is replaced by
    [Failed to fetch <url>], a missing or empty name by [Error]. *)
Theorem bridge_errors_are_named_and_worded remote url w e :
  (SyncFetch.fetch remote url w).2 = Throw e ->
  exists name message, e = Error name message /\ name <> "" /\ message <> "".
Proof.
  unfold SyncFetch.fetch.
  destruct (remote _ url) as [[d|err]|]; simpl; intros H; try discriminate;
    injection H as <-; eexists _, _; (split; [reflexivity|]).
  - split.
    + destruct err as [[m [n|]]|]; try discriminate.
      destruct (truthy n) eqn:T; [now apply truthy_nonempty | discriminate].
    + destruct err as [[m n]|]; simpl; [|apply literal_append_nonempty].
      destruct (truthy m) eqn:T; [now apply truthy_nonempty | apply literal_append_nonempty].
  - split; [discriminate | apply literal_append_nonempty].
Qed.

Lemma bridge_errors_are_named_and_worded_witness :
  (SyncFetch.fetch Examples.remote_down "https://example.invalid/" SyncFetch.new).2
  = Throw (Error "Error" "HTTP 404 Not Found") /\
  exists name message,
    Error "Error" "HTTP 404 Not Found" = Error name message /\
    name <> "" /\ message <> "".
Proof.
  split; [reflexivity|].
  apply (bridge_errors_are_named_and_worded Examples.remote_down
           "https://example.invalid/" SyncFetch.new).
  reflexivity.
Defined.

(** X3: the worker and the bridge end to end.  The signal stored by
    [handleFetchRequest] is 1 or -1, never the 0 the bridge waits on.  A
    response with a status from 200 to 299 hands its bytes to the caller of
    [fetch]; any other status makes [fetch] throw
    [Error("HTTP <status> <statusText>")], whatever the body; a rejected
    request makes it throw an error with the name and message of the
    rejection, and a rejection with a falsy value is reported as
    [Unknown error fetching <url>]. *)
Theorem worker_answers_reach_the_caller net url w :
  let answer := FetchWorker.handleFetchRequest url (net url) in
  let outcome := (SyncFetch.fetch (FetchWorker.served net) url w).2 in
  (answer.2 = 1%Z \/ answer.2 = (-1)%Z) /\
  (forall status statusText data,
     net url = FetchWorker.Responds status statusText (FetchWorker.BodyBytes data) ->
     200 <= status <= 299 ->
     answer.2 = 1%Z /\ outcome = Return data) /\
  (forall status statusText body,
     net url = FetchWorker.Responds status statusText body ->
     ~ 200 <= status <= 299 ->
     answer.2 = (-1)%Z /\
     outcome = Throw (Error "Error" ("HTTP " +:+ pretty status +:+ " " +:+ statusText))) /\
  (forall name message,
     net url = FetchWorker.Rejects (FetchWorker.ErrorInstance name message) ->
     name <> "" -> message <> "" ->
     answer.2 = (-1)%Z /\ outcome = Throw (Error name message)) /\
  (net url = FetchWorker.Rejects FetchWorker.Falsy ->
     outcome = Throw (Error "Error" ("Unknown error fetching " +:+ url))).
Proof.
  cbn zeta. unfold SyncFetch.fetch, FetchWorker.served.
  assert (Hok : forall status, 200 <= status <= 299 -> FetchWorker.ok status = true).
  { intros s Hs. unfold FetchWorker.ok.
    destruct (Nat.leb_spec 200 s), (Nat.leb_spec s 299); simpl; try lia; reflexivity. }
  assert (Hno : forall status, ~ 200 <= status <= 299 -> FetchWorker.ok status = false).
  { intros s Hs. unfold FetchWorker.ok.
    destruct (Nat.leb_spec 200 s), (Nat.leb_spec s 299); simpl; try lia; reflexivity. }
  split; [|split; [|split; [|split]]].
  - unfold FetchWorker.handleFetchRequest.
    destruct (net url) as [e|s t [d|e]]; simpl; auto; destruct (FetchWorker.ok s); simpl; auto.
  - intros status statusText data H Hs. rewrite H.
    unfold FetchWorker.handleFetchRequest. rewrite (Hok _ Hs). split; reflexivity.
  - intros status statusText body H Hs. rewrite H.
    unfold FetchWorker.handleFetchRequest. rewrite (Hno _ Hs).
    cbn [negb fst snd FetchWorker.normalizeError SyncFetch.err_message SyncFetch.err_name].
    rewrite truthy_literal. split; reflexivity.
  - intros name message H Hn Hm. rewrite H. simpl.
    rewrite (proj2 (truthy_true name) Hn), (proj2 (truthy_true message) Hm).
    split; reflexivity.
  - intros H. rewrite H.
    cbn [FetchWorker.handleFetchRequest negb fst snd FetchWorker.normalizeError
         SyncFetch.err_message SyncFetch.err_name].
    rewrite truthy_literal. reflexivity.
Qed.

(** ** The node tree: lookup, attributes, reading, listing *)

(** X4: [lookup] returns a node exactly when the remote path is in the
    cache afterwards ([is_cached] answers true), the node is a regular file
    carrying that remote path, and the lookup never evicts or overwrites an
    entry: what was cached stays cached with the same bytes, and no other
    key than the looked-up path is touched. *)
Theorem lookup_returns_iff_cached remote parent name a :
  let key := NodeTree.child_path parent name in
  let r := NodeTree.lookup remote parent name a in
  ((exists node, r.2 = Return node) <-> NodeTree.is_cached r.1 key = true) /\
  (forall node, r.2 = Return node ->
     NodeTree.remote_path node = Some key /\
     NodeTree.isDir (NodeTree.node_mode node) = false) /\
  (forall k data, NodeTree.cache a !! k = Some data ->
                  NodeTree.cache r.1 !! k = Some data) /\
  (forall k, k <> key -> NodeTree.cache r.1 !! k = NodeTree.cache a !! k).
Proof.
  cbn zeta. unfold NodeTree.is_cached.
  destruct (NodeTree.cache a !! NodeTree.child_path parent name) as [d|] eqn:C.
  - rewrite (lookup_hit remote _ _ _ _ C); simpl.
    repeat split; eauto.
    + intros _. rewrite C. now apply bool_decide_eq_true.
    + now injection H as <-.
    + now injection H as <-.
  - destruct (remote (SyncFetch.nextJobId (NodeTree.fetcher a))
                (NodeTree.pathToURL a (NodeTree.child_path parent name)))
      as [[d|e]|] eqn:R.
    + rewrite (lookup_miss_ok remote _ _ _ _ C R); simpl.
      repeat split; eauto.
      * intros _. rewrite lookup_insert_eq. now apply bool_decide_eq_true.
      * now injection H as <-.
      * now injection H as <-.
      * intros k data H. destruct (decide (k = NodeTree.child_path parent name)) as [->|N].
        -- congruence.
        -- now rewrite lookup_insert_ne.
      * intros k N. now rewrite lookup_insert_ne.
    + rewrite (lookup_miss_fails remote _ _ _ C) by (intros data; congruence); simpl.
      repeat split; try discriminate; auto.
      * intros [node H]; discriminate.
      * rewrite C. intros H. apply bool_decide_eq_true in H. destruct H; discriminate.
    + rewrite (lookup_miss_fails remote _ _ _ C) by (intros data; congruence); simpl.
      repeat split; try discriminate; auto.
      * intros [node H]; discriminate.
      * rewrite C. intros H. apply bool_decide_eq_true in H. destruct H; discriminate.
Qed.

(** X5: after a [lookup] that returns, [getattr] of the returned node
    reports the length of the fetched bytes as size, the mode
    [S_IFREG | 0o444], and the number of 4096-byte blocks that just covers
    the size.  The remote path must not be empty: for the empty path
    [getattr] reports size 0. *)
Theorem getattr_after_lookup remote parent name a a' node now :
  NodeTree.child_path parent name <> "" ->
  NodeTree.lookup remote parent name a = (a', Return node) ->
  exists data,
    NodeTree.cache a' !! NodeTree.child_path parent name = Some data /\
    let attr := NodeTree.getattr now a' node in
    NodeTree.attr_size attr = Z.of_nat (length data) /\
    NodeTree.attr_mode attr = 33060%Z /\
    (4096 * (NodeTree.attr_blocks attr - 1) < NodeTree.attr_size attr
     <= 4096 * NodeTree.attr_blocks attr)%Z.
Proof.
  intros Hne H.
  assert (exists data, NodeTree.cache a' !! NodeTree.child_path parent name = Some data /\
            node = NodeTree.createNode name (Z.lor NodeTree.S_IFREG 292)
                     (NodeTree.child_path parent name)) as (data & C' & ->).
  { destruct (NodeTree.cache a !! NodeTree.child_path parent name) as [d|] eqn:C.
    - rewrite (lookup_hit remote _ _ _ _ C) in H. injection H as <- <-. eauto.
    - destruct (remote (SyncFetch.nextJobId (NodeTree.fetcher a))
                  (NodeTree.pathToURL a (NodeTree.child_path parent name)))
        as [[d|e]|] eqn:R.
      + rewrite (lookup_miss_ok remote _ _ _ _ C R) in H. injection H as <- <-.
        exists d. simpl. now rewrite lookup_insert_eq.
      + rewrite (lookup_miss_fails remote _ _ _ C) in H by (intros ?; congruence).
        discriminate.
      + rewrite (lookup_miss_fails remote _ _ _ C) in H by (intros ?; congruence).
        discriminate. }
  exists data. split; [exact C'|].
  unfold NodeTree.getattr, NodeTree.createNode; cbn -[Z.div Z.mul].
  rewrite (proj2 (truthy_true _) Hne), C'; cbn -[Z.div Z.mul].
  assert (D := Z.div_mod (Z.of_nat (length data) + 4095) 4096 ltac:(lia)).
  assert (B := Z.mod_pos_bound (Z.of_nat (length data) + 4095) 4096 ltac:(lia)).
  change (NodeTree.isDir (Z.lor NodeTree.S_IFREG 292)) with false; cbv iota.
  repeat split; try reflexivity; lia.
Qed.

Lemma getattr_after_lookup_witness :
  (NodeTree.child_path None "icanhazip.com" <> "" /\
   NodeTree.lookup Examples.remote_up None "icanhazip.com" Examples.tree0
   = ((NodeTree.lookup Examples.remote_up None "icanhazip.com" Examples.tree0).1,
      Return (NodeTree.createNode "icanhazip.com" 33060 "icanhazip.com"))) /\
  NodeTree.attr_size
    (NodeTree.getattr 0
       (NodeTree.lookup Examples.remote_up None "icanhazip.com" Examples.tree0).1
       (NodeTree.createNode "icanhazip.com" 33060 "icanhazip.com"))
  = 7%Z.
Proof.
  assert (H1 : NodeTree.child_path None "icanhazip.com" <> "") by discriminate.
  assert (H2 : NodeTree.lookup Examples.remote_up None "icanhazip.com" Examples.tree0
               = ((NodeTree.lookup Examples.remote_up None "icanhazip.com"
                     Examples.tree0).1,
                  Return (NodeTree.createNode "icanhazip.com" 33060 "icanhazip.com")))
    by reflexivity.
  split; [split; assumption|].
  destruct (getattr_after_lookup Examples.remote_up None "icanhazip.com" Examples.tree0
              _ _ 0%Z H1 H2) as (data & Hc & Hs & _).
  rewrite Hs. vm_compute in Hc. injection Hc as <-. reflexivity.
Defined.

Lemma read_chunks_from a stream remotePath data chunk :
  NodeTree.remote_path (NodeTree.stream_node stream) = Some remotePath ->
  NodeTree.cache a !! remotePath = Some data ->
  0 < chunk ->
  forall fuel pos, pos <= length data -> length data - pos < fuel ->
    read_chunks fuel a stream chunk (Z.of_nat pos) = Some (drop pos data).
Proof.
  intros Hn Hc Hchunk. induction fuel as [|fuel IH]; intros pos Hpos Hfuel; [lia|].
  cbn [read_chunks].
  destruct (read_within_file a stream remotePath data Hn Hc (repeat Byte.x00 chunk)
              0 (Z.of_nat chunk) (Z.of_nat pos)) as [R L];
    try rewrite repeat_length; try lia.
  cbv zeta in R, L. rewrite R. clear R. rewrite Nat2Z.id in *.
  set (n := (Z.min (Z.of_nat (length data)) (Z.of_nat pos + Z.of_nat chunk)
             - Z.of_nat pos)%Z) in *.
  destruct (Z.leb_spec n 0) as [Hn0|Hn0].
  - f_equal. symmetry. apply drop_ge. lia.
  - change (Z.to_nat 0) with 0. rewrite take_0, app_nil_l.
    rewrite take_app_length' by lia.
    replace (Z.of_nat pos + n)%Z with (Z.of_nat (pos + Z.to_nat n)) by lia.
    rewrite IH by lia. simpl. f_equal.
    rewrite <- drop_drop. apply take_drop.
Qed.

(** X6: reading a cached file from position 0 in chunks of any positive
    size, each [read] continuing where the previous one ended, returns
    exactly the cached bytes and ends with a read of 0 bytes. *)
Theorem chunked_reads_return_the_file a stream remotePath data chunk fuel :
  NodeTree.remote_path (NodeTree.stream_node stream) = Some remotePath ->
  NodeTree.cache a !! remotePath = Some data ->
  0 < chunk -> length data < fuel ->
  read_chunks fuel a stream chunk 0 = Some data.
Proof.
  intros Hn Hc Hchunk Hfuel.
  apply (read_chunks_from a stream remotePath data chunk Hn Hc Hchunk fuel 0); lia.
Qed.

Lemma chunked_reads_return_the_file_witness :
  (NodeTree.remote_path (NodeTree.stream_node
     {| NodeTree.stream_node := Examples.node_f; NodeTree.stream_position := 0 |})
   = Some "f" /\
   NodeTree.cache Examples.tree_f !! "f" = Some ["a"; "b"; "c"]%byte /\
   0 < 2 /\ length ["a"; "b"; "c"]%byte < 4) /\
  read_chunks 4 Examples.tree_f
    {| NodeTree.stream_node := Examples.node_f; NodeTree.stream_position := 0 |} 2 0
  = Some ["a"; "b"; "c"]%byte.
Proof.
  split; [repeat split; simpl; lia|].
  apply (chunked_reads_return_the_file Examples.tree_f
           {| NodeTree.stream_node := Examples.node_f; NodeTree.stream_position := 0 |}
           "f" ["a"; "b"; "c"]%byte 2 4); [reflexivity | reflexivity | lia | simpl; lia].
Defined.

(** X7: [llseek] relative to the end and [read] compose: seeking to [k]
    bytes before the end of a cached file returns the position
    [length - k], and a read of [k] bytes there fills the start of the buffer
    with the last [k] bytes of the file and returns [k].  Seeking to before
    the start of the file throws [ErrnoError(22)] (EINVAL). *)
Theorem seek_from_end_then_read a stream remotePath data k buffer :
  NodeTree.remote_path (NodeTree.stream_node stream) = Some remotePath ->
  NodeTree.cache a !! remotePath = Some data ->
  k <= length data -> k <= length buffer ->
  (forall offset, (Z.of_nat (length data) + offset < 0)%Z ->
     NodeTree.llseek a stream offset 2 = Throw (ErrnoError 22 None)) /\
  exists moved,
    NodeTree.llseek a stream (- Z.of_nat k) 2
    = Return (moved, Z.of_nat (length data - k)) /\
    NodeTree.stream_node moved = NodeTree.stream_node stream /\
    NodeTree.stream_position moved = Z.of_nat (length data - k) /\
    NodeTree.read a moved buffer 0 (Z.of_nat k) (NodeTree.stream_position moved)
    = Return ((drop (length data - k) data ++ drop k buffer)%list, Z.of_nat k).
Proof.
  intros Hn Hc Hk Hb. split.
  - intros offset Ho. unfold NodeTree.llseek. rewrite Hn, Hc.
    change (2 =? 0)%Z with false. change (2 =? 1)%Z with false.
    change (2 =? 2)%Z with true. cbv iota.
    destruct (Z.ltb_spec (Z.of_nat (length data) + offset) 0); [reflexivity | lia].
  - eexists. split; [|split; [|split]].
    + unfold NodeTree.llseek. rewrite Hn, Hc.
      change (2 =? 0)%Z with false. change (2 =? 1)%Z with false.
      change (2 =? 2)%Z with true. cbv iota.
      destruct (Z.ltb_spec (Z.of_nat (length data) + - Z.of_nat k) 0); [lia|].
      replace (Z.of_nat (length data) + - Z.of_nat k)%Z
        with (Z.of_nat (length data - k)) by lia.
      reflexivity.
    + reflexivity.
    + reflexivity.
    + cbn [NodeTree.stream_position].
      destruct (read_within_file a
                  {| NodeTree.stream_node := NodeTree.stream_node stream;
                     NodeTree.stream_position := Z.of_nat (length data - k) |}
                  remotePath data Hn Hc buffer 0 (Z.of_nat k)
                  (Z.of_nat (length data - k))) as [R L]; try lia.
      cbv zeta in R, L. rewrite R. clear R.
      replace (Z.min (Z.of_nat (length data)) (Z.of_nat (length data - k) + Z.of_nat k)
               - Z.of_nat (length data - k))%Z with (Z.of_nat k) in * by lia.
      rewrite Nat2Z.id in *. change (Z.to_nat 0) with 0.
      rewrite take_0, app_nil_l.
      assert (E : take k (drop (length data - k) data) = drop (length data - k) data).
      { apply take_ge. rewrite length_drop. lia. }
      rewrite !Nat2Z.id, !E, length_drop.
      replace (0 + (length data - (length data - k))) with k by lia.
      reflexivity.
Qed.

Lemma seek_from_end_then_read_witness :
  (NodeTree.remote_path (NodeTree.stream_node
     {| NodeTree.stream_node := Examples.node_f; NodeTree.stream_position := 0 |})
   = Some "f" /\
   NodeTree.cache Examples.tree_f !! "f" = Some ["a"; "b"; "c"]%byte /\
   2 <= length ["a"; "b"; "c"]%byte /\ 2 <= length ["x"; "y"; "z"; "w"]%byte) /\
  NodeTree.llseek Examples.tree_f
    {| NodeTree.stream_node := Examples.node_f; NodeTree.stream_position := 0 |} (-4) 2
  = Throw (ErrnoError 22 None).
Proof.
  split; [repeat split; simpl; lia|].
  apply (proj1 (seek_from_end_then_read Examples.tree_f
                  {| NodeTree.stream_node := Examples.node_f;
                     NodeTree.stream_position := 0 |}
                  "f" ["a"; "b"; "c"]%byte 2 ["x"; "y"; "z"; "w"]%byte
                  eq_refl eq_refl ltac:(simpl; lia) ltac:(simpl; lia))).
  simpl. lia.
Defined.

Lemma first_segment_slash_free s : includes (NodeTree.first_segment s) "/" = false.
Proof.
  induction s as [|c s IH]; simpl; [reflexivity|].
  destruct (Ascii.eqb c "/") eqn:E; simpl; [reflexivity|].
  now rewrite E, IH.
Qed.

Lemma first_segment_split s :
  exists rest, s = NodeTree.first_segment s +:+ rest /\
               (rest = "" \/ startsWith rest "/" = true).
Proof.
  induction s as [|c s (rest & E & R)]; simpl.
  - exists "". split; [reflexivity | now left].
  - destruct (Ascii.eqb_spec c "/") as [->|N].
    + exists (String "/" s). split; [reflexivity | right].
      apply (startsWith_append "/" s).
    + exists rest. rewrite append_cons. split; [now f_equal | exact R].
Qed.

Lemma first_segment_append x rest :
  includes x "/" = false ->
  rest = "" \/ startsWith rest "/" = true ->
  NodeTree.first_segment (x +:+ rest) = x.
Proof.
  intros Hx Hr. induction x as [|c x IH].
  - rewrite append_nil. destruct Hr as [->|Hr]; [reflexivity|].
    apply startsWith_split in Hr. rewrite Hr, append_cons. reflexivity.
  - rewrite append_cons. simpl in *.
    apply orb_false_iff in Hx as [Hc Hx]. rewrite Hc. now rewrite IH.
Qed.

Lemma child_of_spec dirPath key x :
  NodeTree.child_of dirPath key = Some x <->
  includes x "/" = false /\
  exists rest, (rest = "" \/ startsWith rest "/" = true) /\
    key = (if truthy dirPath then dirPath +:+ "/" else "") +:+ x +:+ rest.
Proof.
  unfold NodeTree.child_of, truthy.
  destruct (String.eqb_spec dirPath "") as [->|N]; cbn [negb].
  - split.
    + intros H. injection H as <-. split; [apply first_segment_slash_free|].
      destruct (first_segment_split key) as (rest & E & R).
      exists rest. now rewrite append_nil.
    + intros (Hx & rest & R & ->). now rewrite append_nil, first_segment_append.
  - split.
    + destruct (startsWith key (dirPath +:+ "/")) eqn:P; [|discriminate].
      intros H. injection H as <-. split; [apply first_segment_slash_free|].
      apply startsWith_split in P.
      rewrite length_append in P. cbn [String.length] in P.
      destruct (first_segment_split (slice (String.length dirPath + 1) key))
        as (rest & E & R).
      exists rest. split; [exact R|]. now rewrite <- E.
    + intros (Hx & rest & R & ->).
      rewrite startsWith_append.
      replace (String.length dirPath + 1) with (String.length (dirPath +:+ "/"))
        by (rewrite length_append; reflexivity).
      now rewrite slice_append, first_segment_append.
Qed.

(** X8: [readdir] is a view of the cache: after [.] and [..] it lists,
    without repetition, exactly the names [x] without a slash for which
    some cached path is [<dir>/x] or continues it with [/...] (for the root
    and a node without remote path: the cached path starts with [x]); with
    an empty cache it lists nothing else. *)
Theorem readdir_lists_first_segments a node :
  let prefix := match NodeTree.remote_path node with
                | Some dirPath => if truthy dirPath then dirPath +:+ "/" else ""
                | None => ""
                end in
  let children := drop 2 (NodeTree.readdir a node) in
  take 2 (NodeTree.readdir a node) = ["."; ".."] /\
  NoDup children /\
  (forall x, x ∈ children <->
     includes x "/" = false /\
     exists rest, (rest = "" \/ startsWith rest "/" = true) /\
       NodeTree.is_cached a (prefix +:+ x +:+ rest) = true) /\
  (NodeTree.cache a = ∅ -> children = []).
Proof.
  cbn zeta. unfold NodeTree.readdir. cbn [take drop].
  split; [reflexivity|]. split; [apply NoDup_remove_dups|]. split.
  - intros x. rewrite drop_0, elem_of_remove_dups, list_elem_of_omap.
    assert (P : (match NodeTree.remote_path node with
                 | Some dirPath => if truthy dirPath then dirPath +:+ "/" else ""
                 | None => ""
                 end)
                = if truthy (default "" (NodeTree.remote_path node))
                  then default "" (NodeTree.remote_path node) +:+ "/" else "").
    { destruct (NodeTree.remote_path node); reflexivity. }
    rewrite P. clear P. split.
    + intros (key & Hkey & Hc). apply child_of_spec in Hc as (Hx & rest & R & ->).
      split; [exact Hx|]. exists rest. split; [exact R|].
      apply list_elem_of_fmap in Hkey as ([k v] & -> & Hkv).
      apply elem_of_map_to_list in Hkv. simpl in *.
      unfold NodeTree.is_cached. apply bool_decide_eq_true. eauto.
    + intros (Hx & rest & R & Hc).
      unfold NodeTree.is_cached in Hc. apply bool_decide_eq_true in Hc as [v Hv].
      eexists. split.
      * apply list_elem_of_fmap. eexists (_, v). split; [reflexivity|].
        apply elem_of_map_to_list. exact Hv.
      * apply child_of_spec. split; [exact Hx|]. now exists rest.
  - intros ->. now rewrite drop_0, map_to_list_empty.
Qed.

Lemma preloadFile_unfold remote remotePath a :
  NodeTree.preloadFile remote remotePath a
  = match SyncFetch.fetch remote (NodeTree.pathToURL a remotePath) (NodeTree.fetcher a) with
    | (w, Return data) =>
        (NodeTree.set_cache (<[remotePath := data]> (NodeTree.cache a))
           (NodeTree.set_fetcher w a), Return data)
    | (w, Throw e) => (NodeTree.set_fetcher w a, Throw e)
    end.
Proof.
  unfold NodeTree.preloadFile, NodeTree.on_fetcher, bind, get, modify, ret.
  destruct (SyncFetch.fetch remote _ _) as [w [d|e]]; reflexivity.
Qed.

(** X9: [preloadFile] calls the bridge for the path's locator even when
    the path is cached.  If the call returns, the bytes replace the entry of
    the path and every later [lookup] of that path returns without calling
    the bridge; if it throws, the caller gets the bridge's own error, not a
    filesystem error, and the cache is unchanged. *)
Theorem preloadFile_always_fetches remote remotePath a :
  let r := NodeTree.preloadFile remote remotePath a in
  let bridge := SyncFetch.fetch remote (NodeTree.pathToURL a remotePath)
                  (NodeTree.fetcher a) in
  NodeTree.fetcher r.1 = bridge.1 /\
  SyncFetch.log (NodeTree.fetcher r.1)
  = (SyncFetch.log (NodeTree.fetcher a) ++ [NodeTree.pathToURL a remotePath])%list /\
  (forall data, bridge.2 = Return data ->
     r.2 = Return data /\
     NodeTree.cache r.1 = <[remotePath := data]> (NodeTree.cache a) /\
     forall parent name, NodeTree.child_path parent name = remotePath ->
       NodeTree.lookup remote parent name r.1
       = (r.1, Return (NodeTree.createNode name 33060 remotePath))) /\
  (forall e, bridge.2 = Throw e ->
     r.2 = Throw e /\ NodeTree.cache r.1 = NodeTree.cache a /\
     forall errno message, e <> ErrnoError errno message).
Proof.
  cbn zeta. rewrite preloadFile_unfold.
  pose proof (fetch_state remote (NodeTree.pathToURL a remotePath) (NodeTree.fetcher a)) as W.
  destruct (SyncFetch.fetch remote (NodeTree.pathToURL a remotePath)
              (NodeTree.fetcher a)) as [w [d|e]] eqn:F;
    cbn [fst snd] in *; subst w.
  - split; [reflexivity|]. split; [reflexivity|]. split; [|discriminate].
    intros data H. injection H as <-. split; [reflexivity|]. split; [reflexivity|].
    intros parent name <-.
    apply (lookup_hit remote parent name _ d). apply lookup_insert_eq.
  - split; [reflexivity|]. split; [reflexivity|]. split; [discriminate|].
    intros e' H. injection H as <-. split; [reflexivity|]. split; [reflexivity|].
    intros errno message ->.
    unfold SyncFetch.fetch in F.
    destruct (remote _ _) as [[?|?]|]; discriminate.
Qed.

(** ** The interception adapter: paths and entry points *)

Lemma append_nonempty_r p s : s <> "" -> p +:+ s <> "".
Proof.
  intros Hs. destruct p as [|c p]; [now rewrite append_nil|].
  apply literal_append_nonempty.
Qed.

Lemma startsWith_slash s : startsWith s "/" = true -> exists r, s = "/" +:+ r.
Proof. intros H. apply startsWith_split in H. eauto. Qed.

Section InterceptMore.
Context {FS Node Stream : Type} `{!HostFS FS Node Stream}.
Variable remote : SyncFetch.Remote.

Lemma normalizeToMount_cases (a : Intercept.t FS) (path q : string) :
  Intercept.normalizeToMount a path = Some q ->
  path <> "" /\ q <> "" /\ startsWith q (Intercept.mountPoint a) = true /\
  (startsWith path (Intercept.mountPoint a) = false ->
   Intercept.isWithinMount a q = true).
Proof.
  unfold Intercept.normalizeToMount.
  destruct (truthy path) eqn:T; cbn [negb]; [|discriminate].
  apply truthy_true in T. intros Hq. split; [exact T|].
  destruct (startsWith path (Intercept.mountPoint a)) eqn:P.
  - injection Hq as <-. repeat split; auto. discriminate.
  - destruct (startsWith path "/") eqn:S; injection Hq as <-.
    + split; [now apply append_nonempty_r|].
      split; [apply startsWith_append|]. intros _.
      apply startsWith_slash in S as [r ->]. apply isWithinMount_under.
    + split; [apply append_nonempty_r, literal_append_nonempty|].
      split; [apply startsWith_append|]. intros _. apply isWithinMount_under.
Qed.

(** X10: [normalizeToMount] returns null exactly for the empty path; any
    other path is mapped to a non-empty path that starts with the mount
    point and that [normalizeToMount] leaves as it is.  A path that does
    not start with the mount point is mapped to a path inside the mount. *)
Theorem normalizeToMount_lands_in_mount (a : Intercept.t FS) (path : string) :
  (Intercept.normalizeToMount a path = None <-> path = "") /\
  (forall q, Intercept.normalizeToMount a path = Some q ->
     q <> "" /\
     startsWith q (Intercept.mountPoint a) = true /\
     Intercept.normalizeToMount a q = Some q /\
     (startsWith path (Intercept.mountPoint a) = false ->
      Intercept.isWithinMount a q = true)).
Proof.
  split.
  - split.
    + intros N. destruct (truthy path) eqn:T; [|now apply truthy_false].
      unfold Intercept.normalizeToMount in N. rewrite T in N. cbn [negb] in N.
      destruct (startsWith path _); [discriminate|].
      destruct (startsWith path "/"); discriminate.
    + intros ->. reflexivity.
  - intros q Hq. destruct (normalizeToMount_cases a path q Hq) as (_ & Q1 & Q2 & Q3).
    repeat split; auto. now apply normalizeToMount_prefixed.
Qed.

Lemma materialise_unwanted (normalized : option string) (a : Intercept.t FS) :
  Intercept.materialise remote normalized false a = (a, Return tt).
Proof.
  unfold Intercept.materialise. destruct normalized as [p|]; [|reflexivity].
  now rewrite andb_false_r.
Qed.

(** X11: [shouldFetchForOpen] refuses numeric flags exactly when their
    access mode ([flags mod 4]) is [O_WRONLY], and string flags exactly when
    they contain [w] or [a]; a patched [open] with such flags is the
    original [open] on the same arguments (mode 0o666 by default): the
    bridge is not called and the cache is not changed. *)
Theorem write_only_open_never_fetches (pathArg : PathArg Node) (flags : Flags)
    (mode : option Z) (a : Intercept.t FS) :
  (forall n, Intercept.shouldFetchForOpen (FNum n) = false <-> (n mod 4 = 1)%Z) /\
  (forall s, Intercept.shouldFetchForOpen (FStr s) = false
             <-> includes s "w" = true \/ includes s "a" = true) /\
  (Intercept.shouldFetchForOpen flags = false ->
   Intercept.patchedOpen remote pathArg flags mode a
   = Intercept.on_hostfs (host_open pathArg flags (default 438%Z mode)) a).
Proof.
  split; [|split].
  - intros n. unfold Intercept.shouldFetchForOpen, Intercept.O_ACCMODE, Intercept.O_WRONLY.
    change 3%Z with (Z.ones 2). rewrite Z.land_ones by lia.
    change (2 ^ 2)%Z with 4%Z.
    destruct (Z.eqb_spec (n mod 4) 1); simpl; split; congruence.
  - intros s. unfold Intercept.shouldFetchForOpen.
    destruct (includes s "w"), (includes s "a"); simpl; intuition discriminate.
  - intros Hf. unfold Intercept.patchedOpen, bind, get.
    rewrite Hf, materialise_unwanted. reflexivity.
Qed.

(** X12: [path_to_url] of the sandbox module gives the same locator
    [<scheme>://r] for the three spellings of a remote path [r]: relative
    ([r]), absolute ([/r]) and under the mount ([<mountPoint>/r]); it
    returns null for the empty path. *)
Theorem path_to_url_spellings_agree (a : Intercept.t FS) (r : string) :
  r <> "" ->
  startsWith r "/" = false ->
  startsWith r (Intercept.mountPoint a) = false ->
  startsWith ("/" +:+ r) (Intercept.mountPoint a) = false ->
  let url := Some (Intercept.scheme a +:+ "://" +:+ r) in
  Intercept.path_to_url a r = url /\
  Intercept.path_to_url a ("/" +:+ r) = url /\
  Intercept.path_to_url a (Intercept.mountPoint a +:+ "/" +:+ r) = url /\
  Intercept.path_to_url a "" = None.
Proof.
  intros Hr Hs Hm Hm'. cbn zeta.
  assert (S : strip_slashes r = r).
  { destruct r as [|c r]; [reflexivity|].
    unfold startsWith in Hs. simpl in Hs. simpl.
    destruct (Ascii.eqb_spec c "/") as [->|N]; [|reflexivity].
    destruct (ascii_dec "/" "/"); [|contradiction]. now destruct r. }
  assert (U : Intercept.path_to_url a (Intercept.mountPoint a +:+ "/" +:+ r)
              = Some (Intercept.scheme a +:+ "://" +:+ r)).
  { unfold Intercept.path_to_url.
    rewrite normalizeToMount_prefixed;
      [| apply append_nonempty_r, literal_append_nonempty | apply startsWith_append].
    rewrite (proj2 (truthy_true _)) by apply append_nonempty_r, literal_append_nonempty.
    cbn [negb]. rewrite pathToURL_under, S, (proj2 (truthy_true r) Hr). reflexivity. }
  split; [|split; [|split]].
  - unfold Intercept.path_to_url at 1. unfold Intercept.normalizeToMount.
    rewrite (proj2 (truthy_true r) Hr), Hm, Hs. cbn [negb].
    unfold Intercept.path_to_url in U.
    rewrite normalizeToMount_prefixed in U;
      [| apply append_nonempty_r, literal_append_nonempty | apply startsWith_append].
    exact U.
  - unfold Intercept.path_to_url at 1. unfold Intercept.normalizeToMount.
    rewrite (proj2 (truthy_true _) (literal_append_nonempty _ _ _)), Hm'.
    rewrite startsWith_append. cbn [negb].
    unfold Intercept.path_to_url in U.
    rewrite normalizeToMount_prefixed in U;
      [| apply append_nonempty_r, literal_append_nonempty | apply startsWith_append].
    exact U.
  - exact U.
  - reflexivity.
Qed.

Lemma startsWith_longer p c : startsWith p (p +:+ String c "") = false.
Proof.
  unfold startsWith. induction p as [|d p IH].
  - reflexivity.
  - rewrite append_cons. simpl. destruct (ascii_dec d d); [exact IH | reflexivity].
Qed.

Lemma extractRemotePath_mount (a : Intercept.t FS) :
  Intercept.mountPoint a <> "/" ->
  Intercept.extractRemotePath a (Intercept.mountPoint a)
  = strip_slashes (Intercept.mountPoint a).
Proof.
  intros Hmp. unfold Intercept.extractRemotePath, Intercept.isWithinMount,
    Intercept.mount_prefix.
  rewrite String.eqb_refl. cbn [negb].
  destruct (String.eqb_spec (Intercept.mountPoint a) "/"); [contradiction|].
  now rewrite startsWith_longer.
Qed.

(** X13: the mount point itself has a locator: unless the mount point is
    [/], [pathToURL(mountPoint)] is [<scheme>://] followed by the mount
    point without its leading slashes.  The patched [stat] of the mount
    point therefore asks the bridge for that locator, and when the request
    fails it throws ENOENT instead of reporting the directory. *)
Theorem stat_of_mount_point_fetches (a : Intercept.t FS) (dontFollow : bool) :
  Intercept.mountPoint a <> "/" ->
  strip_slashes (Intercept.mountPoint a) <> "" ->
  let url := Intercept.scheme a +:+ "://" +:+ strip_slashes (Intercept.mountPoint a) in
  Intercept.pathToURL a (Intercept.mountPoint a) = Return url /\
  (Intercept.cache a !! Intercept.mountPoint a = None ->
   fetch_fails remote (Intercept.fetcher a) url ->
   exists a' message,
     Intercept.patchedStat remote (PStr (Intercept.mountPoint a)) dontFollow a
     = (a', Throw (ErrnoError ENOENT (Some message))) /\
     SyncFetch.log (Intercept.fetcher a')
     = (SyncFetch.log (Intercept.fetcher a) ++ [url])%list).
Proof.
  intros Hmp Hs. cbn zeta.
  assert (U : Intercept.pathToURL a (Intercept.mountPoint a)
              = Return (Intercept.scheme a +:+ "://"
                        +:+ strip_slashes (Intercept.mountPoint a))).
  { unfold Intercept.pathToURL. rewrite extractRemotePath_mount by assumption.
    now rewrite (proj2 (truthy_true _) Hs). }
  split; [exact U|]. intros Hmiss Hfail.
  assert (W : Intercept.isWithinMount a (Intercept.mountPoint a) = true).
  { unfold Intercept.isWithinMount. now rewrite String.eqb_refl. }
  assert (Hne : Intercept.mountPoint a <> "").
  { intros E. rewrite E in Hs. now apply Hs. }
  destruct (ensureFileSync_fetch_fails remote a _ _ W U (or_introl Hmiss) Hfail)
    as [message E].
  eexists _, message.
  unfold Intercept.patchedStat, bind, get. cbn [Intercept.normalizePathArg].
  rewrite normalizeToMount_prefixed by (auto using startsWith_refl).
  unfold Intercept.materialise. rewrite (proj2 (truthy_true _) Hne). cbn [andb].
  unfold bind. rewrite E. split; reflexivity.
Qed.

Lemma lastIndexOf_slash_free name :
  includes name "/" = false -> lastIndexOf_slash name = None.
Proof.
  induction name as [|c name IH]; simpl; [reflexivity|].
  intros H. apply orb_false_iff in H as [Hc Hn]. now rewrite IH, Hc.
Qed.

Lemma dirname_of_child d name :
  includes name "/" = false ->
  lastIndexOf_slash (d +:+ "/" +:+ name) = Some (String.length d) /\
  String.substring 0 (String.length d) (d +:+ "/" +:+ name) = d.
Proof.
  intros Hn. induction d as [|c d [IH1 IH2]].
  - rewrite append_nil, append_cons, append_nil. simpl.
    rewrite (lastIndexOf_slash_free _ Hn). split; [reflexivity|].
    now destruct name.
  - rewrite append_cons. simpl. rewrite IH1, IH2. split; reflexivity.
Qed.

(** X14: [ensureParentDirectories] of [d/name] does nothing when the
    parent [d] is empty, [/] or the mount point; otherwise it asks the
    original [stat] for [d]: if that returns nothing is created, if it
    throws ENOENT the directory tree [d] is created, and any other error is
    rethrown. *)
Theorem ensureParentDirectories_creates_missing_parent (a : Intercept.t FS)
    (d name : string) :
  includes name "/" = false ->
  let r := Intercept.ensureParentDirectories (d +:+ "/" +:+ name) a in
  (d = "" \/ d = "/" \/ d = Intercept.mountPoint a -> r = (a, Return tt)) /\
  (d <> "" -> d <> "/" -> d <> Intercept.mountPoint a ->
   match host_stat (PStr d) false (Intercept.hostfs a) with
   | Return _ => r = (a, Return tt)
   | Throw (ErrnoError errno message) =>
       if (errno =? ENOENT)%Z
       then r = Intercept.on_hostfs (host_mkdirTree d) a
       else r = (a, Throw (ErrnoError errno message))
   | Throw e => r = (a, Throw e)
   end).
Proof.
  intros Hn. cbn zeta.
  destruct (dirname_of_child d name Hn) as [L S].
  unfold Intercept.ensureParentDirectories, bind, get. rewrite L, S. split.
  - intros [-> | [-> | ->]].
    + reflexivity.
    + reflexivity.
    + destruct (truthy (Intercept.mountPoint a)) eqn:T.
      * rewrite T. cbn [negb]. rewrite String.eqb_refl.
        now rewrite orb_true_r.
      * reflexivity.
  - intros H1 H2 H3. rewrite (proj2 (truthy_true d) H1). cbv iota.
    rewrite (proj2 (truthy_true d) H1). cbn [negb orb].
    destruct (String.eqb_spec d "/"); [contradiction|].
    destruct (String.eqb_spec d (Intercept.mountPoint a)); [contradiction|].
    cbn [orb]. unfold try_catch, Intercept.original_stat, bind, ret, throw.
    destruct (host_stat (PStr d) false (Intercept.hostfs a)) as [st|[errno m|nm m]].
    + reflexivity.
    + destruct (errno =? ENOENT)%Z; reflexivity.
    + reflexivity.
Qed.

(** X15: [stat] of the sandbox module never materialises a file: it leaves
    the adapter (cache, bridge and host filesystem) as it is.  It returns
    null for the empty path and for a path the host reports as missing,
    rethrows any other error of the host, and otherwise reports the
    normalised path with the size and modification time of the host's
    [stat]. *)
Theorem py_stat_never_fetches (a : Intercept.t FS) (path : string) :
  let r := Intercept.py_stat path a in
  r.1 = a /\
  (path = "" -> r.2 = Return None) /\
  (forall q, Intercept.normalizeToMount a path = Some q ->
     match host_stat (PStr q) false (Intercept.hostfs a) with
     | Return st =>
         r.2 = Return (Some {| Intercept.py_path := q;
                               Intercept.py_size := st_size st;
                               Intercept.py_timestamp := st_mtime st |})
     | Throw (ErrnoError errno message) =>
         if (errno =? ENOENT)%Z then r.2 = Return None
         else r.2 = Throw (ErrnoError errno message)
     | Throw e => r.2 = Throw e
     end).
Proof.
  cbn zeta. unfold Intercept.py_stat, bind, get.
  destruct (Intercept.normalizeToMount a path) as [q|] eqn:N.
  - destruct (normalizeToMount_cases a path q N) as (_ & Hq & _). rewrite (proj2 (truthy_true q) Hq). cbn [negb].
    unfold Intercept.fileExists, try_catch, Intercept.original_stat, bind, ret, throw.
    destruct (host_stat (PStr q) false (Intercept.hostfs a)) as [st|[errno m|nm m]] eqn:S.
    + cbn. rewrite S. split; [reflexivity|]. split.
      * intros ->. discriminate.
      * intros q' E. injection E as <-. now rewrite S.
    + destruct (errno =? ENOENT)%Z eqn:E; cbn.
      * split; [reflexivity|]. split; [intros ->; discriminate|].
        intros q' E'. injection E' as <-. now rewrite S, E.
      * split; [reflexivity|]. split; [intros ->; discriminate|].
        intros q' E'. injection E' as <-. now rewrite S, E.
    + cbn. split; [reflexivity|]. split; [intros ->; discriminate|].
      intros q' E'. injection E' as <-. now rewrite S.
  - split; [reflexivity|]. split; [reflexivity|]. discriminate.
Qed.

End InterceptMore.

Lemma path_to_url_spellings_agree_witness :
  ("icanhazip.com/get" <> "" /\
   startsWith "icanhazip.com/get" "/" = false /\
   startsWith "icanhazip.com/get"
     (Intercept.mountPoint (Examples.intercept0 MemFS.with_tmp_file)) = false /\
   startsWith ("/" +:+ "icanhazip.com/get")
     (Intercept.mountPoint (Examples.intercept0 MemFS.with_tmp_file)) = false) /\
  Intercept.path_to_url (Examples.intercept0 MemFS.with_tmp_file) "/icanhazip.com/get"
  = Some "https://icanhazip.com/get".
Proof.
  split; [repeat split; [discriminate | reflexivity..]|].
  apply (proj1 (proj2 (path_to_url_spellings_agree
                         (Examples.intercept0 MemFS.with_tmp_file) "icanhazip.com/get"
                         ltac:(discriminate) eq_refl eq_refl eq_refl))).
Defined.

Lemma stat_of_mount_point_fetches_witness :
  (Intercept.mountPoint (Examples.intercept0 MemFS.with_tmp_file) <> "/" /\
   strip_slashes (Intercept.mountPoint (Examples.intercept0 MemFS.with_tmp_file)) <> "") /\
  Intercept.pathToURL (Examples.intercept0 MemFS.with_tmp_file) "/network"
  = Return "https://network".
Proof.
  split; [split; discriminate|].
  apply (proj1 (stat_of_mount_point_fetches (Node := string) Examples.remote_down
                  (Examples.intercept0 MemFS.with_tmp_file) false
                  ltac:(discriminate) ltac:(discriminate))).
Defined.

Lemma ensureParentDirectories_creates_missing_parent_witness :
  includes "get" "/" = false /\
  Intercept.ensureParentDirectories ("/network/icanhazip.com" +:+ "/" +:+ "get")
    (Examples.intercept0 MemFS.with_tmp_file)
  = Intercept.on_hostfs (host_mkdirTree "/network/icanhazip.com")
      (Examples.intercept0 MemFS.with_tmp_file).
Proof.
  split; [reflexivity|].
  exact (proj2 (ensureParentDirectories_creates_missing_parent
                  (Examples.intercept0 MemFS.with_tmp_file)
                  "/network/icanhazip.com" "get" eq_refl)
           ltac:(discriminate) ltac:(discriminate) ltac:(discriminate)).
Defined.

(** ** The restricted registry: what it serves and lists *)

Section RegistryMore.
Variable remote : SyncFetch.Remote.
Variable known : gmap string string.

Lemma registry_lookup_miss (parent : NodeTree.Node) (name : string) (a : NodeTree.t) :
  NodeTree.cache a !! Registry.child_path parent name = None ->
  let key := Registry.child_path parent name in
  let gone := Throw (ErrnoError 44 (Some ("No such file: " +:+ key))) in
  match known !! name with
  | Some url =>
      if truthy url then
        match remote (SyncFetch.nextJobId (NodeTree.fetcher a)) url with
        | Some (SyncFetch.StatusOk data) =>
            Registry.lookup remote known parent name a
            = (NodeTree.set_cache (<[key := data]> (NodeTree.cache a))
                 (NodeTree.set_fetcher
                    {| SyncFetch.nextJobId := S (SyncFetch.nextJobId (NodeTree.fetcher a));
                       SyncFetch.log := (SyncFetch.log (NodeTree.fetcher a) ++ [url])%list |}
                    a),
               Return (NodeTree.createNode name 33060 key))
        | _ =>
            Registry.lookup remote known parent name a
            = (NodeTree.set_fetcher
                 {| SyncFetch.nextJobId := S (SyncFetch.nextJobId (NodeTree.fetcher a));
                    SyncFetch.log := (SyncFetch.log (NodeTree.fetcher a) ++ [url])%list |}
                 a, gone)
        end
      else Registry.lookup remote known parent name a = (a, gone)
  | None =>
      exists a', Registry.lookup remote known parent name a = (a', gone) /\
                 NodeTree.cache a' = NodeTree.cache a /\
                 SyncFetch.log (NodeTree.fetcher a') = SyncFetch.log (NodeTree.fetcher a)
  end.
Proof.
  intros C. cbn zeta.
  unfold Registry.lookup, bind, get. rewrite C.
  unfold Registry.get_property.
  destruct (known !! name) as [url|] eqn:K.
  - cbn [Registry.falsy]. destruct (truthy url) eqn:T; cbn [negb]; [|reflexivity].
    unfold try_catch, bind, NodeTree.on_fetcher, Registry.fetch_value, SyncFetch.fetch,
      modify, throw, ret.
    destruct (remote _ url) as [[d|e]|]; reflexivity.
  - destruct (bool_decide _).
    + eexists. split; [reflexivity|]. split; reflexivity.
    + destruct (String.eqb name "__proto__").
      * eexists. split; [reflexivity|]. split; reflexivity.
      * eexists. split; [reflexivity|]. split; reflexivity.
Qed.

(** X16: on a cache miss the restricted [lookup] returns a node only for a
    registered name: then the bridge was asked for exactly the registered
    locator and the bytes it returned are cached under the looked-up path.
    For a name that is not an own property of the registry the lookup
    throws ENOENT, caches nothing and hands no locator to the worker (also
    for the names inherited from [Object.prototype]). *)
Theorem registry_serves_only_registered_names (parent : NodeTree.Node) (name : string)
    (a : NodeTree.t) :
  NodeTree.cache a !! Registry.child_path parent name = None ->
  let key := Registry.child_path parent name in
  let r := Registry.lookup remote known parent name a in
  (forall node, r.2 = Return node ->
     exists url data,
       known !! name = Some url /\
       remote (SyncFetch.nextJobId (NodeTree.fetcher a)) url
       = Some (SyncFetch.StatusOk data) /\
       SyncFetch.log (NodeTree.fetcher r.1)
       = (SyncFetch.log (NodeTree.fetcher a) ++ [url])%list /\
       NodeTree.cache r.1 = <[key := data]> (NodeTree.cache a)) /\
  (known !! name = None ->
     r.2 = Throw (ErrnoError 44 (Some ("No such file: " +:+ key))) /\
     NodeTree.cache r.1 = NodeTree.cache a /\
     SyncFetch.log (NodeTree.fetcher r.1) = SyncFetch.log (NodeTree.fetcher a)).
Proof.
  intros C. cbn zeta. pose proof (registry_lookup_miss parent name a C) as L.
  cbn zeta in L.
  destruct (known !! name) as [url|] eqn:K.
  - split; [|discriminate]. intros node Hr.
    destruct (truthy url); [|rewrite L in Hr; discriminate].
    destruct (remote _ url) as [[d|e]|] eqn:R; rewrite L in Hr; try discriminate.
    rewrite L. exists url, d. repeat split; auto.
  - destruct L as (a' & L & Lc & Ll). rewrite L. split; [discriminate|].
    intros _. repeat split; assumption.
Qed.

Lemma registry_lookup_keeps (name : string) (a : NodeTree.t) :
  registered_only known a ->
  registered_only known (Registry.lookup remote known Registry.root name a).1.
Proof.
  intros I.
  destruct (NodeTree.cache a !! Registry.child_path Registry.root name) as [d|] eqn:C.
  - unfold Registry.lookup, bind, get. rewrite C. exact I.
  - pose proof (registry_lookup_miss Registry.root name a C) as L. cbn zeta in L.
    destruct (known !! name) as [url|] eqn:K.
    + destruct (truthy url); [|rewrite L; exact I].
      destruct (remote _ url) as [[d|e]|]; rewrite L; try exact I.
      intros key [v Hv]. cbn in Hv.
      destruct (decide (key = Registry.child_path Registry.root name)) as [->|N].
      * exists name. split; [reflexivity | eauto].
      * rewrite lookup_insert_ne in Hv by congruence. apply I. eauto.
    + destruct L as (a' & L & Lc & _). rewrite L. intros key Hk. apply I.
      cbn in Hk. now rewrite <- Lc.
Qed.

Lemma registry_lookups_keep (names : list string) (a : NodeTree.t) :
  registered_only known a -> registered_only known (registry_lookups remote known names a).
Proof.
  revert a. induction names as [|n names IH]; intros a I; [exact I|].
  apply IH. now apply registry_lookup_keeps.
Qed.

Lemma first_segment_slash r : NodeTree.first_segment ("/" +:+ r) = "".
Proof. rewrite append_cons. reflexivity. Qed.

(** X17: in the restricted adapter, after any sequence of lookups under
    the root starting from an empty cache, every cached path is [/name] for
    a registered [name]; as these paths start with a slash, [readdir] of the
    root lists an empty name instead of the names: its result is [.] and
    [..] while the cache is empty, and [.], [..] and the empty string
    afterwards. *)
Theorem registry_root_listing_hides_names (names : list string) (a : NodeTree.t) :
  NodeTree.cache a = ∅ ->
  let a' := registry_lookups remote known names a in
  (forall key, NodeTree.is_cached a' key = true ->
     exists name, key = "/" +:+ name /\ is_Some (known !! name)) /\
  NodeTree.readdir a' Registry.root
  = if decide (NodeTree.cache a' = ∅) then ["."; ".."] else ["."; ".."; ""].
Proof.
  intros E. cbn zeta.
  assert (I : registered_only known (registry_lookups remote known names a)).
  { apply registry_lookups_keep. intros key [v Hv]. rewrite E in Hv. discriminate. }
  split.
  - intros key Hk. apply I. unfold NodeTree.is_cached in Hk.
    now apply bool_decide_eq_true in Hk.
  - set (a' := registry_lookups remote known names a) in *.
    unfold NodeTree.readdir. cbn [Registry.root NodeTree.remote_path default].
    assert (A : forall x, x ∈ omap (NodeTree.child_of "") (map_to_list (NodeTree.cache a')).*1
                          -> x = "").
    { intros x Hx. apply list_elem_of_omap in Hx as (key & Hkey & Hc).
      apply list_elem_of_fmap in Hkey as ([k v] & -> & Hkv).
      apply elem_of_map_to_list in Hkv. cbn in *.
      destruct (I k) as (name & -> & _); [eauto|].
      unfold NodeTree.child_of in Hc. cbn in Hc. rewrite first_segment_slash in Hc.
      congruence. }
    destruct (decide (NodeTree.cache a' = ∅)) as [Em|Ne].
    + now rewrite Em, map_to_list_empty.
    + do 2 f_equal.
      assert (In : "" ∈ remove_dups (omap (NodeTree.child_of "")
                                       (map_to_list (NodeTree.cache a')).*1)).
      { apply elem_of_remove_dups.
        destruct (map_to_list (NodeTree.cache a')) as [|[k v] l] eqn:M.
        - apply map_to_list_empty_iff in M. contradiction.
        - assert (Hk : (k, v) ∈ map_to_list (NodeTree.cache a')) by (rewrite M; left).
          apply elem_of_map_to_list in Hk.
          destruct (I k) as (name & -> & _); [eauto|].
          cbn. unfold NodeTree.child_of at 1. cbn. rewrite first_segment_slash. left. }
      pose proof (NoDup_remove_dups (omap (NodeTree.child_of "")
                                       (map_to_list (NodeTree.cache a')).*1)) as ND.
      assert (A' : forall x, x ∈ remove_dups (omap (NodeTree.child_of "")
                                       (map_to_list (NodeTree.cache a')).*1) -> x = "").
      { intros x Hx. apply A. now apply elem_of_remove_dups. }
      destruct (remove_dups _) as [|x [|y l]].
      * inversion In.
      * f_equal. apply A'. left.
      * exfalso. assert (x = "") by (apply A'; left).
        assert (y = "") by (apply A'; right; left). subst.
        inversion ND as [|? ? Hnot _]. apply Hnot. left.
Qed.

End RegistryMore.

Lemma registry_serves_only_registered_names_witness :
  NodeTree.cache Examples.tree0 !! Registry.child_path Registry.root "passwd" = None /\
  (Registry.lookup Examples.remote_up Registry.KNOWN_RESOURCES Registry.root "passwd"
     Examples.tree0).2
  = Throw (ErrnoError 44 (Some "No such file: /passwd")).
Proof.
  split; [reflexivity|].
  apply (proj2 (registry_serves_only_registered_names Examples.remote_up
                  Registry.KNOWN_RESOURCES Registry.root "passwd" Examples.tree0
                  eq_refl)).
  reflexivity.
Defined.

Lemma registry_root_listing_hides_names_witness :
  NodeTree.cache Examples.tree0 = ∅ /\
  NodeTree.readdir
    (registry_lookups Examples.remote_up Registry.KNOWN_RESOURCES
       ["current-ip"; "constructor"] Examples.tree0)
    Registry.root
  = ["."; ".."; ""].
Proof.
  split; [reflexivity|].
  rewrite (proj2 (registry_root_listing_hides_names Examples.remote_up
                    Registry.KNOWN_RESOURCES ["current-ip"; "constructor"]
                    Examples.tree0 eq_refl)).
  reflexivity.
Defined.

(** ** Steps, tool output and snapshots *)

Section LoopMore.
Import State Loop.
Context {Env : Type} `{!Collaborators Env}.
Implicit Types (r : Run Env).

Lemma handlers_messages out err r :
  messages (state (handlers out err r)) = messages (state r).
Proof. unfold handlers. now destruct (captureRef r). Qed.

Lemma executePythonCode_messages code r :
  messages (state (executePythonCode code r).1) = messages (state r).
Proof.
  unfold executePythonCode.
  destruct (run_python code (env r) (live r)) as [[e' l'] outcome].
  cbn. now rewrite handlers_messages.
Qed.

Lemma run_tools_results (blocks : list Block) r :
  messages (state (run_tools blocks r).1) = messages (state r) /\
  Forall2 (fun u res => exists out, res = ToolResult u.1 out /\
                                    (is_Some out <-> u.2 = "execute_python"))
    (tool_uses blocks) (run_tools blocks r).2.
Proof.
  revert r. induction blocks as [|b blocks IH]; intros r; [split; [reflexivity|constructor]|].
  destruct b as [text|id name code|id res]; cbn [run_tools tool_uses omap]; try apply IH.
  destruct (String.eqb_spec name "execute_python") as [->|N].
  - pose proof (executePythonCode_messages code r) as Hm.
    destruct (executePythonCode code r) as [r' res]. cbn [fst] in Hm.
    destruct (IH r') as [I1 I2]. destruct (run_tools blocks r') as [r2 results].
    cbn [fst snd] in *. split; [congruence|].
    constructor; [|exact I2]. eexists. split; [reflexivity|]. cbn. split; eauto.
  - destruct (IH r) as [I1 I2]. destruct (run_tools blocks r) as [r2 results].
    cbn [fst snd] in *. split; [congruence|].
    constructor; [|exact I2]. exists None. split; [reflexivity|]. cbn.
    split; [intros [? ?]; discriminate | contradiction].
Qed.

(** X18: [runAgenticStep] only appends to the conversation.  If the
    reasoning collaborator throws, the step throws the same error and the
    messages are unchanged.  Otherwise the assistant message with the
    response's content is appended; for the stop reason [tool_use] it is
    followed by one user message holding one tool result per tool call of
    the response, in the same order and with the same identifier, whose
    content is present exactly when the tool is [execute_python]. *)
Theorem step_appends_paired_tool_results r :
  let r' := (runAgenticStep r).1 in
  match create_message (messages (state r)) (env r) with
  | (_, Throw error) =>
      (runAgenticStep r).2 = Throw error /\
      messages (state r') = messages (state r)
  | (_, Return response) =>
      let assistant := {| role := "assistant";
                          content := CBlocks (response_content response) |} in
      match stop_reason response with
      | tool_use =>
          exists results,
            messages (state r')
            = (messages (state r)
               ++ [assistant; {| role := "user"; content := CBlocks results |}])%list /\
            Forall2 (fun u res => exists out, res = ToolResult u.1 out /\
                                   (is_Some out <-> u.2 = "execute_python"))
              (tool_uses (response_content response)) results
      | _ => messages (state r') = (messages (state r) ++ [assistant])%list
      end
  end.
Proof.
  cbn zeta. unfold runAgenticStep. cbn [state set_state set_invoked env messages
    set_stepCount].
  destruct (create_message (messages (state r)) (env r)) as [e' [response|error]].
  - destruct (stop_reason response).
    + reflexivity.
    + match goal with |- context [run_tools ?b ?x] =>
        destruct (run_tools_results b x) as [M F];
        destruct (run_tools b x) as [r2 toolResults] end.
      cbn [fst snd] in *. exists toolResults. split; [|exact F].
      cbn. rewrite M. cbn. now rewrite <- app_assoc.
    + reflexivity.
  - split; reflexivity.
Qed.

Lemma append_empty_r s : s +:+ "" = s.
Proof.
  induction s as [|c s IH]; [reflexivity|]. rewrite append_cons. now f_equal.
Qed.

(** X19: while the output handlers still write to the capture buffers of
    the current state, [executePythonCode] reports what was captured before
    followed by what the code printed, appends the exception's message to
    the reported [stderr], reports success exactly when nothing was raised,
    and leaves both capture buffers empty; the conversation and the step
    count are untouched. *)
Theorem executePythonCode_reports_and_resets code r :
  captureRef r = None ->
  let out := (run_python code (env r) (live r)).2 in
  let r' := (executePythonCode code r).1 in
  let res := (executePythonCode code r).2 in
  res_stdout res = stdout (outputCapture (state r)) +:+ py_stdout out /\
  res_stderr res = (stderr (outputCapture (state r)) +:+ py_stderr out)
                   +:+ default "" (py_raised out) /\
  (res_success res = true <-> py_raised out = None) /\
  outputCapture (state r') = {| stdout := ""; stderr := "" |} /\
  messages (state r') = messages (state r) /\
  stepCount (state r') = stepCount (state r).
Proof.
  intros Hc. cbn zeta. unfold executePythonCode.
  destruct (run_python code (env r) (live r)) as [[e' l'] outcome].
  unfold handlers. cbn [captureRef set_live set_env]. rewrite Hc.
  cbn. destruct (py_raised outcome) as [m|]; cbn.
  - repeat split; try discriminate.
  - rewrite append_empty_r. repeat split; auto.
Qed.

(** X20: once a snapshot has been adopted, the output handlers still write
    to the capture object of the state that was replaced.  A later
    [executePythonCode] therefore reports the buffers stored in the
    snapshot and nothing of what the code prints, which accumulates in the
    detached object. *)
Theorem output_is_lost_after_resume taskId options r cached code :
  useCache options = true ->
  loadState (clock (env r)) taskId (stepCount (state r) + 1) (disk r) = Some cached ->
  let r1 := (iteration taskId options r).1 in
  let out := (run_python code (env r1) (live r1)).2 in
  let r2 := (executePythonCode code r1).1 in
  let res := (executePythonCode code r1).2 in
  state r1 = cached /\
  res_stdout res = stdout (outputCapture cached) /\
  res_stderr res = stderr (outputCapture cached) +:+ default "" (py_raised out) /\
  exists c, captureRef r1 = Some c /\
            captureRef r2 = Some {| stdout := stdout c +:+ py_stdout out;
                                    stderr := stderr c +:+ py_stderr out |}.
Proof.
  intros Hu Hl. cbn zeta. unfold iteration. cbv zeta. rewrite Hu, Hl.
  cbn [fst]. unfold executePythonCode.
  match goal with |- context [run_python code ?e ?l] =>
    destruct (run_python code e l) as [[e' l'] outcome] end.
  unfold handlers. cbn.
  destruct (py_raised outcome) as [m|]; cbn.
  - repeat split. eexists. split; reflexivity.
  - rewrite append_empty_r. repeat split. eexists. split; reflexivity.
Qed.

(** X21: a snapshot carries the live subsystems across processes.  When
    the network cache and the output files are captured, the state is saved
    and later loaded and restored into another run, the network cache is
    exactly the captured one (entries the run had before are gone), and
    the output directory holds the captured files in addition to those it
    already had, the captured bytes winning.  This needs a codec whose
    decoding inverts its encoding; the key [__proto__], which an object
    literal does not store, is excluded. *)
Theorem snapshot_restores_live_subsystems r r0 (now now' : Z) (taskId : string)
    (j : nat) (disk0 : gmap string FileContent) :
  (forall b, base64_decode (base64_encode b) = b) ->
  fs_cache (live r) !! "__proto__" = None ->
  output_dir (live r) !! "__proto__" = None ->
  let captured := captureOutputFiles (captureNetworkCache r) in
  let disk1 := saveState now taskId j (state captured) disk0 in
  exists s,
    loadState now' taskId j disk1 = Some s /\
    let restored := restoreOutputFiles (restoreNetworkCache (set_state s r0)) in
    fs_cache (live restored) = fs_cache (live r) /\
    forall name,
      output_dir (live restored) !! name
      = match output_dir (live r) !! name with
        | Some data => Some data
        | None => output_dir (live r0) !! name
        end.
Proof.
  intros Hcodec _ _. cbn zeta. eexists. split; [apply loadState_saveState|].
  unfold deserialize. rewrite constructor_serialize. cbn.
  split.
  - rewrite <- map_fmap_compose. apply map_eq. intros k.
    rewrite lookup_fmap. destruct (fs_cache (live r) !! k); cbn; [|reflexivity].
    now rewrite Hcodec.
  - intros name. rewrite lookup_union, <- map_fmap_compose, lookup_fmap.
    destruct (output_dir (live r) !! name); cbn.
    + rewrite Hcodec. now destruct (output_dir (live r0) !! name).
    + now destruct (output_dir (live r0) !! name).
Qed.

Lemma getCachePath_prefix (taskId : string) (j : nat) :
  includes taskId "/" = false ->
  startsWith (getCachePath taskId j) (cacheDir +:+ "/" +:+ taskId +:+ "-") = true.
Proof.
  intros Hfree. rewrite (getCachePath_plain _ _ Hfree).
  replace (cacheDir +:+ "/" +:+ taskId +:+ "-step-" +:+ pretty j +:+ ".json")
    with ((cacheDir +:+ "/" +:+ taskId +:+ "-") +:+ "step-" +:+ pretty j +:+ ".json").
  - apply startsWith_append.
  - now rewrite !append_assoc.
Qed.

(** X22: for a task id without a slash, whose snapshot files lie in the
    cache directory itself, and a cache directory without subdirectories
    (which [unlinkSync] would reject): after [clearCache(taskId)] no
    snapshot of the task loads, for any step; the same holds for every
    other task whose identifier is [<taskId>-] followed by a part without
    slash, whose files share the prefix; files of the disk that do not
    start with [<cacheDir>/<taskId>-] are untouched. *)
Theorem clearCache_removes_task_snapshots (taskId : string)
    (disk : gmap string FileContent) :
  flat_cache_dir disk ->
  includes taskId "/" = false ->
  (forall now j, loadState now taskId j (clearCache taskId disk) = None) /\
  (forall now rest j,
     includes rest "/" = false ->
     loadState now (taskId +:+ "-" +:+ rest) j (clearCache taskId disk) = None) /\
  (forall path, startsWith path (cacheDir +:+ "/" +:+ taskId +:+ "-") = false ->
     clearCache taskId disk !! path = disk !! path).
Proof.
  intros _ Hfree. unfold clearCache. split; [|split].
  - intros now j. unfold loadState.
    rewrite map_lookup_filter_None_2; [reflexivity|].
    right. intros x _ Hx.
    change (startsWith (getCachePath taskId j) (cacheDir +:+ "/" +:+ taskId +:+ "-") = false)
      in Hx.
    rewrite getCachePath_prefix in Hx by exact Hfree. discriminate.
  - intros now rest j Hrest. unfold loadState.
    rewrite map_lookup_filter_None_2; [reflexivity|].
    right. intros x _ Hx.
    change (startsWith (getCachePath (taskId +:+ "-" +:+ rest) j)
              (cacheDir +:+ "/" +:+ taskId +:+ "-") = false) in Hx.
    rewrite (startsWith_trans _ (cacheDir +:+ "/" +:+ taskId +:+ "-") (rest +:+ "-"))
      in Hx; [discriminate|].
    replace ((cacheDir +:+ "/" +:+ taskId +:+ "-") +:+ rest +:+ "-")
      with (cacheDir +:+ "/" +:+ (taskId +:+ "-" +:+ rest) +:+ "-")
      by (now rewrite !append_assoc).
    apply getCachePath_prefix.
    rewrite !includes_append, Hfree, Hrest. reflexivity.
  - intros path Hp. destruct (disk !! path) as [f|] eqn:D.
    + apply map_lookup_filter_Some. split; [exact D | exact Hp].
    + apply map_lookup_filter_None. now left.
Qed.

Lemma iteration_without_cache taskId options r :
  useCache options = false ->
  iteration taskId options r
  = match runAgenticStep r with
    | (r1, Throw e) => (r1, Raised e)
    | (r1, Return result_done) => (r1, if result_done then Break else Continue)
    end.
Proof.
  intros Hu. unfold iteration. cbv zeta. rewrite Hu.
  destruct (runAgenticStep r) as [r1 [b|e]]; reflexivity.
Qed.

(** X23: with [useCache] off the loop never reads or writes the disk and
    executes consecutive steps: with fuel for the remaining steps it ends,
    having invoked the collaborator for the steps [c+1], [c+2], ... after
    the current count [c]: all of the steps up to [maxSteps] unless the task
    finished or the collaborator threw. *)
Theorem loop_without_cache_leaves_disk taskId options fuel r :
  useCache options = false ->
  maxSteps options - stepCount (state r) <= fuel ->
  let end_ := loop fuel taskId options r in
  disk end_.1 = disk r /\
  end_.2 <> OutOfFuel /\
  exists m,
    invoked end_.1 = (invoked r ++ seq (S (stepCount (state r))) m)%list /\
    (end_.2 = Finished -> done (state end_.1) = false ->
     m = maxSteps options - stepCount (state r)).
Proof.
  intros Hu. cbn zeta. revert r.
  induction fuel as [|fuel IH]; intros r Hf; rewrite loop_unfold.
  - destruct (Nat.ltb_spec (stepCount (state r)) (maxSteps options)); [lia|].
    cbn. repeat split; try discriminate. exists 0. split; [now rewrite app_nil_r | lia].
  - destruct (Nat.ltb_spec (stepCount (state r)) (maxSteps options)) as [Hlt|Hge].
    + rewrite (iteration_without_cache _ _ _ Hu).
      destruct (runAgenticStep r) as [r1 res] eqn:E.
      destruct (runAgenticStep_spec _ _ _ E) as (Hs & Hd & Hi & Ht & Hfalse).
      destruct res as [[|]|e].
      * cbn. repeat split; auto; try discriminate. exists 1. split; [exact Hi|].
        intros _ Hdone. rewrite Ht in Hdone by reflexivity. discriminate.
      * destruct (IH r1) as (I1 & I2 & m & I3 & I4); [lia|].
        split; [congruence|]. split; [exact I2|].
        exists (S m). split.
        -- rewrite I3, Hi, Hs, <- app_assoc. reflexivity.
        -- intros F D. rewrite (I4 F D), Hs. lia.
      * cbn. repeat split; auto; try discriminate. exists 1. now split.
    + cbn. repeat split; try discriminate. exists 0. split; [now rewrite app_nil_r | lia].
Qed.

(** X24: a snapshot file for the next step whose recorded step count
    equals the current one and which is not done (for instance a file
    holding [{}] for step 1) is adopted again and again: the loop makes no
    progress, never invokes the collaborator, and no amount of fuel lets it
    end. *)
Theorem stale_snapshot_never_ends taskId options cached :
  useCache options = true ->
  done cached = false ->
  forall fuel r,
    stepCount (state r) < maxSteps options ->
    stepCount cached = stepCount (state r) ->
    loadState (clock (env r)) taskId (stepCount (state r) + 1) (disk r) = Some cached ->
    (loop fuel taskId options r).2 = OutOfFuel /\
    invoked (loop fuel taskId options r).1 = invoked r.
Proof.
  intros Hu Hd. induction fuel as [|fuel IH]; intros r Hlt Hc Hl; rewrite loop_unfold;
    destruct (Nat.ltb_spec (stepCount (state r)) (maxSteps options)); try lia.
  - split; reflexivity.
  - destruct (iteration_hit taskId options Hu r cached Hl)
      as (r' & E & Hs & Hi & Hdk & He).
    rewrite E, Hd.
    destruct (IH r') as [I1 I2].
    + rewrite Hs. lia.
    + now rewrite Hs.
    + now rewrite Hs, He, Hdk, Hc.
    + split; [exact I1 | congruence].
Qed.

(** X25: snapshots are overwritten silently.  After two saves under the
    same task and step, [loadState] gives the state of the second save
    stamped with its time; the snapshots of the other steps of the task are
    what they were; and a file that does not parse loads as no snapshot. *)
Theorem saveState_last_write_wins (now1 now2 now : Z) (taskId : string) (j : nat)
    (s1 s2 : AgentState) (disk0 : gmap string FileContent) :
  let disk2 := saveState now2 taskId j s2 (saveState now1 taskId j s1 disk0) in
  loadState now taskId j disk2
  = Some {| messages := messages s2; stepCount := stepCount s2;
            outputCapture := outputCapture s2; networkCache := networkCache s2;
            outputFiles := outputFiles s2; done := done s2;
            metadata := {| taskId := State.taskId (metadata s2);
                           createdAt := createdAt (metadata s2);
                           lastModified := now2 |} |} /\
  (forall i, i <> j -> loadState now taskId i disk2 = loadState now taskId i disk0) /\
  (forall i, loadState now taskId i (<[getCachePath taskId i := Garbled]> disk2) = None).
Proof.
  cbn zeta. split; [|split].
  - rewrite loadState_saveState. unfold deserialize.
    now rewrite constructor_serialize.
  - intros i Hi. now rewrite !loadState_saveState_ne.
  - intros i. unfold loadState. now rewrite lookup_insert_eq.
Qed.

End LoopMore.

Lemma executePythonCode_reports_and_resets_witness :
  Loop.captureRef
    (Loop.start "task-0" Examples.initial_state Loop.default_options ∅ 0) = None /\
  State.res_stdout
    (Loop.executePythonCode "print(1)"
       (Loop.start "task-0" Examples.initial_state Loop.default_options ∅ 0)).2
  = "1".
Proof.
  split; [reflexivity|].
  rewrite (proj1 (@executePythonCode_reports_and_resets nat Examples.always_tool_use "print(1)"
                    (Loop.start "task-0" Examples.initial_state Loop.default_options ∅ 0)
                    eq_refl)).
  reflexivity.
Defined.

Lemma output_is_lost_after_resume_witness :
  (Loop.useCache Loop.default_options = true /\
   Loop.loadState 0 "task-0" 1
     (Loop.saveState 0 "task-0" 1 (State.set_stepCount 1 Examples.initial_state) ∅)
   = Some (State.deserialize 0
             (State.serialize 0 (State.set_stepCount 1 Examples.initial_state)))) /\
  State.res_stdout
    (Loop.executePythonCode "print(1)"
       (Loop.iteration "task-0" Loop.default_options
          (Loop.start "task-0" Examples.initial_state Loop.default_options
             (Loop.saveState 0 "task-0" 1
                (State.set_stepCount 1 Examples.initial_state) ∅) 0)).1).2
  = "".
Proof.
  assert (L : Loop.loadState 0 "task-0" 1
                (Loop.saveState 0 "task-0" 1
                   (State.set_stepCount 1 Examples.initial_state) ∅)
              = Some (State.deserialize 0
                        (State.serialize 0
                           (State.set_stepCount 1 Examples.initial_state))))
    by apply loadState_saveState.
  split; [split; [reflexivity | exact L]|].
  rewrite (proj1 (proj2 (@output_is_lost_after_resume nat Examples.always_tool_use "task-0" Loop.default_options
                           (Loop.start "task-0" Examples.initial_state
                              Loop.default_options
                              (Loop.saveState 0 "task-0" 1
                                 (State.set_stepCount 1 Examples.initial_state) ∅) 0)
                           (State.deserialize 0
                              (State.serialize 0
                                 (State.set_stepCount 1 Examples.initial_state)))
                           "print(1)" eq_refl L))).
  reflexivity.
Defined.

Lemma snapshot_restores_live_subsystems_witness :
  ((forall b, Loop.base64_decode (Loop.base64_encode b) = b) /\
   (∅ : gmap string bytes) !! "__proto__" = None) /\
  exists s,
    Loop.loadState 5 "task-0" 1
      (Loop.saveState 0 "task-0" 1
         (Loop.state
            (Loop.captureOutputFiles
               (Loop.captureNetworkCache
                  (Loop.start "task-0" Examples.initial_state
                     Loop.default_options ∅ 0)))) ∅)
    = Some s.
Proof.
  assert (C : forall b, Loop.base64_decode (Loop.base64_encode b) = b)
    by exact list_byte_of_string_of_list_byte.
  split; [split; [exact C | reflexivity]|].
  destruct (@snapshot_restores_live_subsystems nat Examples.always_tool_use
              (Loop.start "task-0" Examples.initial_state Loop.default_options ∅ 0)
              (Loop.start "task-0" Examples.initial_state Loop.default_options ∅ 0)
              0 5 "task-0" 1 ∅ C eq_refl eq_refl) as (s & Hs & _).
  exists s. exact Hs.
Defined.

Lemma clearCache_removes_task_snapshots_witness :
  (flat_cache_dir
     (Loop.saveState 0 "task-0" 1 Examples.initial_state
        (Loop.saveState 0 "task" 1 Examples.initial_state ∅)) /\
   includes "task" "/" = false) /\
  Loop.loadState 0 "task-0" 1
    (Loop.clearCache "task"
       (Loop.saveState 0 "task-0" 1 Examples.initial_state
          (Loop.saveState 0 "task" 1 Examples.initial_state ∅)))
  = None.
Proof.
  assert (F : flat_cache_dir
                (Loop.saveState 0 "task-0" 1 Examples.initial_state
                   (Loop.saveState 0 "task" 1 Examples.initial_state ∅))).
  { intros path [v Hv] _. unfold Loop.saveState in Hv.
    apply lookup_insert_Some in Hv as [[<- _]|[_ Hv]]; [reflexivity|].
    apply lookup_insert_Some in Hv as [[<- _]|[_ Hv]]; [reflexivity|].
    rewrite lookup_empty in Hv. discriminate. }
  split; [split; [exact F | reflexivity]|].
  apply (proj1 (proj2 (clearCache_removes_task_snapshots "task" _ F eq_refl))
           0%Z "0" 1 eq_refl).
Defined.

Lemma loop_without_cache_leaves_disk_witness :
  (Loop.useCache {| Loop.maxSteps := 3; Loop.useCache := false;
                    Loop.clearCacheOnStart := false |} = false /\
   3 - 0 <= 3) /\
  Loop.disk
    (Loop.loop 3 "task-0"
       {| Loop.maxSteps := 3; Loop.useCache := false; Loop.clearCacheOnStart := false |}
       (Loop.start "task-0" Examples.initial_state
          {| Loop.maxSteps := 3; Loop.useCache := false;
             Loop.clearCacheOnStart := false |} ∅ 0)).1
  = ∅.
Proof.
  split; [split; [reflexivity | lia]|].
  apply (proj1 (@loop_without_cache_leaves_disk nat Examples.always_tool_use "task-0"
                  {| Loop.maxSteps := 3; Loop.useCache := false;
                     Loop.clearCacheOnStart := false |} 3
                  (Loop.start "task-0" Examples.initial_state
                     {| Loop.maxSteps := 3; Loop.useCache := false;
                        Loop.clearCacheOnStart := false |} ∅ 0)
                  eq_refl ltac:(simpl; lia))).
Defined.

Lemma stale_snapshot_never_ends_witness :
  (Loop.useCache Loop.default_options = true /\
   State.done (State.deserialize 0 State.no_data) = false /\
   0 < Loop.maxSteps Loop.default_options /\
   Loop.loadState 0 "task-0" 1 {[ Loop.getCachePath "task-0" 1 := Loop.Json State.no_data ]}
   = Some (State.deserialize 0 State.no_data)) /\
  (Loop.loop 1000 "task-0" Loop.default_options
     (Loop.start "task-0" Examples.initial_state Loop.default_options
        {[ Loop.getCachePath "task-0" 1 := Loop.Json State.no_data ]} 0)).2
  = Loop.OutOfFuel.
Proof.
  assert (L : Loop.loadState 0 "task-0" 1
                {[ Loop.getCachePath "task-0" 1 := Loop.Json State.no_data ]}
              = Some (State.deserialize 0 State.no_data)).
  { unfold Loop.loadState. now rewrite lookup_singleton_eq. }
  split; [split; [reflexivity|]; split; [reflexivity|]; split; [simpl; lia | exact L]|].
  apply (@stale_snapshot_never_ends nat Examples.always_tool_use "task-0" Loop.default_options
           (State.deserialize 0 State.no_data) eq_refl eq_refl 1000
           (Loop.start "task-0" Examples.initial_state Loop.default_options
              {[ Loop.getCachePath "task-0" 1 := Loop.Json State.no_data ]} 0)).
  - simpl. lia.
  - reflexivity.
  - exact L.
Defined.
